(** * TiCDC pipeline core: DDL puller, source manager, MySQL sink backend

    A shallow embedding of
      - cdc/puller/ddl_puller.go               (module [DDLPuller]),
      - cdc/processor/sourcemanager/manager.go (module [SourceManager]),
      - the MySQL backend of the transaction sink, package mysql, whose
        source follows the checkpoint tests in dm/syncer/checkpoint_test.go
        from line 571 on; the line numbers given for the backend are those
        of that file                           (module [MySQLBackend]),
      - the Canal-JSON decoder, package canal, in src/unnamed/part_001
                                               (module [Canal]),
    with the properties the specification states about them, and further
    properties read off the code.

    Conventions.  Go's unsigned 64-bit timestamps and signed 64-bit ids are
    integers of [Z]; the code only compares and stores them.  A Go function
    returning [(skip bool, err error)] returns an [Outcome]; a run-time panic
    (nil dereference, index out of range, [log.Panic]) is the outcome
    [Panic].  Objects passed by pointer and mutated in place ([*timodel.Job],
    the receiver [p]) are returned next to the result. *)

From Stdlib Require Import ZArith Lia Bool Sorted.
From stdpp Require Import base option list gmap strings.

#[local] Open Scope Z_scope.

(** ** Shared vocabulary *)

(** [model.OpType] of a raw KV entry. *)
Inductive OpType := OpTypeUnknown | OpTypePut | OpTypeDelete | OpTypeResolved.

#[global] Instance OpType_eq_dec : EqDecision OpType.
Proof. solve_decision. Defined.

Module DDLPuller.

(** *** Data model *)

(** [timodel.ActionType].  The constructors are the action types the puller
    names; every other action type is [ActionOther] with its code. *)
Inductive ActionType :=
| ActionCreateSchema
| ActionDropSchema
| ActionModifySchemaCharsetAndCollate
| ActionCreateTable
| ActionCreateTables
| ActionRenameTable
| ActionRenameTables
| ActionOther (code : Z).

#[global] Instance ActionType_eq_dec : EqDecision ActionType.
Proof. solve_decision. Defined.

(** [timodel.TableInfo]: the fields read by the puller ([ID], [Name.O]). *)
Record TableInfo := mkTableInfo { tiID : Z; tiName : string }.

(** [timodel.DBInfo]: [ID], [Name.O]. *)
Record DBInfo := mkDBInfo { dbID : Z; dbName : string }.

(** [model.TableInfo], the wrapper stored in a schema snapshot:
    [TableName.Schema], [TableName.Table] and the embedded [Name.O]. *)
Record WrappedTableInfo := mkWrapped {
  wtSchema : string;
  wtTable : string;
  wtName : string
}.

(** The five parallel arrays a RenameTables job carries in its raw
    arguments, in the order [DecodeArgs] reads them. *)
Record RenameTablesArgs := mkRenameArgs {
  oldSchemaIDs : list Z;
  newSchemaIDs : list Z;
  newTableNames : list string;
  oldTableIDs : list Z;
  oldSchemaNames : list string
}.

(** [job.RawArgs].  The JSON codec is a collaborator: a raw message is either
    the encoding of five arrays or something [DecodeArgs] rejects. *)
Inductive RawMessage :=
| RawRenameTables (a : RenameTablesArgs)
| RawOther (payload : string).

Inductive Error :=
| ErrInvalidDDLJob (jobID : Z)
| ErrSyncRenameTableFailed (tableID : Z) (query : string)
| ErrEligibleBecameIneligible (query : string)
| ErrDecodeArgs
| ErrContextDone
| ErrExternal (msg : string).

#[global] Instance Error_eq_dec : EqDecision Error.
Proof. solve_decision. Defined.

(** [job.BinlogInfo] ([timodel.HistoryInfo]). *)
Record HistoryInfo := mkHistory {
  SchemaVersion : Z;
  FinishedTS : Z;
  TableInfo_ : option TableInfo;
  MultipleTableInfos : list TableInfo
}.

(** [timodel.Job]: the fields the puller reads or writes.  [job.Args], the
    decoded arguments that [job.DecodeArgs] leaves in the job, is not among
    them and is not modelled. *)
Record Job := mkJob {
  ID : Z;
  JobType : ActionType;
  SchemaID : Z;
  TableID : Z;
  SchemaName : string;
  TableName : string;
  Query : string;
  BinlogInfo : HistoryInfo;
  RawArgs : RawMessage
}.

Definition setTableName (job : Job) (name : string) : Job :=
  mkJob (ID job) (JobType job) (SchemaID job) (TableID job) (SchemaName job)
        name (Query job) (BinlogInfo job) (RawArgs job).

Definition setRenameResult (job : Job) (raw : RawMessage)
    (remain : list TableInfo) : Job :=
  mkJob (ID job) (JobType job) (SchemaID job) (TableID job) (SchemaName job)
        (TableName job) (Query job)
        (mkHistory (SchemaVersion (BinlogInfo job)) (FinishedTS (BinlogInfo job))
                   (TableInfo_ (BinlogInfo job)) remain)
        raw.

(** [job.DecodeArgs(&oldSchemaIDs, &newSchemaIDs, &newTableNames,
    &oldTableIDs, &oldSchemaNames)]. *)
Definition DecodeArgs (raw : RawMessage) : Error + RenameTablesArgs :=
  match raw with
  | RawRenameTables a => inr a
  | RawOther _ => inl ErrDecodeArgs
  end.

(** [json.Marshal] of the five remaining arrays, then of the array of the
    five messages (ddl_puller.go 337-367).  Marshalling slices of integers
    and of names does not fail. *)
Definition Marshal (a : RenameTablesArgs) : RawMessage := RawRenameTables a.

(** [schema.Snapshot]: the lookups the puller performs.  [filledNames] is
    what [FillSchemaName] finds for a job: the schema name and table name
    the job has afterwards, and the error if it fails. *)
Record Snapshot := mkSnapshot {
  PhysicalTableByID : Z -> option WrappedTableInfo;
  SchemaByID : Z -> option DBInfo;
  IsIneligibleTableID : Z -> bool;
  filledNames : Job -> string * string * option Error
}.

(** Modelled from the spec: [Snapshot.FillSchemaName] of package schema,
    which is not among the sources.  It populates [schema_name] and
    [table_name] of the job, in place, and may fail. *)
Definition FillSchemaName (snap : Snapshot) (job : Job) : Job * option Error :=
  let '(schemaName, tableName, err) := filledNames snap job in
  (mkJob (ID job) (JobType job) (SchemaID job) (TableID job) schemaName
         tableName (Query job) (BinlogInfo job) (RawArgs job),
   err).

(** [entry.SchemaStorage]. *)
Class SchemaStorage (S : Type) := {
  GetLastSnapshot : S -> Snapshot;
  HandleDDLJob : S -> Job -> S * option Error;
  AdvanceResolvedTs : S -> Z -> S
}.

(** [filter.Filter]. *)
Class Filter (F : Type) := {
  ShouldDiscardDDL : F -> ActionType -> string -> string -> bool
}.

(** A result [(skip, err)], or a run-time panic. *)
Inductive Outcome :=
| Return (skip : bool) (err : option Error)
| Panic.

(** A result [err], or a run-time panic. *)
Inductive Result :=
| Ok
| Fail (e : Error)
| Panicked.

(** [model.RawKVEntry] as the puller reads it. *)
Record RawKVEntry := mkRawKV {
  rawOpType : OpType;
  CRTs : Z;
  rawPayload : string
}.

(** [model.DDLJobEntry]. *)
Record DDLJobEntry := mkEntry {
  entryJob : option Job;
  entryOpType : OpType;
  entryCRTs : Z;
  entryErr : option Error
}.

(** *** The DDL job puller, [ddlJobPullerImpl] *)

Section JobPuller.

Context {St F : Type} `{!SchemaStorage St} `{!Filter F}.

(** [filter.IsSchemaDDL], a function of package filter. *)
Variable IsSchemaDDL : ActionType -> bool.

(** Collaborators of [unmarshalDDL]: [entry.IsLegacyFormatJob],
    [entry.ParseDDLJob], and what [initJobTableMeta] reads from the KV
    store (the table [tidb_ddl_job] and the id of its column [job_meta]). *)
Variable IsLegacyFormatJob : RawKVEntry -> bool.
Variable ParseDDLJob :
  option WrappedTableInfo -> RawKVEntry -> Z -> Error + option Job.
Variable kvJobTableMeta : Error + (WrappedTableInfo * Z).

(** The fields of [ddlJobPullerImpl] that the handlers read or write.
    [outputCh] holds the entries sent on the channel, oldest first.
    [tsStores] has no counterpart in the Go struct: it records every value
    that [setResolvedTs] stored, newest first, for the proofs. *)
Record ddlJobPullerImpl := mkPuller {
  schemaStorage : option St;
  resolvedTs : Z;
  filter : F;
  ddlJobsTable : option WrappedTableInfo;
  jobMetaColumnID : Z;
  outputCh : list DDLJobEntry;
  tsStores : list Z
}.

Definition getResolvedTs (p : ddlJobPullerImpl) : Z := resolvedTs p.

Definition setResolvedTs (p : ddlJobPullerImpl) (ts : Z) : ddlJobPullerImpl :=
  mkPuller (schemaStorage p) ts (filter p) (ddlJobsTable p)
           (jobMetaColumnID p) (outputCh p) (ts :: tsStores p).

Definition setSchemaStorage (p : ddlJobPullerImpl) (s : option St)
    : ddlJobPullerImpl :=
  mkPuller s (resolvedTs p) (filter p) (ddlJobsTable p)
           (jobMetaColumnID p) (outputCh p) (tsStores p).

Definition setJobTableMeta (p : ddlJobPullerImpl) (t : WrappedTableInfo)
    (col : Z) : ddlJobPullerImpl :=
  mkPuller (schemaStorage p) (resolvedTs p) (filter p) (Some t) col
           (outputCh p) (tsStores p).

(** [p.outputCh <- jobEntry]. *)
Definition send (p : ddlJobPullerImpl) (e : DDLJobEntry) : ddlJobPullerImpl :=
  mkPuller (schemaStorage p) (resolvedTs p) (filter p) (ddlJobsTable p)
           (jobMetaColumnID p) (outputCh p ++ [e]) (tsStores p).

(** [initJobTableMeta] (ddl_puller.go 211-245). *)
Definition initJobTableMeta (p : ddlJobPullerImpl)
    : option Error * ddlJobPullerImpl :=
  match kvJobTableMeta with
  | inl err => (Some err, p)
  | inr (t, col) => (None, setJobTableMeta p t col)
  end.

(** [unmarshalDDL] (ddl_puller.go 247-258). *)
Definition unmarshalDDL (p : ddlJobPullerImpl) (rawKV : RawKVEntry)
    : (Error + option Job) * ddlJobPullerImpl :=
  if negb (bool_decide (rawOpType rawKV = OpTypePut)) then (inr None, p)
  else
    let '(err, p1) :=
      if bool_decide (ddlJobsTable p = None) && negb (IsLegacyFormatJob rawKV)
      then initJobTableMeta p else (None, p) in
    match err with
    | Some e => (inl e, p1)
    | None => (ParseDDLJob (ddlJobsTable p1) rawKV (jobMetaColumnID p1), p1)
    end.

(** *** [handleRenameTables] (ddl_puller.go 263-371) *)

(** The six [remain...] slices built by the loop. *)
Record Remain := mkRemain {
  remainTables : list TableInfo;
  remainOldSchemaIDs : list Z;
  remainNewSchemaIDs : list Z;
  remainOldTableIDs : list Z;
  remainNewTableNames : list string;
  remainOldSchemaNames : list string
}.

Definition emptyRemain : Remain := mkRemain [] [] [] [] [] [].

(** Lines 296-302: the old identity is discarded when the table is not in
    the snapshot, otherwise when the filter discards it.  [None] is an index
    out of range. *)
Definition shouldDiscardOldTable (flt : F) (snap : Snapshot) (job : Job)
    (args : RenameTablesArgs) (i : nat) (tableInfo : TableInfo) : option bool :=
  match PhysicalTableByID snap (tiID tableInfo) with
  | None => Some true
  | Some oldTable =>
      osn ← oldSchemaNames args !! i;
      Some (ShouldDiscardDDL flt (JobType job) osn (wtName oldTable))
  end.

(** Lines 304-310: the new identity is discarded when its schema is not in
    the snapshot, otherwise when the filter discards it. *)
Definition shouldDiscardNewTable (flt : F) (snap : Snapshot) (job : Job)
    (args : RenameTablesArgs) (i : nat) : option bool :=
  nsid ← newSchemaIDs args !! i;
  match SchemaByID snap nsid with
  | None => Some true
  | Some newSchemaName =>
      ntn ← newTableNames args !! i;
      Some (ShouldDiscardDDL flt (JobType job) (dbName newSchemaName) ntn)
  end.

(** Lines 325-330: the six appends. *)
Definition appendRemain (args : RenameTablesArgs) (i : nat)
    (tableInfo : TableInfo) (r : Remain) : option Remain :=
  osid ← oldSchemaIDs args !! i;
  nsid ← newSchemaIDs args !! i;
  otid ← oldTableIDs args !! i;
  ntn ← newTableNames args !! i;
  osn ← oldSchemaNames args !! i;
  Some (mkRemain (remainTables r ++ [tableInfo])
                 (remainOldSchemaIDs r ++ [osid])
                 (remainNewSchemaIDs r ++ [nsid])
                 (remainOldTableIDs r ++ [otid])
                 (remainNewTableNames r ++ [ntn])
                 (remainOldSchemaNames r ++ [osn])).

Inductive LoopResult :=
| LoopDone (r : Remain)
| LoopFail (e : Error)
| LoopPanic.

(** The loop of lines 295-331, from index [i] over the children still to
    visit. *)
Fixpoint renameLoop (flt : F) (snap : Snapshot) (job : Job)
    (args : RenameTablesArgs) (i : nat) (infos : list TableInfo) (acc : Remain)
    : LoopResult :=
  match infos with
  | [] => LoopDone acc
  | tableInfo :: rest =>
      match shouldDiscardOldTable flt snap job args i tableInfo,
            shouldDiscardNewTable flt snap job args i with
      | Some discardOld, Some discardNew =>
          if discardOld && discardNew then
            renameLoop flt snap job args (S i) rest acc
          else if discardOld && negb discardNew then
            LoopFail (ErrSyncRenameTableFailed (tiID tableInfo) (Query job))
          else
            match appendRemain args i tableInfo acc with
            | Some acc' => renameLoop flt snap job args (S i) rest acc'
            | None => LoopPanic
            end
      | _, _ => LoopPanic
      end
  end.

Definition lengthsMatch (n : nat) (args : RenameTablesArgs) : bool :=
  bool_decide (n = length (oldSchemaIDs args)) &&
  bool_decide (n = length (newSchemaIDs args)) &&
  bool_decide (n = length (newTableNames args)) &&
  bool_decide (n = length (oldTableIDs args)) &&
  bool_decide (n = length (oldSchemaNames args)).

Definition handleRenameTables (p : ddlJobPullerImpl) (job : Job)
    : Outcome * Job :=
  match DecodeArgs (RawArgs job) with
  | inl err => (Return true (Some err), job)
  | inr args =>
      let multiTableInfos := MultipleTableInfos (BinlogInfo job) in
      if negb (lengthsMatch (length multiTableInfos) args) then
        (Return true (Some (ErrInvalidDDLJob (ID job))), job)
      else
        match schemaStorage p with
        | None => (Panic, job)
        | Some s =>
            let snap := GetLastSnapshot s in
            match renameLoop (filter p) snap job args 0 multiTableInfos
                             emptyRemain with
            | LoopPanic => (Panic, job)
            | LoopFail e => (Return true (Some e), job)
            | LoopDone r =>
                if bool_decide (length (remainTables r) = 0%nat) then
                  (Return true None, job)
                else
                  let newRawArgs :=
                    Marshal (mkRenameArgs (remainOldSchemaIDs r)
                                          (remainNewSchemaIDs r)
                                          (remainNewTableNames r)
                                          (remainOldTableIDs r)
                                          (remainOldSchemaNames r)) in
                  (Return false None,
                   setRenameResult job newRawArgs (remainTables r))
            end
        end
  end.

(** *** [checkIneligibleTableDDL] (ddl_puller.go 502-556) *)

Definition checkIneligibleTableDDL (p : ddlJobPullerImpl)
    (snapBefore : Snapshot) (job : Job) : Outcome :=
  if IsSchemaDDL (JobType job) then Return false None
  else
    match schemaStorage p with
    | None => Panic
    | Some s =>
        let snapAfter := GetLastSnapshot s in
        (* lines 509-515: [Some out] when the block returns *)
        let createTable :=
          if bool_decide (JobType job = ActionCreateTable) then
            match TableInfo_ (BinlogInfo job) with
            | None => Some Panic
            | Some ti =>
                let isEligibleAfter :=
                  negb (IsIneligibleTableID snapAfter (tiID ti)) in
                if isEligibleAfter then Some (Return false None) else None
            end
          else None in
        match createTable with
        | Some out => out
        | None =>
            if bool_decide (JobType job = ActionCreateTables) then
              Return false None
            else
              let oldTableID := TableID job in
              match TableInfo_ (BinlogInfo job) with
              | None => Panic
              | Some ti =>
                  let newTableID := tiID ti in
                  let isEligibleAfter :=
                    negb (IsIneligibleTableID (GetLastSnapshot s) newTableID) in
                  if isEligibleAfter then Return false None
                  else
                    match PhysicalTableByID snapBefore oldTableID with
                    | None => Return true None
                    | Some _ =>
                        let isIneligibleBefore :=
                          IsIneligibleTableID snapBefore oldTableID in
                        if isIneligibleBefore then Return true None
                        else
                          Return false
                            (Some (ErrEligibleBecameIneligible (Query job)))
                    end
              end
        end
    end.

(** *** [handleJob] (ddl_puller.go 375-494) *)

(** The [switch job.Type] of lines 427-472 with the test of line 474: the
    filter's verdict on a job whose schema name is filled. *)
Definition filterByType (p : ddlJobPullerImpl) (snap : Snapshot) (job : Job)
    : Outcome * Job :=
  match JobType job with
  | ActionRenameTables =>
      match handleRenameTables p job with
      | (Return _ (Some err), job') => (Return true (Some err), job')
      | r => r
      end
  | ActionRenameTable =>
      match TableInfo_ (BinlogInfo job) with
      | None => (Panic, job)
      | Some ti =>
          match PhysicalTableByID snap (TableID job) with
          | None =>
              let discard :=
                ShouldDiscardDDL (filter p) (JobType job) (SchemaName job)
                                 (tiName ti) in
              if negb discard then
                (Return true
                   (Some (ErrSyncRenameTableFailed (TableID job) (Query job))),
                 job)
              else (Return true None, job)
          | Some oldTable =>
              let skipByOldTableName :=
                ShouldDiscardDDL (filter p) (JobType job) (wtSchema oldTable)
                                 (wtTable oldTable) in
              let skipByNewTableName :=
                ShouldDiscardDDL (filter p) (JobType job) (SchemaName job)
                                 (tiName ti) in
              if skipByOldTableName && negb skipByNewTableName then
                (Return true
                   (Some (ErrSyncRenameTableFailed (TableID job) (Query job))),
                 job)
              else if skipByOldTableName && skipByNewTableName then
                (Return true None, job)
              else (Return false None, job)
          end
      end
  | _ =>
      let job' :=
        match TableInfo_ (BinlogInfo job) with
        | Some ti => setTableName job (tiName ti)
        | None => job
        end in
      (Return (ShouldDiscardDDL (filter p) (JobType job') (SchemaName job')
                                (TableName job')) None,
       job')
  end.

(** Lines 478-493: the job is applied to the schema storage, the resolved
    timestamp moves to the job's [FinishedTS], and the eligibility of the
    table is checked against the snapshot taken before. *)
Definition applyJob (p : ddlJobPullerImpl) (s : St) (snap : Snapshot)
    (job : Job) : Outcome * Job * ddlJobPullerImpl :=
  let '(s', err) := HandleDDLJob s job in
  let p1 := setSchemaStorage p (Some s') in
  match err with
  | Some e =>
      match TableInfo_ (BinlogInfo job) with
      | None => (Panic, job, p1)
      | Some _ => (Return true (Some e), job, p1)
      end
  | None =>
      let p2 := setResolvedTs p1 (FinishedTS (BinlogInfo job)) in
      (checkIneligibleTableDDL p2 snap job, job, p2)
  end.

Definition handleJob (p : ddlJobPullerImpl) (job : Job)
    : Outcome * Job * ddlJobPullerImpl :=
  match schemaStorage p with
  | None => (Return false None, job, p)
  | Some s =>
      if (FinishedTS (BinlogInfo job) <=? getResolvedTs p)
         || (SchemaVersion (BinlogInfo job) =? 0) then
        (Return true None, job, p)
      else
        let snap := GetLastSnapshot s in
        let '(job1, fillErr) := FillSchemaName snap job in
        match fillErr with
        | Some err =>
            if ShouldDiscardDDL (filter p) (JobType job1) (SchemaName job1)
                                (TableName job1) then
              (Return true None, job1, p)
            else (Return true (Some err), job1, p)
        | None =>
            match filterByType p snap job1 with
            | (Panic, job2) => (Panic, job2, p)
            | (Return _ (Some err), job2) => (Return true (Some err), job2, p)
            | (Return true None, job2) => (Return true None, job2, p)
            | (Return false None, job2) => applyJob p s snap job2
            end
        end
  end.

(** *** [handleRawKVEntry] (ddl_puller.go 110-157) and the loop of [run] *)

(** [ctxDone] tells which branch the final [select] takes. *)
Definition handleRawKVEntry (ctxDone : bool) (p : ddlJobPullerImpl)
    (ddlRawKV : option RawKVEntry) : Result * ddlJobPullerImpl :=
  match ddlRawKV with
  | None => (Ok, p)
  | Some raw =>
      let p1 :=
        if bool_decide (rawOpType raw = OpTypeResolved) then
          let p' :=
            match schemaStorage p with
            | Some s => setSchemaStorage p (Some (AdvanceResolvedTs s (CRTs raw)))
            | None => p
            end in
          if getResolvedTs p' <? CRTs raw then setResolvedTs p' (CRTs raw)
          else p'
        else p in
      let emit (job : option Job) (q : ddlJobPullerImpl) :=
        if ctxDone then (Fail ErrContextDone, q)
        else (Ok, send q (mkEntry job (rawOpType raw) (CRTs raw) None)) in
      match unmarshalDDL p1 raw with
      | (inl err, p2) => (Fail err, p2)
      | (inr None, p2) => emit None p2
      | (inr (Some job), p2) =>
          match handleJob p2 job with
          | (Panic, _, p3) => (Panicked, p3)
          | (Return _ (Some err), _, p3) => (Fail err, p3)
          | (Return true None, _, p3) => (Ok, p3)
          | (Return false None, job', p3) => emit (Some job') p3
          end
      end
  end.

(** The loop of [run] and of [runMultiplexing] over the entries received,
    each with the branch its [select] takes; it stops at the first error. *)
Fixpoint runEntries (p : ddlJobPullerImpl)
    (entries : list (bool * option RawKVEntry)) : Result * ddlJobPullerImpl :=
  match entries with
  | [] => (Ok, p)
  | (ctxDone, e) :: rest =>
      match handleRawKVEntry ctxDone p e with
      | (Ok, p') => runEntries p' rest
      | r => r
      end
  end.

End JobPuller.

(** *** The owner's DDL puller, [ddlPullerImpl] *)

(** [tsHistory] has no counterpart in the Go struct: it records every value
    stored in [resolvedTS], newest first, for the proofs. *)
Record ddlPullerImpl := mkDDLPuller {
  resolvedTS : Z;
  pendingDDLJobs : list Job;
  lastDDLJobID : Z;
  lastResolvedTsAdvancedTime : Z;
  tsHistory : list Z
}.

(** [NewDDLPuller] (ddl_puller.go 715-721). *)
Definition NewDDLPuller (startTs : Z) : ddlPullerImpl :=
  mkDDLPuller startTs [] 0 0 [].

(** [handleDDLJobEntry] (ddl_puller.go 724-761); [now] is [h.clock.Now()]. *)
Definition handleDDLJobEntry (now : Z) (h : ddlPullerImpl)
    (jobEntry : DDLJobEntry) : option Error * ddlPullerImpl :=
  if bool_decide (entryOpType jobEntry = OpTypeResolved) then
    if resolvedTS h <? entryCRTs jobEntry then
      (None, mkDDLPuller (entryCRTs jobEntry) (pendingDDLJobs h)
                         (lastDDLJobID h) now
                         (entryCRTs jobEntry :: tsHistory h))
    else (None, h)
  else
    match entryErr jobEntry with
    | Some err => (Some err, h)
    | None =>
        match entryJob jobEntry with
        | None => (None, h)
        | Some job =>
            if ID job =? lastDDLJobID h then (None, h)
            else
              (None, mkDDLPuller (resolvedTS h) (pendingDDLJobs h ++ [job])
                                 (ID job) (lastResolvedTsAdvancedTime h)
                                 (tsHistory h))
        end
    end.

(** The consumer loop of [Run] (ddl_puller.go 788-791) over the entries
    received, each with the clock reading at its arrival. *)
Fixpoint handleEntries (h : ddlPullerImpl) (entries : list (Z * DDLJobEntry))
    : option Error * ddlPullerImpl :=
  match entries with
  | [] => (None, h)
  | (now, e) :: rest =>
      match handleDDLJobEntry now h e with
      | (None, h') => handleEntries h' rest
      | r => r
      end
  end.

(** [PopFrontDDL] (ddl_puller.go 811-820). *)
Definition PopFrontDDL (h : ddlPullerImpl)
    : (Z * option Job) * ddlPullerImpl :=
  match pendingDDLJobs h with
  | [] => ((resolvedTS h, None), h)
  | job :: rest =>
      ((FinishedTS (BinlogInfo job), Some job),
       mkDDLPuller (resolvedTS h) rest (lastDDLJobID h)
                   (lastResolvedTsAdvancedTime h) (tsHistory h))
  end.

(** [ResolvedTs] (ddl_puller.go 833-841). *)
Definition ResolvedTs (h : ddlPullerImpl) : Z :=
  match pendingDDLJobs h with
  | [] => resolvedTS h
  | job :: _ => FinishedTS (BinlogInfo job)
  end.

End DDLPuller.

(** ** Source manager (cdc/processor/sourcemanager/manager.go) *)

Module SourceManager.

(** [model.RawKVEntry]. *)
Record RawKVEntry := mkRawKV {
  rawOpType : OpType;
  Key : string;
  Value : option string;
  OldValue : option string;
  StartTs : Z;
  CRTs : Z
}.

(** [PullerSplitUpdateMode], an [int32], and its three constants
    (manager.go 61-68). *)
Definition PullerSplitUpdateMode := Z.
Definition PullerSplitUpdateModeNone : PullerSplitUpdateMode := 0.
Definition PullerSplitUpdateModeAtStart : PullerSplitUpdateMode := 1.
Definition PullerSplitUpdateModeAlways : PullerSplitUpdateMode := 2.

(** [tablepb.Span]. *)
Record Span := mkSpan { spanTableID : Z; spanStartKey : string; spanEndKey : string }.

(** [model.ShouldSplitKVEntry]: [None] is [log.Panic]. *)
Definition ShouldSplitKVEntry := option RawKVEntry -> option bool.

(** What a subscription (a table puller, or a [Subscribe] of the
    multiplexing puller) is created with. *)
Record Subscription := mkSubscription {
  subSpan : Span;
  subStartTs : Z;
  subTableName : string;
  subShouldSplitKVEntry : ShouldSplitKVEntry
}.

(** The fields of [SourceManager] that [AddTable] reads or writes:
    [engineTables] are the tables registered with the sort engine,
    [subscriptions] the pullers started, oldest first. *)
Record SourceManager := mkManager {
  bdrMode : bool;
  multiplexing : bool;
  splitUpdateMode : PullerSplitUpdateMode;
  engineTables : list (Span * Z);
  subscriptions : list Subscription
}.

Section Manager.

(** [RawKVEntry.IsUpdate], a method of package model. *)
Variable IsUpdate : RawKVEntry -> bool.

(** [isOldUpdateKVEntry] (manager.go 119-121). *)
Definition isOldUpdateKVEntry (raw : option RawKVEntry)
    (getReplicaTs : unit -> Z) : bool :=
  match raw with
  | None => false
  | Some r => IsUpdate r && (CRTs r <? getReplicaTs tt)
  end.

(** The closure [shouldSplitKVEntry] of [AddTable] (manager.go 155-171). *)
Definition shouldSplitKVEntry (m : SourceManager) (getReplicaTs : unit -> Z)
    : ShouldSplitKVEntry :=
  fun raw =>
    match raw with
    | None => Some false
    | Some r =>
        if negb (IsUpdate r) then Some false
        else if splitUpdateMode m =? PullerSplitUpdateModeNone then Some false
        else if splitUpdateMode m =? PullerSplitUpdateModeAlways then Some true
        else if splitUpdateMode m =? PullerSplitUpdateModeAtStart then
          Some (isOldUpdateKVEntry raw getReplicaTs)
        else None
    end.

(** [AddTable] (manager.go 151-181): the table is registered with the
    engine, then subscribed with the closure.  This is the call on a manager
    that is ready: with multiplexing, [Run] has created the multiplexing
    puller (line 248), which is nil before and makes [Subscribe] panic. *)
Definition AddTable (m : SourceManager) (span : Span) (tableName : string)
    (startTs : Z) (getReplicaTs : unit -> Z) : SourceManager :=
  mkManager (bdrMode m) (multiplexing m) (splitUpdateMode m)
            (engineTables m ++ [(span, startTs)])
            (subscriptions m ++
               [mkSubscription span startTs tableName
                               (shouldSplitKVEntry m getReplicaTs)]).

End Manager.

End SourceManager.

(** ** MySQL sink backend (package mysql of the transaction sink) *)

Module MySQLBackend.

(** Go's [int] and [int64] arithmetic: results wrap to 64 bits, two's
    complement. *)
Definition wrap64 (z : Z) : Z := (z + 2 ^ 63) mod 2 ^ 64 - 2 ^ 63.

Definition len {A} (l : list A) : Z := Z.of_nat (length l).

Definition strlen (s : string) : Z := Z.of_nat (String.length s).

(** *** Data model *)

(** A column value, an [interface{}]. *)
Inductive Value :=
| VNil
| VBytes (b : string)
| VString (s : string)
| VInt (z : Z).

(** [model.Column]. *)
Record Column := mkColumn {
  colName : string;
  colCharset : string;
  colIsHandleKey : bool;
  colValue : Value
}.

(** [model.TableName]. *)
Record TableName := mkTableName { tnSchema : string; tnTable : string }.

(** [model.RowChangedEvent]; a nil column pointer is [None]. *)
Record RowChangedEvent := mkRow {
  StartTs : Z;
  CommitTs : Z;
  ReplicatingTs : Z;
  Table : TableName;
  PreColumns : list (option Column);
  Columns : list (option Column);
  IndexColumns : list (list Z);
  ApproximateDataSize : Z
}.

(** A completion callback is known by its identity; calling it is recorded in
    the backend's [invoked] trace. *)
Definition CallbackFunc := nat.

(** [eventsink.TxnCallbackableEvent]: the rows of [Event], the wait-flush
    hint that [Event.ToWaitFlush()] returns, and the callback (nil: [None]). *)
Record TxnCallbackableEvent := mkEvent {
  Rows : list RowChangedEvent;
  ToWaitFlush : bool;
  Callback : option CallbackFunc
}.

(** [pmysql.Config]: the options the backend reads. *)
Record Config := mkConfig {
  WorkerCount : Z;
  MaxTxnRow : Z;
  MaxMultiUpdateRowCount : Z;
  MaxMultiUpdateRowSize : Z;
  BatchReplaceEnabled : bool;
  BatchReplaceSize : Z;
  BatchDMLEnable : bool;
  MultiStmtEnable : bool;
  SafeMode : bool;
  EnableOldValue : bool;
  ForceReplicate : bool;
  IsTiDB : bool;
  IsWriteSourceExisted : bool;
  SourceID : Z
}.

(** [sqlmodel.RowChangeType] and [sqlmodel.DMLType]. *)
Inductive RowChangeType := RowChangeInsert | RowChangeUpdate | RowChangeDelete.
Inductive DMLType := DMLInsert | DMLReplace | DMLUpdate | DMLDelete.

(** What [model.BuildTiDBTableInfo] is called with. *)
Record BuiltTableInfo := mkBuilt {
  builtColumns : list (option Column);
  builtIndexColumns : list (list Z)
}.

(** [sqlmodel.RowChange] as [sqlmodel.NewRowChange] builds it. *)
Record RowChange := mkRowChange {
  rcTable : TableName;
  rcPreValues : option (list Value);
  rcPostValues : option (list Value);
  rcTableInfo : BuiltTableInfo;
  rcApproximateDataSize : Z
}.

(** The SQL generators are outside this package ([prepareUpdate],
    [prepareDelete], [prepareReplace] of the sink's DML helpers, and package
    sqlmodel).  A [Call] is one call to a generator with its arguments. *)
Inductive Call :=
| prepareUpdate (quoteTable : string) (preCols cols : list (option Column))
                (forceReplicate : bool)
| prepareDelete (quoteTable : string) (cols : list (option Column))
                (forceReplicate : bool)
| prepareReplace (quoteTable : string) (cols : list (option Column))
                 (appendPlaceHolder translateToInsert : bool)
| GenDeleteSQL (rows : list RowChange)
| GenUpdateSQLFast (rows : list RowChange)
| GenSQL (row : RowChange) (tp : DMLType)
| GenInsertSQL (tp : DMLType) (rows : list RowChange).

(** [preparedDMLs]. *)
Record preparedDMLs := mkDMLs {
  startTs : list Z;
  sqls : list string;
  values : list (list Value);
  callbacks : list CallbackFunc;
  rowCount : Z;
  approximateSize : Z
}.

(** *** Errors *)

(** What [errors.Cause] returns: a [*dmysql.MySQLError] with its number, a
    context error, a driver error, or something else. *)
Inductive Cause :=
| CauseMySQL (number : Z)
| CauseCanceled
| CauseDeadlineExceeded
| CauseBadConn
| CauseOther (msg : string).

(** The wrappers the backend applies; none changes the cause. *)
Inductive Wrapper :=
| WrapMySQLTxnError
| WrapMySQLDuplicateEntry
| WrapReachMaxTry
| WithMessage (msg : string)
| Trace.

Record Err := mkErr { errCause : Cause; errWrappers : list Wrapper }.

Definition wrapWith (w : Wrapper) (e : Err) : Err :=
  mkErr (errCause e) (w :: errWrappers e).

(** [getSQLErrCode] (lines 1366-1373). *)
Definition getSQLErrCode (err : Err) : option Z :=
  match errCause err with
  | CauseMySQL number => Some number
  | _ => None
  end.

(** *** The backend *)

(** One transaction attempt as the database answers it: the error, if any,
    of BEGIN, of the statements sent in one multi-statement round trip, of
    the i-th statement sent alone, of SET SESSION tidb_cdc_write_source, and
    of COMMIT. *)
Record TxnAnswer := mkAnswer {
  beginErr : option Err;
  multiStmtErr : option Err;
  stmtErr : nat -> option Err;
  writeSourceErr : option Err;
  commitErr : option Err
}.

(** [mysqlBackend].  [attempts] and [invoked] have no counterpart in the Go
    struct: the number of transactions begun so far on [db], and the
    callbacks called so far, oldest first. *)
Record mysqlBackend := mkBackend {
  cfg : Config;
  dmlMaxRetry : Z;
  events : list TxnCallbackableEvent;
  rows : Z;
  maxAllowedPacket : Z;
  attempts : nat;
  invoked : list CallbackFunc
}.

(** [OnTxnEvent] (lines 721-725). *)
Definition OnTxnEvent (s : mysqlBackend) (event : TxnCallbackableEvent)
    : bool * mysqlBackend :=
  let rows' := wrap64 (rows s + len (Rows event)) in
  (ToWaitFlush event || (MaxTxnRow (cfg s) <=? rows'),
   mkBackend (cfg s) (dmlMaxRetry s) (events s ++ [event]) rows'
             (maxAllowedPacket s) (attempts s) (invoked s)).

(** Modelled from the spec: the derived kind of a row change, which the
    methods [IsInsert], [IsDelete], [IsUpdate] of [model.RowChangedEvent]
    compute: INSERT has post columns only, DELETE pre columns only, UPDATE
    both. *)
Definition IsInsert (row : RowChangedEvent) : bool :=
  bool_decide (PreColumns row = []) && negb (bool_decide (Columns row = [])).
Definition IsDelete (row : RowChangedEvent) : bool :=
  negb (bool_decide (PreColumns row = [])) && bool_decide (Columns row = []).
Definition IsUpdate (row : RowChangedEvent) : bool :=
  negb (bool_decide (PreColumns row = []))
  && negb (bool_decide (Columns row = [])).

Section Backend.

(** What a generator returns for a call: the query and its arguments. *)
Variable generate : Call -> string * list Value.

(** [reduceReplace] of the sink's DML helpers: the cached rows by query, and
    the batch size, to the multi-row statements. *)
Variable reduceReplace :
  gmap string (list (list Value)) -> Z -> list string * list (list Value).

(** [TableName.QuoteString]. *)
Variable QuoteString : TableName -> string.

(** [cerror.IsRetryableError]. *)
Variable IsRetryableError : Err -> bool.

(** The error numbers [mysql.ErrDupEntry], [mysql.ErrNoSuchTable],
    [mysql.ErrBadDB] and [mysql.ErrUnknownSystemVariable]. *)
Variables ErrDupEntry ErrNoSuchTable ErrBadDB ErrUnknownSystemVariable : Z.

(** The downstream database: its answer to the n-th transaction begun. *)
Variable db : nat -> TxnAnswer.

(** [convert2RowChanges] (lines 799-853). *)
Definition columnValues (cols : list (option Column)) : list Value :=
  map (fun col => match col with
                  | None => VString "omitted value"
                  | Some c => colValue c
                  end) cols.

Definition convert2RowChanges (row : RowChangedEvent)
    (tableInfo : BuiltTableInfo) (changeType : RowChangeType) : RowChange :=
  let preValues := columnValues (PreColumns row) in
  let postValues := columnValues (Columns row) in
  match changeType with
  | RowChangeInsert =>
      mkRowChange (Table row) None (Some postValues) tableInfo
                  (ApproximateDataSize row)
  | RowChangeUpdate =>
      mkRowChange (Table row) (Some preValues) (Some postValues) tableInfo
                  (ApproximateDataSize row)
  | RowChangeDelete =>
      mkRowChange (Table row) (Some preValues) None tableInfo
                  (ApproximateDataSize row)
  end.

(** [convertBinaryToString] (lines 855-867). *)
Definition convertBinaryToString (cols : list (option Column))
    : list (option Column) :=
  map (fun col =>
         match col with
         | None => None
         | Some c =>
             if negb (String.eqb (colCharset c) "")
                && negb (String.eqb (colCharset c) "binary") then
               match colValue c with
               | VBytes b =>
                   Some (mkColumn (colName c) (colCharset c)
                                  (colIsHandleKey c) (VString b))
               | _ => Some c
               end
             else Some c
         end) cols.

(** The slices of [groupRowsByType]: the full batches, then the batch being
    filled. *)
Record Groups := mkGroups {
  insertRows : list (list RowChange);
  insertRow : list RowChange;
  updateRows : list (list RowChange);
  updateRow : list RowChange;
  deleteRows : list (list RowChange);
  deleteRow : list RowChange
}.

(** One iteration of the loop of [groupRowsByType] (lines 882-915); the
    columns are converted in place first. *)
Definition groupRow (c : Config) (tableInfo : BuiltTableInfo) (g : Groups)
    (row0 : RowChangedEvent) : Groups :=
  let row :=
    mkRow (StartTs row0) (CommitTs row0) (ReplicatingTs row0) (Table row0)
          (convertBinaryToString (PreColumns row0))
          (convertBinaryToString (Columns row0))
          (IndexColumns row0) (ApproximateDataSize row0) in
  let g1 :=
    if IsInsert row then
      let insertRow' :=
        insertRow g ++ [convert2RowChanges row tableInfo RowChangeInsert] in
      if MaxTxnRow c <=? len insertRow' then
        mkGroups (insertRows g ++ [insertRow']) [] (updateRows g) (updateRow g)
                 (deleteRows g) (deleteRow g)
      else
        mkGroups (insertRows g) insertRow' (updateRows g) (updateRow g)
                 (deleteRows g) (deleteRow g)
    else g in
  let g2 :=
    if IsDelete row then
      let deleteRow' :=
        deleteRow g1 ++ [convert2RowChanges row tableInfo RowChangeDelete] in
      if MaxTxnRow c <=? len deleteRow' then
        mkGroups (insertRows g1) (insertRow g1) (updateRows g1) (updateRow g1)
                 (deleteRows g1 ++ [deleteRow']) []
      else
        mkGroups (insertRows g1) (insertRow g1) (updateRows g1) (updateRow g1)
                 (deleteRows g1) deleteRow'
    else g1 in
  if IsUpdate row then
    let updateRow' :=
      updateRow g2 ++ [convert2RowChanges row tableInfo RowChangeUpdate] in
    if MaxMultiUpdateRowCount c <=? len updateRow' then
      mkGroups (insertRows g2) (insertRow g2) (updateRows g2 ++ [updateRow']) []
               (deleteRows g2) (deleteRow g2)
    else
      mkGroups (insertRows g2) (insertRow g2) (updateRows g2) updateRow'
               (deleteRows g2) (deleteRow g2)
  else g2.

(** [groupRowsByType] (lines 869-928), past the allocation of the three
    slices (lines 873-880), which panics when [MaxTxnRow] is negative. *)
Definition groupRowsByType (c : Config) (event : TxnCallbackableEvent)
    (tableInfo : BuiltTableInfo)
    : list (list RowChange) * list (list RowChange) * list (list RowChange) :=
  let g := fold_left (groupRow c tableInfo) (Rows event)
                     (mkGroups [] [] [] [] [] []) in
  let close (full : list (list RowChange)) (cur : list RowChange) :=
    if 0 <? len cur then full ++ [cur] else full in
  (close (insertRows g) (insertRow g),
   close (updateRows g) (updateRow g),
   close (deleteRows g) (deleteRow g)).

(** [genUpdateSQL] (lines 986-1006). *)
Definition genUpdateSQL (c : Config) (rows_ : list RowChange) : list Call :=
  let size :=
    fold_left (fun acc r => wrap64 (acc + rcApproximateDataSize r)) rows_ 0 in
  let count := len rows_ in
  if size <? wrap64 (MaxMultiUpdateRowSize c * count) then
    [GenUpdateSQLFast rows_]
  else map (fun row => GenSQL row DMLUpdate) rows_.

(** [batchSingleTxnDmls] (lines 930-984): the generator calls, in the order
    their results are appended to [sqls] and [values]. *)
Definition batchSingleTxnDmls (c : Config) (event : TxnCallbackableEvent)
    (tableInfo : BuiltTableInfo) (translateToInsert : bool) : list Call :=
  let '(insertRows, updateRows, deleteRows) :=
    groupRowsByType c event tableInfo in
  map GenDeleteSQL deleteRows
  ++ (if IsTiDB c then concat (map (genUpdateSQL c) updateRows)
      else concat (map (map (fun row => GenSQL row DMLUpdate)) updateRows))
  ++ map (fun rows_ =>
            if translateToInsert then GenInsertSQL DMLInsert rows_
            else GenInsertSQL DMLReplace rows_) insertRows.

(** [hasHandleKey] (lines 1008-1018). *)
Fixpoint hasHandleKey (cols : list (option Column)) : bool :=
  match cols with
  | [] => false
  | None :: rest => hasHandleKey rest
  | Some col :: rest => if colIsHandleKey col then true else hasHandleKey rest
  end.

(** The variables of [prepareDMLs] that live across the iterations of its
    loop.  [calls] has no counterpart in the Go code: it records the calls to
    the SQL generators, oldest first, for the proofs. *)
Record PrepState := mkPrep {
  psStartTs : list Z;
  psSqls : list string;
  psValues : list (list Value);
  psCallbacks : list CallbackFunc;
  replaces : gmap string (list (list Value));
  translateToInsert : bool;
  psRowCount : Z;
  psApproximateSize : Z;
  calls : list Call
}.

(** [sqls = append(sqls, ...)], [values = append(values, ...)]. *)
Definition appendDMLs (st : PrepState) (qs : list string)
    (vs : list (list Value)) : PrepState :=
  mkPrep (psStartTs st) (psSqls st ++ qs) (psValues st ++ vs) (psCallbacks st)
         (replaces st) (translateToInsert st) (psRowCount st)
         (psApproximateSize st) (calls st).

Definition setReplaces (st : PrepState)
    (r : gmap string (list (list Value))) : PrepState :=
  mkPrep (psStartTs st) (psSqls st) (psValues st) (psCallbacks st) r
         (translateToInsert st) (psRowCount st) (psApproximateSize st)
         (calls st).

Definition addApproximateSize (st : PrepState) (n : Z) : PrepState :=
  mkPrep (psStartTs st) (psSqls st) (psValues st) (psCallbacks st)
         (replaces st) (translateToInsert st) (psRowCount st)
         (wrap64 (psApproximateSize st + n)) (calls st).

Definition recordCalls (st : PrepState) (cs : list Call) : PrepState :=
  mkPrep (psStartTs st) (psSqls st) (psValues st) (psCallbacks st)
         (replaces st) (translateToInsert st) (psRowCount st)
         (psApproximateSize st) (calls st ++ cs).

(** The closure [flushCacheDMLs] (lines 1031-1038). *)
Definition flushCacheDMLs (c : Config) (st : PrepState) : PrepState :=
  if BatchReplaceEnabled c && negb (bool_decide (replaces st = ∅)) then
    let '(replaceSqls, replaceValues) :=
      reduceReplace (replaces st) (BatchReplaceSize c) in
    setReplaces (appendDMLs st replaceSqls replaceValues) ∅
  else st.

(** A generator is called, and its result appended when the query is not
    empty (lines 1105-1109, 1117-1121, 1138-1142); the query is returned. *)
Definition callAndAppend (st : PrepState) (call : Call) : string * PrepState :=
  let '(query, args) := generate call in
  let st1 := recordCalls st [call] in
  (query, if negb (String.eqb query "") then appendDMLs st1 [query] [args]
          else st1).

(** One iteration of the loop over the rows of an event (lines 1098-1147). *)
Definition prepareRow (c : Config) (quoteTable : string) (flag : bool)
    (st : PrepState) (row : RowChangedEvent) : PrepState :=
  if negb (bool_decide (PreColumns row = []))
     && negb (bool_decide (Columns row = [])) then
    let st1 := flushCacheDMLs c st in
    let '(query, st2) :=
      callAndAppend st1 (prepareUpdate quoteTable (PreColumns row)
                                       (Columns row) (ForceReplicate c)) in
    addApproximateSize st2 (wrap64 (strlen query + ApproximateDataSize row))
  else
    let '(query1, st1) :=
      if negb (bool_decide (PreColumns row = [])) then
        callAndAppend (flushCacheDMLs c st)
                      (prepareDelete quoteTable (PreColumns row)
                                     (ForceReplicate c))
      else (""%string, st) in
    let '(query2, st2) :=
      if negb (bool_decide (Columns row = [])) then
        if BatchReplaceEnabled c then
          let call := prepareReplace quoteTable (Columns row) false flag in
          let '(query, args) := generate call in
          let st' := recordCalls st1 [call] in
          (query,
           if negb (String.eqb query "") then
             setReplaces st'
               (<[query := default [] (replaces st' !! query) ++ [args]]>
                  (replaces st'))
           else st')
        else
          callAndAppend st1 (prepareReplace quoteTable (Columns row) true flag)
      else (query1, st1) in
    addApproximateSize st2 (wrap64 (strlen query2 + ApproximateDataSize row)).

(** The body of the loop over the events, after the flag is updated (lines
    1069-1147): the statements of one event, generated with [flag]. *)
Definition prepareEventDMLs (c : Config) (flag : bool)
    (event : TxnCallbackableEvent) (firstRow : RowChangedEvent)
    (st : PrepState) : PrepState :=
  let st1 :=
    match Callback event with
    | Some cb =>
        mkPrep (psStartTs st) (psSqls st) (psValues st) (psCallbacks st ++ [cb])
               (replaces st) (translateToInsert st) (psRowCount st)
               (psApproximateSize st) (calls st)
    | None => st
    end in
  let enableBatchModeThreshold := 1 in
  let tableColumns :=
    if IsDelete firstRow then PreColumns firstRow else Columns firstRow in
  if BatchDMLEnable c && (enableBatchModeThreshold <? len (Rows event))
     && hasHandleKey tableColumns then
    let tableInfo := mkBuilt tableColumns (IndexColumns firstRow) in
    let st2 := flushCacheDMLs c st1 in
    let batch := batchSingleTxnDmls c event tableInfo flag in
    let st3 :=
      appendDMLs (recordCalls st2 batch) (map (fun k => fst (generate k)) batch)
                 (map (fun k => snd (generate k)) batch) in
    fold_left (fun acc row => addApproximateSize acc (ApproximateDataSize row))
              (Rows event) (addApproximateSize st3 (len batch))
  else
    let quoteTable := QuoteString (Table firstRow) in
    fold_left (prepareRow c quoteTable flag) (Rows event) st1.

(** One iteration of the loop over the events (lines 1046-1148). *)
Definition prepareEvent (c : Config) (st : PrepState)
    (event : TxnCallbackableEvent) : PrepState :=
  match Rows event with
  | [] => st
  | firstRow :: _ =>
      let rowCount' := wrap64 (psRowCount st + len (Rows event)) in
      let startTs' :=
        if bool_decide (last (psStartTs st) = Some (StartTs firstRow))
        then psStartTs st else psStartTs st ++ [StartTs firstRow] in
      let flag :=
        translateToInsert st && (ReplicatingTs firstRow <? CommitTs firstRow) in
      prepareEventDMLs c flag event firstRow
        (mkPrep startTs' (psSqls st) (psValues st) (psCallbacks st)
                (replaces st) flag rowCount' (psApproximateSize st) (calls st))
  end.

(** The state before the loop of [prepareDMLs] (lines 1023-1045). *)
Definition prepareInit (c : Config) : PrepState :=
  mkPrep [] [] [] [] ∅ (EnableOldValue c && negb (SafeMode c)) 0 0 [].

(** The loop of [prepareDMLs] over a prefix of the buffer. *)
Definition prepareLoop (c : Config) (evs : list TxnCallbackableEvent)
    : PrepState :=
  fold_left (prepareEvent c) evs (prepareInit c).

(** [prepareDMLs] (lines 1021-1163). *)
Definition prepareDMLs (s : mysqlBackend) : preparedDMLs :=
  let st := flushCacheDMLs (cfg s) (prepareLoop (cfg s) (events s)) in
  mkDMLs (psStartTs st) (psSqls st) (psValues st) (psCallbacks st)
         (psRowCount st) (psApproximateSize st).

(** *** Execution with retry *)

(** [wrapMysqlTxnError] (lines 1314-1324). *)
Definition wrapMysqlTxnError (err : Err) : Err :=
  match getSQLErrCode err with
  | None => wrapWith WrapMySQLTxnError err
  | Some errCode =>
      if errCode =? ErrDupEntry then wrapWith WrapMySQLDuplicateEntry err
      else wrapWith WrapMySQLTxnError err
  end.

(** [isRetryableDMLError] (lines 1348-1364). *)
Definition isRetryableDMLError (err : Err) : bool :=
  if negb (IsRetryableError err) then false
  else
    match getSQLErrCode err with
    | None => true
    | Some errCode =>
        if (errCode =? ErrNoSuchTable) || (errCode =? ErrBadDB)
           || (errCode =? ErrDupEntry)
        then false else true
    end.

(** [logDMLTxnErr] (lines 1326-1346): the query is cut at 1024 bytes and the
    error gets the message [fmt.Sprintf("Failed query info: %s; ", query)]. *)
Definition logDMLTxnErr (err : Err) (query : string) : Err :=
  let query' :=
    if 1024 <? strlen query then String.substring 0 1024 query else query in
  wrapWith (WithMessage
              (String.append "Failed query info: " (String.append query' "; ")))
           err.

(** [strings.Join(sqls, ";")]. *)
Fixpoint joinSQL (qs : list string) : string :=
  match qs with
  | [] => ""
  | [q] => q
  | q :: rest => String.append q (String.append ";" (joinSQL rest))
  end.

(** [multiStmtExecute] (lines 1166-1193). *)
Definition multiStmtExecute (dmls : preparedDMLs) (answer : TxnAnswer)
    : option Err :=
  match multiStmtErr answer with
  | Some execError =>
      Some (logDMLTxnErr (wrapMysqlTxnError execError) (joinSQL (sqls dmls)))
  | None => None
  end.

(** [sequenceExecute] (lines 1196-1221), from the i-th statement. *)
Fixpoint sequenceExecute (answer : TxnAnswer) (i : nat) (qs : list string)
    : option Err :=
  match qs with
  | [] => None
  | query :: rest =>
      match stmtErr answer i with
      | Some execError =>
          Some (logDMLTxnErr (wrapMysqlTxnError execError) query)
      | None => sequenceExecute answer (S i) rest
      end
  end.

(** [setWriteSource] (lines 1381-1399). *)
Definition setWriteSource (c : Config) (answer : TxnAnswer) : option Err :=
  if negb (IsWriteSourceExisted c) then None
  else
    match writeSourceErr answer with
    | None => None
    | Some err =>
        match errCause err with
        | CauseMySQL number =>
            if number =? ErrUnknownSystemVariable then None else Some err
        | _ => Some err
        end
    end.

(** The closure that [execDMLWithMaxRetries] hands to [retry.Do] (lines
    1233-1307), run as the n-th transaction on [db] with the current value
    of the captured [fallbackToSeqWay]; it returns the new value with the
    error. *)
Definition execOnce (s : mysqlBackend) (dmls : preparedDMLs) (n : nat)
    (fallbackToSeqWay : bool) : option Err * bool :=
  let answer := db n in
  let traced (e : Err) := Some (wrapWith Trace e) in
  match beginErr answer with
  | Some err =>
      (traced (logDMLTxnErr (wrapMysqlTxnError err) "BEGIN"), fallbackToSeqWay)
  | None =>
      let '(execError, fallback') :=
        if MultiStmtEnable (cfg s) && negb fallbackToSeqWay then
          match multiStmtExecute dmls answer with
          | Some err => (Some err, true)
          | None => (None, fallbackToSeqWay)
          end
        else (sequenceExecute answer 0 (sqls dmls), fallbackToSeqWay) in
      match execError with
      | Some err => (traced err, fallback')
      | None =>
          match setWriteSource (cfg s) answer with
          | Some err =>
              (traced (logDMLTxnErr (wrapMysqlTxnError err)
                                    "SET SESSION tidb_cdc_write_source"),
               fallback')
          | None =>
              match commitErr answer with
              | Some err =>
                  (traced (logDMLTxnErr (wrapMysqlTxnError err) "COMMIT"),
                   fallback')
              | None => (None, fallback')
              end
          end
      end
  end.

(** Modelled from the spec: [retry.Do] of package retry with the options
    [WithMaxTries] and [WithIsRetryableErr], which is not among the sources.
    The spec bounds the retries by [dml_max_retry] and has non-retryable
    errors surfaced immediately.  The operation runs; success ends the loop;
    an error that [isRetryable] rejects is returned as it is; any other
    error is retried while tries remain ([more] counts them), and wrapped as
    the last one otherwise.  The result comes with the number of
    transactions begun. *)
Fixpoint retryDo (op : nat -> bool -> option Err * bool)
    (isRetryable : Err -> bool) (more : nat) (n : nat) (fallback : bool)
    : option Err * nat :=
  match op n fallback with
  | (None, _) => (None, S n)
  | (Some err, fallback') =>
      if negb (isRetryable err) then (Some err, S n)
      else
        match more with
        | O => (Some (wrapWith WrapReachMaxTry err), S n)
        | S k => retryDo op isRetryable k (S n) fallback'
        end
  end.

(** [execDMLWithMaxRetries] (lines 1223-1312); [None] is the [log.Panic] of
    line 1225. *)
Definition execDMLWithMaxRetries (s : mysqlBackend) (dmls : preparedDMLs)
    : option (option Err * nat) :=
  if negb (bool_decide (length (sqls dmls) = length (values dmls))) then None
  else
    let fallbackToSeqWay :=
      maxAllowedPacket s <? wrap64 (approximateSize dmls * 2) in
    Some (retryDo (execOnce s dmls) isRetryableDMLError
                  (Z.to_nat (dmlMaxRetry s) - 1) (attempts s) fallbackToSeqWay).

Inductive FlushResult :=
| FlushOk
| FlushErr (e : Err)
| FlushPanic.

(** [Flush] (lines 728-772). *)
Definition Flush (s : mysqlBackend) : FlushResult * mysqlBackend :=
  if rows s =? 0 then (FlushOk, s)
  else
    let dmls := prepareDMLs s in
    match execDMLWithMaxRetries s dmls with
    | None => (FlushPanic, s)
    | Some (Some err, n) =>
        (FlushErr (wrapWith Trace err),
         mkBackend (cfg s) (dmlMaxRetry s) (events s) (rows s)
                   (maxAllowedPacket s) n (invoked s))
    | Some (None, n) =>
        (FlushOk,
         mkBackend (cfg s) (dmlMaxRetry s) [] 0 (maxAllowedPacket s) n
                   (invoked s ++ callbacks dmls))
    end.

End Backend.

End MySQLBackend.

(** ** Vocabulary of the properties *)

Module DDLPullerSpec.
Import DDLPuller.

(** A list of timestamps, newest first, in which every value is greater than
    the one stored before it. *)
Fixpoint strictlyDecreasing (l : list Z) : Prop :=
  match l with
  | a :: (b :: _) as rest => b < a /\ strictlyDecreasing rest
  | _ => True
  end.

(** The stores made between two states of the resolved timestamp: [stores']
    extends [stores] by values that each exceed the value held before, the
    first of them exceeding [ts]; the newest is the value held at the end. *)
Definition advances (ts : Z) (stores : list Z) (ts' : Z) (stores' : list Z)
    : Prop :=
  exists new, stores' = new ++ stores
              /\ strictlyDecreasing (new ++ [ts])
              /\ ts' = hd ts new.

(** One child of a RenameTables job: its table info with its entry in each
    of the five arrays. *)
Record Child := mkChild {
  c_info : TableInfo;
  c_oldSchemaID : Z;
  c_newSchemaID : Z;
  c_newTableName : string;
  c_oldTableID : Z;
  c_oldSchemaName : string
}.

Fixpoint children (infos : list TableInfo) (a b : list Z) (c : list string)
    (d : list Z) (e : list string) : list Child :=
  match infos, a, b, c, d, e with
  | i :: infos, x :: a, y :: b, z :: c, u :: d, v :: e =>
      mkChild i x y z u v :: children infos a b c d e
  | _, _, _, _, _, _ => []
  end.

Definition childrenOf (job : Job) (args : RenameTablesArgs) : list Child :=
  children (MultipleTableInfos (BinlogInfo job)) (oldSchemaIDs args)
           (newSchemaIDs args) (newTableNames args) (oldTableIDs args)
           (oldSchemaNames args).

Section Rules.

Context {F : Type} `{!Filter F}.
Variables (flt : F) (snap : Snapshot) (tp : ActionType).

(** The old identity of a child is discarded: the table is not in the
    snapshot, or the filter discards its old schema and name. *)
Definition oldDiscarded (c : Child) : bool :=
  match PhysicalTableByID snap (tiID (c_info c)) with
  | None => true
  | Some oldTable => ShouldDiscardDDL flt tp (c_oldSchemaName c) (wtName oldTable)
  end.

(** The new identity of a child is discarded: the new schema is not in the
    snapshot, or the filter discards the new schema and name. *)
Definition newDiscarded (c : Child) : bool :=
  match SchemaByID snap (c_newSchemaID c) with
  | None => true
  | Some db => ShouldDiscardDDL flt tp (dbName db) (c_newTableName c)
  end.

(** The three verdicts of the rename rules. *)
Definition skipped (c : Child) : bool := oldDiscarded c && newDiscarded c.
Definition rejected (c : Child) : bool := oldDiscarded c && negb (newDiscarded c).
Definition kept (c : Child) : bool := negb (oldDiscarded c).

(** The slices the loop has built once the children [cs] are retained after
    [r]. *)
Definition retain (r : Remain) (cs : list Child) : Remain :=
  mkRemain (remainTables r ++ map c_info cs)
           (remainOldSchemaIDs r ++ map c_oldSchemaID cs)
           (remainNewSchemaIDs r ++ map c_newSchemaID cs)
           (remainOldTableIDs r ++ map c_oldTableID cs)
           (remainNewTableNames r ++ map c_newTableName cs)
           (remainOldSchemaNames r ++ map c_oldSchemaName cs).

(** The loop of [handleRenameTables] read over the children. *)
Fixpoint loopOver (query : string) (cs : list Child) (acc : Remain)
    : LoopResult :=
  match cs with
  | [] => LoopDone acc
  | c :: rest =>
      if skipped c then loopOver query rest acc
      else if rejected c then
        LoopFail (ErrSyncRenameTableFailed (tiID (c_info c)) query)
      else loopOver query rest (retain acc [c])
  end.

(** The old identity of a single RenameTable job. *)
Definition oldDiscardedJob (job : Job) : bool :=
  match PhysicalTableByID snap (TableID job) with
  | None => true
  | Some oldTable =>
      ShouldDiscardDDL flt (JobType job) (wtSchema oldTable) (wtTable oldTable)
  end.

(** The new identity of a single RenameTable job. *)
Definition newDiscardedJob (job : Job) (ti : TableInfo) : bool :=
  ShouldDiscardDDL flt (JobType job) (SchemaName job) (tiName ti).

End Rules.

(** The job is stale for a puller whose resolved timestamp is [ts], or was
    ignored upstream (ddl_puller.go 403-404). *)
Definition staleOrIgnored (ts : Z) (job : Job) : Prop :=
  FinishedTS (BinlogInfo job) <= ts \/ SchemaVersion (BinlogInfo job) = 0.

(** An entry carrying a job with the given id and no error. *)
Definition carriesJob (id : Z) (e : DDLJobEntry) : Prop :=
  entryOpType e <> OpTypeResolved /\ entryErr e = None
  /\ exists job, entryJob e = Some job /\ ID job = id.

(** *** Example collaborators *)

(** A schema storage that holds its current snapshot and answers
    [HandleDDLJob] from a script. *)
Record ScriptedStorage := mkScripted {
  current : Snapshot;
  script : Job -> Snapshot * option Error
}.

#[global] Instance ScriptedStorage_storage : SchemaStorage ScriptedStorage := {
  GetLastSnapshot := current;
  HandleDDLJob s job :=
    (mkScripted (fst (script s job)) (script s), snd (script s job));
  AdvanceResolvedTs s _ := s
}.

(** A filter that discards the listed schemas. *)
#[global] Instance list_filter : Filter (list string) := {
  ShouldDiscardDDL f _ schema _ := bool_decide (schema ∈ f)
}.

(** [filter.IsSchemaDDL] on the action types of schemas. *)
Definition schemaActions (tp : ActionType) : bool :=
  match tp with
  | ActionCreateSchema | ActionDropSchema
  | ActionModifySchemaCharsetAndCollate => true
  | _ => false
  end.

(** A snapshot with the tables 1 and 3 of schema [test], the table 2 of
    schema [ignore], the schemas [test] (id 10) and [ignore] (id 20), and the
    listed tables without a unique not-null key. *)
Definition snapshotWith (ineligible : list Z) : Snapshot :=
  mkSnapshot
    (fun id => if id =? 1 then Some (mkWrapped "test" "t1" "t1")
               else if id =? 2 then Some (mkWrapped "ignore" "t2" "t2")
               else if id =? 3 then Some (mkWrapped "test" "t3" "t3")
               else None)
    (fun id => if id =? 10 then Some (mkDBInfo 10 "test")
               else if id =? 20 then Some (mkDBInfo 20 "ignore")
               else None)
    (fun id => bool_decide (id ∈ ineligible))
    (fun job => (SchemaName job, TableName job, None)).

Definition exampleSnapshot : Snapshot := snapshotWith [3].

(** A storage at the example snapshot in which every DDL job leaves the
    listed tables without a unique not-null key. *)
Definition storageLeaving (ineligible : list Z) : ScriptedStorage :=
  mkScripted exampleSnapshot (fun _ => (snapshotWith ineligible, None)).

Definition exampleStorage : ScriptedStorage :=
  mkScripted exampleSnapshot (fun _ => (exampleSnapshot, None)).

(** A job puller over a storage, with the resolved timestamp [ts], whose
    filter discards the schema [ignore]. *)
Definition pullerOver (st : ScriptedStorage) (ts : Z)
    : @ddlJobPullerImpl ScriptedStorage (list string) :=
  mkPuller (Some st) ts ["ignore"] None 0 [] [].

Definition examplePuller (ts : Z)
    : @ddlJobPullerImpl ScriptedStorage (list string) :=
  pullerOver exampleStorage ts.

(** A job of the schema with id 10, finished at [finished]. *)
Definition exampleJob (id : Z) (tp : ActionType) (tableID : Z)
    (schema table : string) (finished : Z) (ti : option TableInfo) : Job :=
  mkJob id tp 10 tableID schema table "ddl" (mkHistory 1 finished ti [])
        (RawOther "").

(** A RenameTables job over the tables 1, 2, 3 (or the first of them), with
    the schema each is renamed from and the id of the schema it is renamed
    into. *)
Definition renameTablesJob (infos : list TableInfo)
    (oldSchemas : list string) (newSchemas : list Z) : Job :=
  mkJob 9 ActionRenameTables 10 0 "" "" "ddl"
        (mkHistory 1 20 (last infos) infos)
        (RawRenameTables
           (mkRenameArgs (take (length infos) [10; 10; 10]) newSchemas
                         (take (length infos) ["n1"; "n2"; "n3"]%string)
                         (map tiID infos) oldSchemas)).

Definition threeTables : list TableInfo :=
  [mkTableInfo 1 "n1"; mkTableInfo 2 "n2"; mkTableInfo 3 "n3"].

Definition jobEntryOf (job : Job) : DDLJobEntry :=
  mkEntry (Some job) OpTypePut (FinishedTS (BinlogInfo job)) None.

Definition resolvedEntry (ts : Z) : DDLJobEntry :=
  mkEntry None OpTypeResolved ts None.

End DDLPullerSpec.

Module SourceManagerSpec.
Import SourceManager.

(** [RawKVEntry.IsUpdate] as the data model reads it: a PUT that carries
    both a value and an old value. *)
Definition putWithOldValue (raw : RawKVEntry) : bool :=
  bool_decide (rawOpType raw = OpTypePut)
  && bool_decide (Value raw <> None) && bool_decide (OldValue raw <> None).

(** A manager in the given split mode, with nothing registered. *)
Definition managerIn (mode : PullerSplitUpdateMode) : SourceManager :=
  mkManager false false mode [] [].

(** An update committed at [commitTs]. *)
Definition updateAt (commitTs : Z) : RawKVEntry :=
  mkRawKV OpTypePut "k" (Some "v") (Some "old") (commitTs - 1) commitTs.

End SourceManagerSpec.

Module MySQLBackendSpec.
Import MySQLBackend.

(** The first row of the event was committed after its table began to be
    replicated; an event without rows is passed over by [prepareDMLs] and
    does not count. *)
Definition committedAfterReplicating (event : TxnCallbackableEvent) : bool :=
  match Rows event with
  | [] => true
  | firstRow :: _ => ReplicatingTs firstRow <? CommitTs firstRow
  end.

(** The decision the specification computes for one event, from the event
    alone. *)
Definition translateAlone (c : Config) (event : TxnCallbackableEvent) : bool :=
  EnableOldValue c && negb (SafeMode c) && committedAfterReplicating event.

(** A call to a generator that, when it generates the statement of an insert
    row, generates INSERT if [flag] is true and REPLACE if not. *)
Definition insertsAs (flag : bool) (call : Call) : Prop :=
  match call with
  | prepareReplace _ _ _ translate => translate = flag
  | GenInsertSQL tp _ => tp = if flag then DMLInsert else DMLReplace
  | _ => True
  end.

(** The generator calls [prepareDMLs] makes for one row outside the batch
    way (lines 1098-1147). *)
Definition rowCalls (c : Config) (quoteTable : string) (flag : bool)
    (row : RowChangedEvent) : list Call :=
  if negb (bool_decide (PreColumns row = []))
     && negb (bool_decide (Columns row = [])) then
    [prepareUpdate quoteTable (PreColumns row) (Columns row) (ForceReplicate c)]
  else
    (if negb (bool_decide (PreColumns row = [])) then
       [prepareDelete quoteTable (PreColumns row) (ForceReplicate c)]
     else [])
    ++ (if negb (bool_decide (Columns row = [])) then
          [prepareReplace quoteTable (Columns row)
                          (negb (BatchReplaceEnabled c)) flag]
        else []).

(** The generator calls [prepareDMLs] makes for one event with the first row
    [firstRow], when its decision for the event is [flag]. *)
Definition eventCalls (QuoteString : TableName -> string) (c : Config)
    (flag : bool) (event : TxnCallbackableEvent) (firstRow : RowChangedEvent)
    : list Call :=
  let tableColumns :=
    if IsDelete firstRow then PreColumns firstRow else Columns firstRow in
  if BatchDMLEnable c && (1 <? len (Rows event)) && hasHandleKey tableColumns
  then
    batchSingleTxnDmls c event (mkBuilt tableColumns (IndexColumns firstRow))
                       flag
  else concat (map (rowCalls c (QuoteString (Table firstRow)) flag)
                   (Rows event)).

(** From [st] to [st'] the flag and the callbacks are unchanged, and the
    generators are called with [new], in this order. *)
Definition steps (st st' : PrepState) (new : list Call) : Prop :=
  translateToInsert st' = translateToInsert st
  /\ psCallbacks st' = psCallbacks st
  /\ calls st' = calls st ++ new.

(** The callbacks [prepareDMLs] collects from the buffer: those of the
    events that have rows, in the order the events were accepted. *)
Fixpoint acceptedCallbacks (evs : list TxnCallbackableEvent)
    : list CallbackFunc :=
  match evs with
  | [] => []
  | event :: rest =>
      match Rows event, Callback event with
      | _ :: _, Some cb => cb :: acceptedCallbacks rest
      | _, _ => acceptedCallbacks rest
      end
  end.

Section Retry.

(** A retried operation: the n-th transaction, run with the current value of
    the fallback flag. *)
Variable op : nat -> bool -> option Err * bool.

(** The fallback flag with which the j-th try of a sequence starting at
    transaction [start] runs, and the error of that try. *)
Fixpoint fallbackAt (start : nat) (fallback : bool) (j : nat) : bool :=
  match j with
  | O => fallback
  | S j' => fallbackAt (S start) (op start fallback).2 j'
  end.

Definition errAt (start : nat) (fallback : bool) (j : nat) : option Err :=
  (op (start + j) (fallbackAt start fallback j)).1.

End Retry.

(** *** Example collaborators *)

(** Generators that return a fixed text by kind of statement. *)
Definition exampleGenerate (call : Call) : string * list Value :=
  match call with
  | prepareUpdate _ _ _ _ | GenUpdateSQLFast _ | GenSQL _ _ => ("UPDATE", [])
  | prepareDelete _ _ _ | GenDeleteSQL _ => ("DELETE", [])
  | prepareReplace _ _ _ true | GenInsertSQL DMLInsert _ => ("INSERT", [])
  | _ => ("REPLACE", [])
  end.

Definition exampleReduceReplace (r : gmap string (list (list Value)))
    (size : Z) : list string * list (list Value) :=
  ([], []).

Definition exampleQuoteString (t : TableName) : string :=
  String.append (tnSchema t) (String.append "." (tnTable t)).

(** Every error but a cancelled or expired context is retryable. *)
Definition exampleIsRetryableError (e : Err) : bool :=
  match errCause e with
  | CauseCanceled | CauseDeadlineExceeded => false
  | _ => true
  end.

(** MySQL's numbers for duplicate entry, no such table, unknown database,
    unknown system variable. *)
Definition exampleErrDupEntry : Z := 1062.
Definition exampleErrNoSuchTable : Z := 1146.
Definition exampleErrBadDB : Z := 1049.
Definition exampleErrUnknownSystemVariable : Z := 1193.

Definition exampleConfig : Config :=
  mkConfig 16 256 40 1024 false 20 false false false true false true false 1.

(** An insert row of table [test.t], committed at [commitTs], of a table
    replicated since 10. *)
Definition insertRowAt (commitTs : Z) : RowChangedEvent :=
  mkRow (commitTs - 1) commitTs 10 (mkTableName "test" "t") []
        [Some (mkColumn "id" "" true (VInt commitTs))] [] 8.

Definition insertEventAt (commitTs : Z) (cb : CallbackFunc)
    : TxnCallbackableEvent :=
  mkEvent [insertRowAt commitTs] false (Some cb).

(** A database that refuses the first connection and then reports a
    duplicate entry for the first statement. *)
Definition failingDB (n : nat) : TxnAnswer :=
  match n with
  | O => mkAnswer (Some (mkErr CauseBadConn [])) None (fun _ => None) None None
  | _ => mkAnswer None None
                  (fun i => match i with
                            | O => Some (mkErr (CauseMySQL 1062) [])
                            | _ => None
                            end)
                  None None
  end.

Definition exampleBackend (evs : list TxnCallbackableEvent) : mysqlBackend :=
  mkBackend exampleConfig 8 evs (len evs) 4194304 0 [].

End MySQLBackendSpec.

(** ** Further parts of the DDL puller *)

Module DDLPullerMeta.
Import DDLPuller.

(** [timodel.ColumnInfo], [timodel.TableInfo] and [timodel.DBInfo] as
    [initJobTableMeta] reads them: the ids, the lower-case names [Name.L],
    the original table name [Name.O] and the columns of a table. *)
Record ColumnInfo := mkColumnInfo { ciID : Z; ciNameL : string }.

Record MetaTableInfo := mkMetaTable {
  mtNameO : string;
  mtNameL : string;
  mtColumns : list ColumnInfo
}.

Record MetaDBInfo := mkMetaDB { mdID : Z; mdNameL : string }.

(** The loop shared by the three finders (ddl_puller.go 558-589): the first
    element whose lower-case name is [name], or the schema-not-found error
    with its message, [what] being the word of the message. *)
Fixpoint findByName {A : Type} (nameL : A -> string) (what : string)
    (xs : list A) (name : string) : Error + A :=
  match xs with
  | [] =>
      inl (ErrExternal
             (String.append "can't find "
                (String.append what (String.append " " name))))
  | x :: rest =>
      if String.eqb (nameL x) name then inr x
      else findByName nameL what rest name
  end.

(** [findDBByName] (ddl_puller.go 558-567). *)
Definition findDBByName (dbs : list MetaDBInfo) (name : string)
    : Error + MetaDBInfo :=
  findByName mdNameL "schema" dbs name.

(** [findTableByName] (ddl_puller.go 569-578). *)
Definition findTableByName (tbls : list MetaTableInfo) (name : string)
    : Error + MetaTableInfo :=
  findByName mtNameL "table" tbls name.

(** [findColumnByName] (ddl_puller.go 580-589). *)
Definition findColumnByName (cols : list ColumnInfo) (name : string)
    : Error + ColumnInfo :=
  findByName ciNameL "column" cols name.

(** The meta snapshot of the KV store at a version ([kv.GetSnapshotMeta]). *)
Record SnapshotMeta := mkSnapshotMeta {
  ListDatabases : Error + list MetaDBInfo;
  ListTables : Z -> Error + list MetaTableInfo
}.

(** [tidbkv.Storage]: the current version and the meta snapshot at a
    version. *)
Record KVStorage := mkKVStorage {
  CurrentVersion : Error + Z;
  GetSnapshotMeta : Z -> SnapshotMeta
}.

(** [model.WrapTableInfo(db.ID, db.Name.L, 0, tableInfo)]. *)
Definition WrapTableInfo (schemaName : string) (info : MetaTableInfo)
    : WrappedTableInfo :=
  mkWrapped schemaName (mtNameO info) (mtNameO info).

(** What [initJobTableMeta] (ddl_puller.go 211-245) reads from the KV store:
    the wrapped table [tidb_ddl_job] of the system database and the id of
    its column [job_meta].  [errors.Trace] and [cerror.WrapError] keep the
    error they wrap.  [SystemDB] is [mysql.SystemDB]. *)
Definition readJobTableMeta (SystemDB : string) (kvStorage : KVStorage)
    : Error + (WrappedTableInfo * Z) :=
  match CurrentVersion kvStorage with
  | inl err => inl err
  | inr version =>
      let snap := GetSnapshotMeta kvStorage version in
      match ListDatabases snap with
      | inl err => inl err
      | inr dbInfos =>
          match findDBByName dbInfos SystemDB with
          | inl err => inl err
          | inr db =>
              match ListTables snap (mdID db) with
              | inl err => inl err
              | inr tbls =>
                  match findTableByName tbls "tidb_ddl_job" with
                  | inl err => inl err
                  | inr tableInfo =>
                      match findColumnByName (mtColumns tableInfo)
                                             "job_meta" with
                      | inl err => inl err
                      | inr col =>
                          inr (WrapTableInfo (mdNameL db) tableInfo, ciID col)
                      end
                  end
              end
          end
      end
  end.

(** The puller after the resolved-marker part of [handleRawKVEntry]
    (ddl_puller.go 115-123). *)
Definition afterResolved {St F : Type} `{!SchemaStorage St}
    (p : @ddlJobPullerImpl St F) (raw : RawKVEntry) : @ddlJobPullerImpl St F :=
  if bool_decide (rawOpType raw = OpTypeResolved) then
    let p' :=
      match schemaStorage p with
      | Some s => setSchemaStorage p (Some (AdvanceResolvedTs s (CRTs raw)))
      | None => p
      end in
    if getResolvedTs p' <? CRTs raw then setResolvedTs p' (CRTs raw) else p'
  else p.

(** The jobs carried by the entries of an output channel, oldest first. *)
Definition emittedJobs (ch : list DDLJobEntry) : list Job := omap entryJob ch.

(** The state of a job puller that started at the resolved timestamp [ts0]
    with an empty channel: it has a schema storage, its resolved timestamp
    is at least [ts0], and the jobs it sent have increasing [FinishedTS],
    each above [ts0] and at most the resolved timestamp. *)
Definition emittedInOrder {St F : Type} (ts0 : Z)
    (p : @ddlJobPullerImpl St F) : Prop :=
  is_Some (schemaStorage p)
  /\ ts0 <= resolvedTs p
  /\ StronglySorted Z.lt
       (map (fun j => FinishedTS (BinlogInfo j)) (emittedJobs (outputCh p)))
  /\ Forall (fun j => ts0 < FinishedTS (BinlogInfo j) <= resolvedTs p)
            (emittedJobs (outputCh p)).

(** [n] calls of [PopFrontDDL], with what each returned. *)
Fixpoint popFrontN (n : nat) (h : ddlPullerImpl)
    : list (Z * option Job) * ddlPullerImpl :=
  match n with
  | O => ([], h)
  | S n' =>
      let '(r, h1) := PopFrontDDL h in
      let '(rs, h2) := popFrontN n' h1 in
      (r :: rs, h2)
  end.

(** A parser that reads, from a PUT at commit timestamp [ts], the job [ts]
    of table 1 finished at [ts]. *)
Definition exampleParse (_ : option WrappedTableInfo) (raw : RawKVEntry)
    (_ : Z) : Error + option Job :=
  inr (Some (mkJob (CRTs raw) (ActionOther 5) 10 1 "test" "t1" "ddl"
                   (mkHistory 1 (CRTs raw) (Some (mkTableInfo 1 "t1")) [])
                   (RawOther ""))).

(** A job finished at 20, a resolved marker at 25, a job finished at 30. *)
Definition exampleRun : list (bool * option RawKVEntry) :=
  [(false, Some (mkRawKV OpTypePut 20 ""));
   (false, Some (mkRawKV OpTypeResolved 25 ""));
   (false, Some (mkRawKV OpTypePut 30 ""))].

(** A KV store whose system database [mysql] (id 1) holds the table
    [tidb_ddl_job] with the columns [job_id] (1) and [job_meta] (2). *)
Definition exampleKVStorage : KVStorage :=
  mkKVStorage (inr 7)
    (fun _ =>
       mkSnapshotMeta
         (inr [mkMetaDB 3 "test"; mkMetaDB 1 "mysql"])
         (fun id =>
            if id =? 1 then
              inr [mkMetaTable "tidb_ddl_job" "tidb_ddl_job"
                     [mkColumnInfo 1 "job_id"; mkColumnInfo 2 "job_meta"]]
            else inr [])).

End DDLPullerMeta.

(** ** Further parts of the source manager *)

Module SourceManagerNew.
Import SourceManager.

(** [newSourceManager] (manager.go 123-148): a manager over the sort engine
    it is given, in the given modes, with no puller started. *)
Definition newSourceManager (engine : list (Span * Z))
    (splitUpdateMode : PullerSplitUpdateMode) (bdrMode multiplexing : bool)
    : SourceManager :=
  mkManager bdrMode multiplexing splitUpdateMode engine [].

(** [New] (manager.go 96-106); [EnableMultiplexing] is what the global
    server configuration says. *)
Definition New (EnableMultiplexing : bool) (engine : list (Span * Z))
    (splitUpdateMode : PullerSplitUpdateMode) (bdrMode : bool)
    : SourceManager :=
  newSourceManager engine splitUpdateMode bdrMode EnableMultiplexing.

(** [NewForTest] (manager.go 109-117). *)
Definition NewForTest (engine : list (Span * Z)) (bdrMode : bool)
    : SourceManager :=
  newSourceManager engine PullerSplitUpdateModeNone bdrMode false.

(** The arguments of one call of [AddTable]. *)
Record TableArgs := mkTableArgs {
  taSpan : Span;
  taTableName : string;
  taStartTs : Z;
  taGetReplicaTs : unit -> Z
}.

(** A sequence of calls of [AddTable]. *)
Definition addTables (IsUpdate : RawKVEntry -> bool) (m : SourceManager)
    (tables : list TableArgs) : SourceManager :=
  fold_left (fun m t => AddTable IsUpdate m (taSpan t) (taTableName t)
                                 (taStartTs t) (taGetReplicaTs t))
            tables m.

(** The subscription that [AddTable] makes for [t] on a manager whose split
    mode is that of [m0]. *)
Definition subscribedAs (IsUpdate : RawKVEntry -> bool) (m0 : SourceManager) (sub : Subscription)
    (t : TableArgs) : Prop :=
  subSpan sub = taSpan t /\ subStartTs sub = taStartTs t
  /\ subTableName sub = taTableName t
  /\ forall raw,
       subShouldSplitKVEntry sub raw
       = shouldSplitKVEntry IsUpdate m0 (taGetReplicaTs t) raw.

End SourceManagerNew.

(** ** Further vocabulary of the MySQL backend *)

Module MySQLBackendMore.
Import MySQLBackend.

(** The row after [groupRowsByType] has converted its columns in place
    (lines 883-884). *)
Definition convertRow (row0 : RowChangedEvent) : RowChangedEvent :=
  mkRow (StartTs row0) (CommitTs row0) (ReplicatingTs row0) (Table row0)
        (convertBinaryToString (PreColumns row0))
        (convertBinaryToString (Columns row0))
        (IndexColumns row0) (ApproximateDataSize row0).

(** The batching that [groupRowsByType] does for each kind of row (lines
    886-915): the row joins the batch being filled, which is closed when it
    has reached [cap] rows. *)
Definition pushBatch {A : Type} (cap : Z) (st : list (list A) * list A)
    (x : A) : list (list A) * list A :=
  let cur := st.2 ++ [x] in
  if cap <=? len cur then (st.1 ++ [cur], []) else (st.1, cur).

(** Lines 917-925: the batch being filled is kept when it has rows. *)
Definition closeBatches {A : Type} (st : list (list A) * list A)
    : list (list A) :=
  if 0 <? len st.2 then st.1 ++ [st.2] else st.1.

(** [preAllocateSize] of [groupRowsByType] (lines 873-876). *)
Definition preAllocateSize (c : Config) (event : TxnCallbackableEvent) : Z :=
  if MaxTxnRow c <? len (Rows event) then MaxTxnRow c else len (Rows event).

(** [groupRowsByType] (lines 869-928) from its first line: the three calls
    of [make] with the capacity [preAllocateSize] (lines 878-880) panic when
    it is negative ([None]); then the rows are grouped. *)
Definition groupRowsByTypeAllocating (c : Config)
    (event : TxnCallbackableEvent) (tableInfo : BuiltTableInfo)
    : option (list (list RowChange) * list (list RowChange)
              * list (list RowChange)) :=
  if preAllocateSize c event <? 0 then None
  else Some (groupRowsByType c event tableInfo).

(** The rows of a kind of an event, converted, as row changes. *)
Definition rowChangesOf (kind : RowChangedEvent -> bool)
    (changeType : RowChangeType) (tableInfo : BuiltTableInfo)
    (event : TxnCallbackableEvent) : list RowChange :=
  map (fun row => convert2RowChanges row tableInfo changeType)
      (List.filter kind (map convertRow (Rows event))).

(** The number of rows of the buffered events. *)
Definition totalRows (evs : list TxnCallbackableEvent) : Z :=
  foldr (fun e acc => len (Rows e) + acc) 0 evs.

(** The running total [rows] is the number of rows of the buffered events,
    as a 64-bit integer. *)
Definition rowsConsistent (s : mysqlBackend) : Prop :=
  rows s = wrap64 (totalRows (events s)).

(** [sqls] and [values] have the same length. *)
Definition lockstep (st : PrepState) : Prop :=
  length (psSqls st) = length (psValues st).

(** [reduceReplace] returns as many argument lists as statements. *)
Definition reducesInLockstep
    (reduceReplace :
       gmap string (list (list Value)) -> Z -> list string * list (list Value))
    : Prop :=
  forall r n, length (reduceReplace r n).1 = length (reduceReplace r n).2.

(** From [st] to [st'] the row count is unchanged, and [sqls] and [values]
    stay of the same length if [reduceReplace] is as above. *)
Definition quiet
    (reduceReplace :
       gmap string (list (list Value)) -> Z -> list string * list (list Value))
    (st st' : PrepState) : Prop :=
  psRowCount st' = psRowCount st
  /\ (reducesInLockstep reduceReplace -> lockstep st -> lockstep st').

(** The backend with the multi-statement option set to [b]. *)
Definition withMultiStmt (b : bool) (s : mysqlBackend) : mysqlBackend :=
  let c := cfg s in
  mkBackend
    (mkConfig (WorkerCount c) (MaxTxnRow c) (MaxMultiUpdateRowCount c)
              (MaxMultiUpdateRowSize c) (BatchReplaceEnabled c)
              (BatchReplaceSize c) (BatchDMLEnable c) b (SafeMode c)
              (EnableOldValue c) (ForceReplicate c) (IsTiDB c)
              (IsWriteSourceExisted c) (SourceID c))
    (dmlMaxRetry s) (events s) (rows s) (maxAllowedPacket s) (attempts s)
    (invoked s).

(** The sum of the approximate sizes of row changes. *)
Definition totalSize (rows_ : list RowChange) : Z :=
  foldr (fun r acc => rcApproximateDataSize r + acc) 0 rows_.

(** A configuration with [MaxTxnRow] 2 and batch DML on, and an event of
    three insert rows. *)
Definition batchConfig : Config :=
  mkConfig 16 2 40 1024 false 20 true false false true false true false 1.

Definition threeInserts : TxnCallbackableEvent :=
  mkEvent [MySQLBackendSpec.insertRowAt 20; MySQLBackendSpec.insertRowAt 21;
           MySQLBackendSpec.insertRowAt 22] false None.

(** A prepared batch of one INSERT of 8 bytes. *)
Definition exampleDMLs : preparedDMLs :=
  mkDMLs [19] ["INSERT"%string] [[]] [1%nat] 1 8.

End MySQLBackendMore.

(** ** Canal-JSON decoder (package canal, src/unnamed/part_001) *)

Module Canal.
Import Stdlib.Strings.Ascii.

(** The result of a Go expression that may panic at run time. *)
Inductive Evaluated (A : Type) :=
| Done (a : A)
| Panics.

Arguments Done {A} a.
Arguments Panics {A}.

(** [extractBasicMySQLType] (part_001 224-231): the type string up to its
    first opening parenthesis or space. *)
Fixpoint extractBasicMySQLType (mysqlType : string) : string :=
  match mysqlType with
  | EmptyString => EmptyString
  | String ch rest =>
      if Ascii.eqb ch "("%char || Ascii.eqb ch " "%char then EmptyString
      else String ch (extractBasicMySQLType rest)
  end.

(** The byte is one of the two at which [extractBasicMySQLType] cuts. *)
Definition isDelimiter (ch : Ascii.ascii) : bool :=
  Ascii.eqb ch "("%char || Ascii.eqb ch " "%char.

(** The string holds a delimiter. *)
Fixpoint hasDelimiter (s : string) : bool :=
  match s with
  | EmptyString => false
  | String ch rest => isDelimiter ch || hasDelimiter rest
  end.

Section Message.

(** A datum, an [interface{}]. *)
Context {V : Type}.

(** A Go map from column names to data; [None] is the nil map. *)
Definition ColumnMap := option (gmap string V).

(** [canal.EventType] as far as [canalJSONMessage2RowChange] tells the
    values apart. *)
Inductive EventType := EventInsert | EventUpdate | EventDelete | EventOther.

(** [JSONMessage]: [eventType] is what the method [eventType()] returns for
    the field [EventType]; [MySQLType] maps a column to its type, the nil
    map being the empty one for the lookups made; [Data] and [Old] are
    slices of maps, [None] the nil slice. *)
Record JSONMessage := mkJSONMessage {
  eventType : EventType;
  MySQLType : gmap string string;
  Data : option (list ColumnMap);
  Old : option (list ColumnMap)
}.

(** [getOld] (part_001 89-94); indexing an empty slice panics. *)
Definition getOld (c : JSONMessage) : Evaluated ColumnMap :=
  match Old c with
  | None => Done None
  | Some [] => Panics
  | Some (m :: _) => Done m
  end.

(** [getData] (part_001 96-101). *)
Definition getData (c : JSONMessage) : Evaluated ColumnMap :=
  match Data c with
  | None => Done None
  | Some [] => Panics
  | Some (m :: _) => Done m
  end.

(** The body of the loop of part_001 185-189 for one entry of [data]: the
    key is looked up in [oldColumns] and, when absent, assigned; assigning
    to the nil map panics. *)
Definition fillStep (key : string) (value : V) (acc : Evaluated ColumnMap)
    : Evaluated ColumnMap :=
  match acc with
  | Panics => Panics
  | Done None => Panics
  | Done (Some oldColumns) =>
      match oldColumns !! key with
      | Some _ => Done (Some oldColumns)
      | None => Done (Some (<[key := value]> oldColumns))
      end
  end.

(** The loop of part_001 185-189 over [data], in the order in which the map
    is iterated; ranging over the nil map does nothing. *)
Definition fillOldColumns (oldColumns data : ColumnMap)
    : Evaluated ColumnMap :=
  match data with
  | None => Done oldColumns
  | Some d => map_fold fillStep (Done oldColumns) d
  end.

(** One iteration of the loop of [canalJSONColumnMap2RowChangeColumns]
    (part_001 201-214), as far as its error goes: the column has a type. *)
Definition typedStep (mysqlType : gmap string string) (name : string)
    (value : V) (acc : bool) : bool :=
  acc && bool_decide (is_Some (mysqlType !! name)).

(** [canalJSONColumnMap2RowChangeColumns] (part_001 199-222) returns no
    error: every column of the map has an entry in [mysqlType].  The
    columns it builds, from absent constructors, are not modelled. *)
Definition columnsTyped (cols : ColumnMap) (mysqlType : gmap string string)
    : bool :=
  match cols with
  | None => true
  | Some m => map_fold (typedStep mysqlType) true m
  end.

(** What [canalJSONMessage2RowChange] returns: the decode error, or a row
    whose [PreColumns] and [Columns] are converted from the given maps
    ([None]: the field is left unset). *)
Inductive Decoded :=
| DecodeFailed
| Row (preColumns columns : option ColumnMap).

(** [canalJSONMessage2RowChange] (part_001 155-197).  For a DELETE the row
    is returned next to the error; it is [DecodeFailed] here as well. *)
Definition canalJSONMessage2RowChange (msg : JSONMessage)
    : Evaluated Decoded :=
  let mysqlType := MySQLType msg in
  match getData msg with
  | Panics => Panics
  | Done data =>
      match eventType msg with
      | EventDelete =>
          Done (if columnsTyped data mysqlType then Row (Some data) None
                else DecodeFailed)
      | tp =>
          if negb (columnsTyped data mysqlType) then Done DecodeFailed
          else
            match tp with
            | EventUpdate =>
                match getOld msg with
                | Panics => Panics
                | Done oldColumns =>
                    match fillOldColumns oldColumns data with
                    | Panics => Panics
                    | Done filled =>
                        Done (if columnsTyped filled mysqlType
                              then Row (Some filled) (Some data)
                              else DecodeFailed)
                    end
                end
            | _ => Done (Row None (Some data))
            end
      end
  end.

End Message.

(** A row whose column [b] changed from 1 to 2 and whose column [a] is 5:
    the maps of its UPDATE message, the types of its columns, and the
    message. *)
Definition exampleData : gmap string Z := {["a" := 5; "b" := 2]}.
Definition exampleOld : gmap string Z := {["b" := 1]}.
Definition exampleTypes : gmap string string :=
  {["a" := "int"%string; "b" := "int"%string]}.
Definition exampleUpdate : @JSONMessage Z :=
  mkJSONMessage EventUpdate exampleTypes (Some [Some exampleData])
                (Some [Some exampleOld]).

End Canal.

(** ** Properties *)

Module DDLPullerFacts.
Import DDLPuller DDLPullerSpec.

Section Facts.

Context {St F : Type} `{!SchemaStorage St} `{!Filter F}.
Variable IsSchemaDDL : ActionType -> bool.
Implicit Types (p : @ddlJobPullerImpl St F) (job : Job).

(** **** Stores of the resolved timestamp *)

Lemma advances_refl ts stores : advances ts stores ts stores.
Proof. exists []. simpl. auto. Qed.

Lemma strictlyDecreasing_app new1 new2 ts :
  strictlyDecreasing (new1 ++ [ts]) ->
  strictlyDecreasing (new2 ++ [hd ts new1]) ->
  strictlyDecreasing ((new2 ++ new1) ++ [ts]).
Proof.
  intros H1. induction new2 as [|a [|b new2] IH]; simpl; intros H2.
  - exact H1.
  - destruct new1 as [|c new1]; simpl in *; tauto.
  - destruct H2 as [Hlt H2]. split; [exact Hlt|]. apply IH. exact H2.
Qed.

Lemma advances_trans ts0 st0 ts1 st1 ts2 st2 :
  advances ts0 st0 ts1 st1 -> advances ts1 st1 ts2 st2 ->
  advances ts0 st0 ts2 st2.
Proof.
  intros (new1 & -> & Hd1 & ->) (new2 & -> & Hd2 & ->).
  exists (new2 ++ new1). split; [by rewrite app_assoc|]. split.
  - by apply strictlyDecreasing_app.
  - destruct new2; reflexivity.
Qed.

Lemma advances_store p ts :
  resolvedTs p < ts ->
  advances (resolvedTs p) (tsStores p)
           (resolvedTs (setResolvedTs p ts)) (tsStores (setResolvedTs p ts)).
Proof. intros Hlt. exists [ts]. simpl. auto. Qed.

Lemma strictlyDecreasing_above l ts :
  strictlyDecreasing (l ++ [ts]) -> Forall (fun x => ts < x) l.
Proof.
  induction l as [|a [|b l] IH]; simpl; intros Hd.
  - constructor.
  - constructor; [tauto|constructor].
  - destruct Hd as [Hlt Hd]. specialize (IH Hd).
    constructor; [|exact IH]. inversion IH; subst. lia.
Qed.

Lemma advances_le ts stores ts' stores' :
  advances ts stores ts' stores' -> ts <= ts'.
Proof.
  intros (new & _ & Hd & ->). apply strictlyDecreasing_above in Hd.
  destruct new as [|a new]; simpl; [lia|]. inversion Hd; subst. lia.
Qed.

Lemma FillSchemaName_fields snap job :
  let job' := (FillSchemaName snap job).1 in
  ID job' = ID job /\ JobType job' = JobType job /\ TableID job' = TableID job
  /\ Query job' = Query job /\ BinlogInfo job' = BinlogInfo job
  /\ RawArgs job' = RawArgs job.
Proof.
  unfold FillSchemaName. destruct (filledNames snap job) as [[sn tn] err].
  simpl. tauto.
Qed.

Lemma handleRenameTables_fields p job :
  let job' := (handleRenameTables p job).2 in
  ID job' = ID job /\ JobType job' = JobType job /\ TableID job' = TableID job
  /\ Query job' = Query job
  /\ FinishedTS (BinlogInfo job') = FinishedTS (BinlogInfo job)
  /\ SchemaVersion (BinlogInfo job') = SchemaVersion (BinlogInfo job)
  /\ TableInfo_ (BinlogInfo job') = TableInfo_ (BinlogInfo job).
Proof.
  unfold handleRenameTables.
  destruct (DecodeArgs (RawArgs job)) as [err|args]; [simpl; tauto|].
  destruct (negb _); [simpl; tauto|].
  destruct (schemaStorage p) as [s|]; [|simpl; tauto].
  destruct (renameLoop _ _ _ _ _ _ _) as [r|e|]; try (simpl; tauto).
  destruct (bool_decide _); simpl; tauto.
Qed.

Lemma filterByType_FinishedTS p snap job :
  FinishedTS (BinlogInfo (filterByType p snap job).2)
  = FinishedTS (BinlogInfo job).
Proof.
  unfold filterByType.
  destruct (JobType job);
    try (destruct (TableInfo_ (BinlogInfo job)); reflexivity).
  - destruct (TableInfo_ (BinlogInfo job)) as [ti|]; [|reflexivity].
    destruct (PhysicalTableByID snap (TableID job)) as [t|].
    + repeat (destruct (_ && _)); reflexivity.
    + destruct (negb _); reflexivity.
  - pose proof (handleRenameTables_fields p job) as Hf. simpl in Hf.
    destruct (handleRenameTables p job) as [[skip [err|]|] job'];
      simpl in *; tauto.
Qed.

Lemma applyJob_advances p s snap job :
  resolvedTs p < FinishedTS (BinlogInfo job) ->
  let p' := (applyJob IsSchemaDDL p s snap job).2 in
  advances (resolvedTs p) (tsStores p) (resolvedTs p') (tsStores p').
Proof.
  intros Hlt. unfold applyJob.
  destruct (HandleDDLJob s job) as [s' [e|]].
  - destruct (TableInfo_ (BinlogInfo job)); apply advances_refl.
  - exists [FinishedTS (BinlogInfo job)]. simpl. auto.
Qed.

Lemma handleJob_advances p job :
  let p' := (handleJob IsSchemaDDL p job).2 in
  advances (resolvedTs p) (tsStores p) (resolvedTs p') (tsStores p').
Proof.
  unfold handleJob, getResolvedTs.
  destruct (schemaStorage p) as [s|]; [|apply advances_refl].
  destruct (_ || _) eqn:Hguard; [apply advances_refl|].
  apply orb_false_iff in Hguard as [Hts _]. apply Z.leb_gt in Hts.
  pose proof (FillSchemaName_fields (GetLastSnapshot s) job) as Hfill.
  destruct (FillSchemaName (GetLastSnapshot s) job) as [job1 [err|]].
  - destruct (ShouldDiscardDDL _ _ _ _); apply advances_refl.
  - pose proof (filterByType_FinishedTS p (GetLastSnapshot s) job1) as Hfin.
    simpl in Hfill. destruct Hfill as (_ & _ & _ & _ & Hb & _).
    destruct (filterByType p (GetLastSnapshot s) job1)
      as [[[|] [err|]|] job2]; try apply advances_refl.
    apply applyJob_advances. simpl in Hfin. rewrite Hfin, Hb. exact Hts.
Qed.

Section Run.

Variable IsLegacyFormatJob : RawKVEntry -> bool.
Variable ParseDDLJob :
  option WrappedTableInfo -> RawKVEntry -> Z -> Error + option Job.
Variable kvJobTableMeta : Error + (WrappedTableInfo * Z).

Lemma unmarshalDDL_frame p raw :
  let p' := (unmarshalDDL IsLegacyFormatJob ParseDDLJob kvJobTableMeta p raw).2 in
  schemaStorage p' = schemaStorage p /\ resolvedTs p' = resolvedTs p
  /\ filter p' = filter p /\ outputCh p' = outputCh p
  /\ tsStores p' = tsStores p.
Proof.
  unfold unmarshalDDL, initJobTableMeta.
  destruct (negb _); [simpl; tauto|].
  destruct (_ && _); [|simpl; tauto].
  destruct kvJobTableMeta as [err|[t col]]; simpl; tauto.
Qed.

Lemma handleRawKVEntry_advances ctxDone p raw :
  let p' := (handleRawKVEntry IsSchemaDDL IsLegacyFormatJob ParseDDLJob
                              kvJobTableMeta ctxDone p raw).2 in
  advances (resolvedTs p) (tsStores p) (resolvedTs p') (tsStores p').
Proof.
  unfold handleRawKVEntry. destruct raw as [raw|]; [|apply advances_refl].
  set (p1 := if bool_decide (rawOpType raw = OpTypeResolved) then _ else p).
  assert (H1 : advances (resolvedTs p) (tsStores p)
                        (resolvedTs p1) (tsStores p1)).
  { subst p1. destruct (bool_decide _); [|apply advances_refl].
    unfold getResolvedTs.
    destruct (schemaStorage p) as [s|]; simpl;
      (destruct (_ <? _) eqn:Hlt; [|apply advances_refl]);
      apply Z.ltb_lt in Hlt; exists [CRTs raw]; simpl; auto. }
  clearbody p1. eapply advances_trans; [exact H1|].
  pose proof (unmarshalDDL_frame p1 raw) as Hu. simpl in Hu.
  destruct (unmarshalDDL _ _ _ p1 raw) as [[err|[job|]] p2]; simpl in Hu;
    destruct Hu as (_ & Hts & _ & _ & Hst); rewrite <- Hts, <- Hst.
  - apply advances_refl.
  - pose proof (handleJob_advances p2 job) as Hj. simpl in Hj.
    destruct (handleJob IsSchemaDDL p2 job) as [[[[|] [err|]|] job'] p3];
      simpl in *; try exact Hj.
    destruct ctxDone; exact Hj.
  - destruct ctxDone; apply advances_refl.
Qed.

Lemma runEntries_advances p entries :
  let p' := (runEntries IsSchemaDDL IsLegacyFormatJob ParseDDLJob
                        kvJobTableMeta p entries).2 in
  advances (resolvedTs p) (tsStores p) (resolvedTs p') (tsStores p').
Proof.
  revert p. induction entries as [|[ctxDone e] rest IH]; intros p; simpl.
  - apply advances_refl.
  - pose proof (handleRawKVEntry_advances ctxDone p e) as Hstep.
    simpl in Hstep.
    destruct (handleRawKVEntry _ _ _ _ ctxDone p e) as [[|err|] p1];
      simpl in *; try exact Hstep.
    eapply advances_trans; [exact Hstep|apply IH].
Qed.

Lemma handleDDLJobEntry_advances now h e :
  let h' := (handleDDLJobEntry now h e).2 in
  advances (resolvedTS h) (tsHistory h) (resolvedTS h') (tsHistory h').
Proof.
  unfold handleDDLJobEntry. destruct (bool_decide _).
  - destruct (_ <? _) eqn:Hlt; [|apply advances_refl].
    apply Z.ltb_lt in Hlt. exists [entryCRTs e]. simpl. auto.
  - destruct (entryErr e); [apply advances_refl|].
    destruct (entryJob e) as [job|]; [|apply advances_refl].
    destruct (_ =? _); apply advances_refl.
Qed.

Lemma handleEntries_advances h entries :
  let h' := (handleEntries h entries).2 in
  advances (resolvedTS h) (tsHistory h) (resolvedTS h') (tsHistory h').
Proof.
  revert h. induction entries as [|[now e] rest IH]; intros h; simpl.
  - apply advances_refl.
  - pose proof (handleDDLJobEntry_advances now h e) as Hstep. simpl in Hstep.
    destruct (handleDDLJobEntry now h e) as [[err|] h1]; simpl in *;
      [exact Hstep|].
    eapply advances_trans; [exact Hstep|apply IH].
Qed.

(** C5.  The resolved timestamp of the DDL puller never goes back: over any
    sequence of raw KV entries handled by [handleRawKVEntry] (which applies
    jobs through [handleJob]), and over any sequence of job entries handled
    by [handleDDLJobEntry], every value stored in the resolved timestamp is
    greater than the value it replaces, so the timestamp at the end is at
    least the timestamp at the start. *)
Theorem resolved_ts_stores_increase :
  (forall p (entries : list (bool * option RawKVEntry)),
     let p' := (runEntries IsSchemaDDL IsLegacyFormatJob ParseDDLJob
                           kvJobTableMeta p entries).2 in
     advances (resolvedTs p) (tsStores p) (resolvedTs p') (tsStores p')
     /\ resolvedTs p <= resolvedTs p')
  /\ (forall (h : ddlPullerImpl) (entries : list (Z * DDLJobEntry)),
        let h' := (handleEntries h entries).2 in
        advances (resolvedTS h) (tsHistory h) (resolvedTS h') (tsHistory h')
        /\ resolvedTS h <= resolvedTS h').
Proof.
  split.
  - intros p entries p'. pose proof (runEntries_advances p entries) as Ha.
    split; [exact Ha|]. eapply advances_le, Ha.
  - intros h entries h'. pose proof (handleEntries_advances h entries) as Ha.
    split; [exact Ha|]. eapply advances_le, Ha.
Qed.

(** **** Stale and ignored jobs *)

(** C10.  For a puller with a schema storage, a job whose [FinishedTS] is at
    most the resolved timestamp, or whose [SchemaVersion] is 0, is skipped by
    [handleJob] without an error and with the job and the puller as they
    were: nothing is applied to the schema storage.  The raw entry that
    carries such a job is handled without an error and nothing is sent
    downstream. *)
Theorem stale_job_skipped p (s : St) job :
  schemaStorage p = Some s ->
  staleOrIgnored (resolvedTs p) job ->
  handleJob IsSchemaDDL p job = (Return true None, job, p)
  /\ forall ctxDone raw p2,
       unmarshalDDL IsLegacyFormatJob ParseDDLJob kvJobTableMeta p raw
       = (inr (Some job), p2) ->
       handleRawKVEntry IsSchemaDDL IsLegacyFormatJob ParseDDLJob
                        kvJobTableMeta ctxDone p (Some raw) = (Ok, p2)
       /\ outputCh p2 = outputCh p /\ schemaStorage p2 = schemaStorage p
       /\ resolvedTs p2 = resolvedTs p /\ tsStores p2 = tsStores p.
Proof.
  intros Hs Hstale.
  assert (Hskip : forall q, schemaStorage q = Some s ->
                            resolvedTs q = resolvedTs p ->
                            handleJob IsSchemaDDL q job = (Return true None, job, q)).
  { intros q Hq Hts. unfold handleJob, getResolvedTs. rewrite Hq, Hts.
    destruct Hstale as [Hle|Hzero].
    - apply Z.leb_le in Hle. rewrite Hle. reflexivity.
    - apply Z.eqb_eq in Hzero. rewrite Hzero, orb_true_r. reflexivity. }
  split; [by apply Hskip|].
  intros ctxDone raw p2 Hu.
  pose proof (unmarshalDDL_frame p raw) as Hframe. simpl in Hframe.
  rewrite Hu in Hframe. simpl in Hframe.
  destruct Hframe as (Hst & Hts & _ & Hout & Hlog).
  assert (Hput : rawOpType raw = OpTypePut).
  { unfold unmarshalDDL in Hu.
    destruct (bool_decide (rawOpType raw = OpTypePut)) eqn:Hb;
      [by apply bool_decide_eq_true in Hb|simpl in Hu; congruence]. }
  split; [|tauto].
  unfold handleRawKVEntry.
  rewrite bool_decide_eq_false_2 by (rewrite Hput; discriminate).
  rewrite Hu, Hskip; [reflexivity|congruence|exact Hts].
Qed.

End Run.

(** **** Duplicate job entries *)

Lemma handleDDLJobEntry_resolved_frame now h e :
  entryOpType e = OpTypeResolved ->
  exists h', handleDDLJobEntry now h e = (None, h')
             /\ pendingDDLJobs h' = pendingDDLJobs h
             /\ lastDDLJobID h' = lastDDLJobID h.
Proof.
  intros Hop. unfold handleDDLJobEntry.
  rewrite bool_decide_eq_true_2 by exact Hop.
  destruct (_ <? _); eexists; simpl; eauto.
Qed.

Lemma handleDDLJobEntry_duplicate now h e :
  carriesJob (lastDDLJobID h) e -> handleDDLJobEntry now h e = (None, h).
Proof.
  intros (Hop & Herr & job & Hjob & Hid). unfold handleDDLJobEntry.
  rewrite bool_decide_eq_false_2 by exact Hop.
  rewrite Herr, Hjob. apply Z.eqb_eq in Hid. by rewrite Hid.
Qed.

Lemma handleDDLJobEntry_fresh now h e id :
  carriesJob id e -> id <> lastDDLJobID h ->
  exists job h', entryJob e = Some job /\ ID job = id
    /\ handleDDLJobEntry now h e = (None, h')
    /\ pendingDDLJobs h' = pendingDDLJobs h ++ [job]
    /\ lastDDLJobID h' = id.
Proof.
  intros (Hop & Herr & job & Hjob & Hid) Hne. unfold handleDDLJobEntry.
  rewrite bool_decide_eq_false_2 by exact Hop.
  rewrite Herr, Hjob. subst id. apply Z.eqb_neq in Hne. rewrite Hne.
  exists job. eexists. simpl. eauto.
Qed.

Lemma handleEntries_duplicates h id entries :
  lastDDLJobID h = id ->
  Forall (fun ne : Z * DDLJobEntry =>
            carriesJob id ne.2 \/ entryOpType ne.2 = OpTypeResolved) entries ->
  exists h', handleEntries h entries = (None, h')
             /\ pendingDDLJobs h' = pendingDDLJobs h.
Proof.
  intros Hlast Hall. revert h Hlast.
  induction Hall as [|[now e] rest Hhead _ IH]; intros h Hlast; simpl.
  - eauto.
  - destruct Hhead as [Hjob|Hres]; simpl in *.
    + rewrite handleDDLJobEntry_duplicate by (by rewrite Hlast).
      by apply IH.
    + destruct (handleDDLJobEntry_resolved_frame now h e Hres)
        as (h1 & -> & Hp & Hl).
      destruct (IH h1) as (h' & -> & Hp'); [congruence|].
      exists h'. split; [reflexivity|congruence].
Qed.

(** C9.  Over consecutive entries that carry jobs with one and the same id
    (resolved markers may come in between), [handleDDLJobEntry] appends at
    most one job to the pending queue; and when that id is the id of the job
    accepted last, every one of the entries is ignored. *)
Theorem consecutive_duplicates_ignored (h : ddlPullerImpl) (id : Z)
    (entries : list (Z * DDLJobEntry)) :
  Forall (fun ne : Z * DDLJobEntry =>
            carriesJob id ne.2 \/ entryOpType ne.2 = OpTypeResolved) entries ->
  exists h', handleEntries h entries = (None, h')
    /\ (pendingDDLJobs h' = pendingDDLJobs h
        \/ exists job, ID job = id
                       /\ pendingDDLJobs h' = pendingDDLJobs h ++ [job])
    /\ (lastDDLJobID h = id -> pendingDDLJobs h' = pendingDDLJobs h).
Proof.
  intros Hall. revert h.
  induction Hall as [|[now e] rest Hhead Hrest IH]; intros h; simpl.
  - exists h. auto.
  - destruct Hhead as [Hjob|Hres]; simpl in *.
    + destruct (decide (id = lastDDLJobID h)) as [Heq|Hne].
      * subst id. rewrite handleDDLJobEntry_duplicate by exact Hjob.
        apply IH.
      * destruct (handleDDLJobEntry_fresh now h e id Hjob Hne)
          as (job & h1 & _ & Hid & -> & Hp & Hl).
        destruct (handleEntries_duplicates h1 id rest Hl Hrest)
          as (h' & -> & Hp').
        exists h'. split; [reflexivity|]. split; [|congruence].
        right. exists job. split; [exact Hid|congruence].
    + destruct (handleDDLJobEntry_resolved_frame now h e Hres)
        as (h1 & -> & Hp & Hl).
      destruct (IH h1) as (h' & -> & Hcases & Hsame).
      exists h'. split; [reflexivity|]. rewrite <- Hp, <- Hl. auto.
Qed.

(** **** The loop of [handleRenameTables] *)

Lemma drop_cons_length {A} (l : list A) (i n : nat) :
  length (drop i l) = S n ->
  exists x, l !! i = Some x /\ drop i l = x :: drop (S i) l
            /\ length (drop (S i) l) = n.
Proof.
  intros Hlen. rewrite length_drop in Hlen.
  destruct (lookup_lt_is_Some_2 l i) as [x Hx]; [lia|].
  exists x. split; [exact Hx|]. split; [by apply drop_S|].
  rewrite length_drop. lia.
Qed.

Lemma renameLoop_loopOver (flt : F) snap job args infos :
  forall (i : nat) acc,
    length (drop i (oldSchemaIDs args)) = length infos ->
    length (drop i (newSchemaIDs args)) = length infos ->
    length (drop i (newTableNames args)) = length infos ->
    length (drop i (oldTableIDs args)) = length infos ->
    length (drop i (oldSchemaNames args)) = length infos ->
    renameLoop flt snap job args i infos acc
    = loopOver flt snap (JobType job) (Query job)
        (children infos (drop i (oldSchemaIDs args))
                  (drop i (newSchemaIDs args)) (drop i (newTableNames args))
                  (drop i (oldTableIDs args)) (drop i (oldSchemaNames args)))
        acc.
Proof.
  induction infos as [|tableInfo rest IH]; intros i acc Ha Hb Hc Hd He.
  - reflexivity.
  - simpl in Ha, Hb, Hc, Hd, He.
    apply drop_cons_length in Ha as (a & Hla & -> & Ha).
    apply drop_cons_length in Hb as (b & Hlb & -> & Hb).
    apply drop_cons_length in Hc as (c & Hlc & -> & Hc).
    apply drop_cons_length in Hd as (d & Hld & -> & Hd).
    apply drop_cons_length in He as (e & Hle & -> & He).
    cbn [children loopOver renameLoop].
    unfold shouldDiscardOldTable, shouldDiscardNewTable, appendRemain,
      skipped, rejected, oldDiscarded, newDiscarded.
    rewrite Hla, Hlb, Hlc, Hld, Hle. cbn [c_info c_oldSchemaName
      c_newSchemaID c_newTableName mbind option_bind].
    destruct (PhysicalTableByID snap (tiID tableInfo)) as [oldTable|];
      destruct (SchemaByID snap b) as [db|]; cbn [mbind option_bind];
      repeat (destruct (ShouldDiscardDDL flt _ _ _));
      cbn [andb negb]; try reflexivity; try (by apply IH); apply IH; done.
Qed.

Lemma retain_app r cs1 cs2 :
  retain (retain r cs1) cs2 = retain r (cs1 ++ cs2).
Proof.
  unfold retain. simpl. rewrite !map_app, !app_assoc. reflexivity.
Qed.

Lemma loopOver_no_reject (flt : F) snap tp query cs :
  forall acc,
    Forall (fun c => rejected flt snap tp c = false) cs ->
    loopOver flt snap tp query cs acc
    = LoopDone (retain acc (List.filter (kept flt snap tp) cs)).
Proof.
  induction cs as [|c rest IH]; intros acc Hall.
  - unfold retain. simpl. rewrite !app_nil_r. by destruct acc.
  - inversion Hall as [|? ? Hc Hrest]; subst. simpl.
    unfold skipped, rejected, kept in *.
    destruct (oldDiscarded flt snap tp c), (newDiscarded flt snap tp c);
      simpl in *; try discriminate.
    + by apply IH.
    + rewrite IH by exact Hrest. by rewrite retain_app.
    + rewrite IH by exact Hrest. by rewrite retain_app.
Qed.

Lemma loopOver_reject (flt : F) snap tp query pre c post :
  forall acc,
    Forall (fun c => rejected flt snap tp c = false) pre ->
    rejected flt snap tp c = true ->
    loopOver flt snap tp query (pre ++ c :: post) acc
    = LoopFail (ErrSyncRenameTableFailed (tiID (c_info c)) query).
Proof.
  induction pre as [|c0 pre IH]; intros acc Hpre Hc.
  - simpl. rewrite Hc. unfold skipped, rejected in *.
    destruct (oldDiscarded flt snap tp c), (newDiscarded flt snap tp c);
      simpl in *; congruence.
  - inversion Hpre as [|? ? Hc0 Hrest]; subst. simpl. rewrite Hc0.
    destruct (skipped flt snap tp c0); by apply IH.
Qed.

Lemma skipped_not_rejected (flt : F) snap tp c :
  skipped flt snap tp c = true -> rejected flt snap tp c = false.
Proof.
  unfold skipped, rejected.
  destruct (oldDiscarded flt snap tp c), (newDiscarded flt snap tp c);
    simpl; congruence.
Qed.

Lemma filter_kept_skipped (flt : F) snap tp cs :
  Forall (fun c => skipped flt snap tp c = true) cs ->
  List.filter (kept flt snap tp) cs = [].
Proof.
  induction 1 as [|c cs Hc _ IH]; [reflexivity|]. simpl.
  unfold kept, skipped in *.
  destruct (oldDiscarded flt snap tp c); [exact IH|discriminate].
Qed.

Lemma lengthsMatch_true (n : nat) args :
  lengthsMatch n args = true ->
  length (oldSchemaIDs args) = n /\ length (newSchemaIDs args) = n
  /\ length (newTableNames args) = n /\ length (oldTableIDs args) = n
  /\ length (oldSchemaNames args) = n.
Proof.
  unfold lengthsMatch. rewrite !andb_true_iff, !bool_decide_eq_true.
  intuition congruence.
Qed.

Lemma handleRenameTables_loopOver p (s : St) job args :
  schemaStorage p = Some s ->
  DecodeArgs (RawArgs job) = inr args ->
  lengthsMatch (length (MultipleTableInfos (BinlogInfo job))) args = true ->
  renameLoop (filter p) (GetLastSnapshot s) job args 0
             (MultipleTableInfos (BinlogInfo job)) emptyRemain
  = loopOver (filter p) (GetLastSnapshot s) (JobType job) (Query job)
             (childrenOf job args) emptyRemain.
Proof.
  intros Hs Hdec Hlen. apply lengthsMatch_true in Hlen.
  destruct Hlen as (Ha & Hb & Hc & Hd & He).
  rewrite renameLoop_loopOver by (rewrite drop_0; assumption).
  by rewrite !drop_0.
Qed.

(** What [handleRenameTables] returns for a job whose raw arguments decode
    to five arrays, by the lengths of the arrays and the verdicts of the
    rename rules on the children. *)
Lemma handleRenameTables_repacked p (s : St) job args :
  schemaStorage p = Some s ->
  DecodeArgs (RawArgs job) = inr args ->
  let n := length (MultipleTableInfos (BinlogInfo job)) in
  let rule := fun verdict : F -> Snapshot -> ActionType -> Child -> bool =>
                verdict (filter p) (GetLastSnapshot s) (JobType job) in
  let retained := List.filter (rule kept) (childrenOf job args) in
  let repacked :=
    mkRenameArgs (map c_oldSchemaID retained) (map c_newSchemaID retained)
                 (map c_newTableName retained) (map c_oldTableID retained)
                 (map c_oldSchemaName retained) in
  (lengthsMatch n args = false ->
   handleRenameTables p job
   = (Return true (Some (ErrInvalidDDLJob (ID job))), job))
  /\ (lengthsMatch n args = true ->
      Forall (fun c => rule skipped c = true) (childrenOf job args) ->
      handleRenameTables p job = (Return true None, job))
  /\ (lengthsMatch n args = true ->
      Forall (fun c => rule rejected c = false) (childrenOf job args) ->
      retained <> [] ->
      handleRenameTables p job
      = (Return false None,
         setRenameResult job (Marshal repacked) (map c_info retained))
      /\ lengthsMatch (length (map c_info retained)) repacked = true).
Proof.
  intros Hs Hdec n rule retained repacked. subst rule. cbn beta in *.
  assert (Hloop : lengthsMatch n args = true ->
                  Forall (fun c => rejected (filter p) (GetLastSnapshot s)
                                            (JobType job) c = false)
                         (childrenOf job args) ->
                  renameLoop (filter p) (GetLastSnapshot s) job args 0
                    (MultipleTableInfos (BinlogInfo job)) emptyRemain
                  = LoopDone (retain emptyRemain retained)).
  { intros Hlen Hrej. rewrite (handleRenameTables_loopOver p s) by assumption.
    by apply loopOver_no_reject. }
  split; [|split].
  - intros Hlen. unfold handleRenameTables. rewrite Hdec. fold n.
    by rewrite Hlen.
  - intros Hlen Hskip. unfold handleRenameTables. rewrite Hdec. fold n.
    rewrite Hlen, Hs. cbn [negb].
    rewrite Hloop;
      [|exact Hlen|eapply Forall_impl; [exact Hskip|apply skipped_not_rejected]].
    subst retained. by rewrite (filter_kept_skipped _ _ _ _ Hskip).
  - intros Hlen Hrej Hsome. split.
    + unfold handleRenameTables. rewrite Hdec. fold n. rewrite Hlen, Hs.
      cbn [negb]. rewrite Hloop by assumption.
      cbn [retain emptyRemain remainTables remainOldSchemaIDs
           remainNewSchemaIDs remainOldTableIDs remainNewTableNames
           remainOldSchemaNames app].
      rewrite bool_decide_eq_false_2; [reflexivity|].
      rewrite length_map. destruct retained; [done|simpl; lia].
    + unfold lengthsMatch, repacked. simpl. rewrite !length_map.
      by rewrite !bool_decide_eq_true_2.
Qed.

(** **** The rename rules *)

Lemma not_stale_guard (ts : Z) job :
  ~ staleOrIgnored ts job ->
  (FinishedTS (BinlogInfo job) <=? ts) || (SchemaVersion (BinlogInfo job) =? 0)
  = false.
Proof.
  unfold staleOrIgnored. intros Hn. apply orb_false_iff. split.
  - apply Z.leb_gt. lia.
  - apply Z.eqb_neq. tauto.
Qed.

Lemma filter_kept_not_skipped (flt : F) snap tp cs :
  Forall (fun c => rejected flt snap tp c = false) cs ->
  List.filter (kept flt snap tp) cs
  = List.filter (fun c => negb (skipped flt snap tp c)) cs.
Proof.
  induction 1 as [|c cs Hc _ IH]; [reflexivity|]. simpl. rewrite IH.
  unfold kept, skipped, rejected in *.
  destruct (oldDiscarded flt snap tp c), (newDiscarded flt snap tp c);
    simpl in *; congruence.
Qed.

(** A job that reaches the filter: [handleJob] goes by the filter's verdict,
    and applies the job when it is kept. *)
Lemma handleJob_filtered p (s : St) job job1 :
  schemaStorage p = Some s ->
  ~ staleOrIgnored (resolvedTs p) job ->
  FillSchemaName (GetLastSnapshot s) job = (job1, None) ->
  handleJob IsSchemaDDL p job
  = match filterByType p (GetLastSnapshot s) job1 with
    | (Panic, job2) => (Panic, job2, p)
    | (Return _ (Some err), job2) => (Return true (Some err), job2, p)
    | (Return true None, job2) => (Return true None, job2, p)
    | (Return false None, job2) =>
        applyJob IsSchemaDDL p s (GetLastSnapshot s) job2
    end.
Proof.
  intros Hs Hfresh Hfill. unfold handleJob, getResolvedTs. rewrite Hs.
  rewrite (not_stale_guard _ _ Hfresh). by rewrite Hfill.
Qed.

(** The first rejected child fails [handleRenameTables]. *)
Lemma handleRenameTables_rejected p (s : St) job args pre c post :
  schemaStorage p = Some s ->
  DecodeArgs (RawArgs job) = inr args ->
  lengthsMatch (length (MultipleTableInfos (BinlogInfo job))) args = true ->
  childrenOf job args = pre ++ c :: post ->
  Forall (fun c => rejected (filter p) (GetLastSnapshot s) (JobType job) c
                   = false) pre ->
  rejected (filter p) (GetLastSnapshot s) (JobType job) c = true ->
  handleRenameTables p job
  = (Return true (Some (ErrSyncRenameTableFailed (tiID (c_info c))
                                                 (Query job))),
     job).
Proof.
  intros Hs Hdec Hlen Hcs Hpre Hc. unfold handleRenameTables.
  rewrite Hdec, Hlen, Hs. cbn [negb].
  rewrite (handleRenameTables_loopOver p s) by assumption.
  rewrite Hcs. by rewrite (loopOver_reject _ _ _ _ _ _ _ _ Hpre Hc).
Qed.

(** What [applyJob] leaves alone: the job, and the output channel. *)
Lemma applyJob_frame p (s : St) snap job :
  (applyJob IsSchemaDDL p s snap job).1.2 = job
  /\ outputCh (applyJob IsSchemaDDL p s snap job).2 = outputCh p.
Proof.
  unfold applyJob. destruct (HandleDDLJob s job) as [s' [e|]].
  - by destruct (TableInfo_ (BinlogInfo job)).
  - by split.
Qed.

(** A RenameTables job that reaches the filter with none of its children
    rejected: [handleJob] skips it when every child is skipped, and
    otherwise applies the job repacked with the children that are not
    skipped. *)
Lemma handleJob_rename_tables p (s : St) job job1 args :
  schemaStorage p = Some s ->
  ~ staleOrIgnored (resolvedTs p) job ->
  FillSchemaName (GetLastSnapshot s) job = (job1, None) ->
  JobType job1 = ActionRenameTables ->
  DecodeArgs (RawArgs job1) = inr args ->
  lengthsMatch (length (MultipleTableInfos (BinlogInfo job1))) args = true ->
  Forall (fun c => rejected (filter p) (GetLastSnapshot s) (JobType job1) c
                   = false)
         (childrenOf job1 args) ->
  let retained :=
    List.filter (kept (filter p) (GetLastSnapshot s) (JobType job1))
                (childrenOf job1 args) in
  handleJob IsSchemaDDL p job
  = match retained with
    | [] => (Return true None, job1, p)
    | _ :: _ =>
        applyJob IsSchemaDDL p s (GetLastSnapshot s)
          (setRenameResult job1
             (Marshal (mkRenameArgs (map c_oldSchemaID retained)
                                    (map c_newSchemaID retained)
                                    (map c_newTableName retained)
                                    (map c_oldTableID retained)
                                    (map c_oldSchemaName retained)))
             (map c_info retained))
    end.
Proof.
  intros Hs Hfresh Hfill Htp Hdec Hlen Hrej retained.
  rewrite (handleJob_filtered p s job job1 Hs Hfresh Hfill).
  unfold filterByType, handleRenameTables. rewrite Htp, Hdec, Hlen, Hs.
  cbn [negb].
  rewrite (handleRenameTables_loopOver p s) by assumption.
  rewrite loopOver_no_reject by exact Hrej. fold retained.
  cbn [retain emptyRemain remainTables remainOldSchemaIDs remainNewSchemaIDs
       remainOldTableIDs remainNewTableNames remainOldSchemaNames app].
  destruct retained as [|c rest]; reflexivity.
Qed.

(** C3.  A rename job that reaches the filter (the puller has a schema
    storage, the job is neither stale nor ignored upstream, its schema name
    is filled).  A single RenameTable whose old identity is discarded and
    whose new identity is not makes [handleJob] fail with
    SyncRenameTableFailed; with both identities discarded the job is skipped
    without an error; otherwise it is kept, i.e. handed on to be applied.  In
    a RenameTables job, the first child whose old identity is discarded and
    whose new identity is not makes [handleJob] fail with
    SyncRenameTableFailed, the puller being left as it was; when there is no
    such child, the children with both identities discarded are skipped and
    all others are kept: with every child skipped, [handleJob] skips the job
    without an error and leaves the puller as it was, and otherwise it hands
    on, to be applied, the job whose table infos and five arrays are those
    of the children that are not skipped, in order. *)
Theorem rename_rules p (s : St) job job1 :
  schemaStorage p = Some s ->
  ~ staleOrIgnored (resolvedTs p) job ->
  FillSchemaName (GetLastSnapshot s) job = (job1, None) ->
  let snap := GetLastSnapshot s in
  (JobType job1 = ActionRenameTable ->
   forall ti, TableInfo_ (BinlogInfo job1) = Some ti ->
     let old := oldDiscardedJob (filter p) snap job1 in
     let new := newDiscardedJob (filter p) job1 ti in
     (old = true -> new = false ->
      handleJob IsSchemaDDL p job
      = (Return true
           (Some (ErrSyncRenameTableFailed (TableID job1) (Query job1))),
         job1, p))
     /\ (old = true -> new = true ->
         handleJob IsSchemaDDL p job = (Return true None, job1, p))
     /\ (old = false ->
         handleJob IsSchemaDDL p job = applyJob IsSchemaDDL p s snap job1))
  /\ (JobType job1 = ActionRenameTables ->
      forall args,
        DecodeArgs (RawArgs job1) = inr args ->
        lengthsMatch (length (MultipleTableInfos (BinlogInfo job1))) args
        = true ->
        let cs := childrenOf job1 args in
        let verdict := fun rule : F -> Snapshot -> ActionType -> Child -> bool =>
                         rule (filter p) snap (JobType job1) in
        let retained := List.filter (fun c => negb (verdict skipped c)) cs in
        let handedOn :=
          setRenameResult job1
            (Marshal (mkRenameArgs (map c_oldSchemaID retained)
                                   (map c_newSchemaID retained)
                                   (map c_newTableName retained)
                                   (map c_oldTableID retained)
                                   (map c_oldSchemaName retained)))
            (map c_info retained) in
        (forall pre c post,
           cs = pre ++ c :: post ->
           Forall (fun c => verdict rejected c = false) pre ->
           verdict rejected c = true ->
           (handleJob IsSchemaDDL p job).1.1
           = Return true
               (Some (ErrSyncRenameTableFailed (tiID (c_info c))
                                               (Query job1)))
           /\ (handleJob IsSchemaDDL p job).2 = p)
        /\ (Forall (fun c => verdict rejected c = false) cs ->
            Forall (fun c => verdict kept c = true) retained
            /\ (retained = [] ->
                (handleJob IsSchemaDDL p job).1.1 = Return true None
                /\ (handleJob IsSchemaDDL p job).2 = p)
            /\ (retained <> [] ->
                handleJob IsSchemaDDL p job
                = applyJob IsSchemaDDL p s snap handedOn))).
Proof.
  intros Hs Hfresh Hfill snap. subst snap. cbn zeta.
  pose proof (handleJob_filtered p s job job1 Hs Hfresh Hfill) as Hhead.
  split.
  - intros Htp ti Hti. rewrite Hhead.
    unfold filterByType, oldDiscardedJob, newDiscardedJob.
    rewrite Htp, Hti.
    destruct (PhysicalTableByID (GetLastSnapshot s) (TableID job1))
      as [oldTable|].
    + destruct (ShouldDiscardDDL (filter p) ActionRenameTable
                  (wtSchema oldTable) (wtTable oldTable));
        destruct (ShouldDiscardDDL (filter p) ActionRenameTable
                    (SchemaName job1) (tiName ti));
        cbn [andb negb]; repeat split; intros; congruence.
    + destruct (ShouldDiscardDDL (filter p) ActionRenameTable
                  (SchemaName job1) (tiName ti));
        cbn [andb negb]; repeat split; intros; congruence.
  - intros Htp args Hdec Hlen. split.
    + intros pre c post Hcs Hpre Hc. rewrite Hhead.
      unfold filterByType, handleRenameTables. rewrite Htp, Hdec, Hlen, Hs.
      cbn [negb].
      assert (Hloop : renameLoop (filter p) (GetLastSnapshot s) job1 args 0
                (MultipleTableInfos (BinlogInfo job1)) emptyRemain
              = LoopFail (ErrSyncRenameTableFailed (tiID (c_info c))
                                                   (Query job1))).
      { rewrite (handleRenameTables_loopOver p s) by assumption.
        rewrite Hcs. by apply loopOver_reject. }
      rewrite Hloop. by split.
    + intros Hrej.
      pose proof (handleJob_rename_tables p s job job1 args Hs Hfresh Hfill
                    Htp Hdec Hlen Hrej) as Hjob.
      cbv zeta in Hjob.
      rewrite (filter_kept_not_skipped _ _ _ _ Hrej) in Hjob.
      split; [|split].
      * rewrite <- (filter_kept_not_skipped _ _ _ _ Hrej).
        apply List.Forall_forall. intros c Hc.
        by apply List.filter_In in Hc as [_ Hc].
      * intros Hnil. rewrite Hnil in Hjob. by rewrite Hjob.
      * intros Hne. rewrite Hjob.
        by destruct (List.filter _ (childrenOf job1 args)).
Qed.

Section Emission.

Variable IsLegacyFormatJob : RawKVEntry -> bool.
Variable ParseDDLJob :
  option WrappedTableInfo -> RawKVEntry -> Z -> Error + option Job.
Variable kvJobTableMeta : Error + (WrappedTableInfo * Z).

(** The raw entry from which [unmarshalDDL] reads a job is handled by what
    [handleJob] returns for the job. *)
Lemma handleRawKVEntry_job ctxDone p0 p raw job :
  unmarshalDDL IsLegacyFormatJob ParseDDLJob kvJobTableMeta p0 raw
  = (inr (Some job), p) ->
  outputCh p = outputCh p0
  /\ handleRawKVEntry IsSchemaDDL IsLegacyFormatJob ParseDDLJob kvJobTableMeta
                      ctxDone p0 (Some raw)
     = match handleJob IsSchemaDDL p job with
       | (Panic, _, p3) => (Panicked, p3)
       | (Return _ (Some err), _, p3) => (Fail err, p3)
       | (Return true None, _, p3) => (Ok, p3)
       | (Return false None, job', p3) =>
           if ctxDone : bool then (Fail ErrContextDone, p3)
           else (Ok, send p3 (mkEntry (Some job') (rawOpType raw) (CRTs raw)
                                      None))
       end.
Proof.
  intros Hu.
  pose proof (unmarshalDDL_frame IsLegacyFormatJob ParseDDLJob kvJobTableMeta
                p0 raw) as Hframe.
  simpl in Hframe. rewrite Hu in Hframe. simpl in Hframe.
  destruct Hframe as (_ & _ & _ & Hout & _). split; [exact Hout|].
  assert (Hput : rawOpType raw = OpTypePut).
  { unfold unmarshalDDL in Hu.
    destruct (bool_decide (rawOpType raw = OpTypePut)) eqn:Hb;
      [by apply bool_decide_eq_true in Hb|simpl in Hu; congruence]. }
  unfold handleRawKVEntry.
  rewrite bool_decide_eq_false_2 by (rewrite Hput; discriminate).
  by rewrite Hu.
Qed.

(** C2, as the code has it.  A RenameTables job that a raw entry carries and
    that reaches the filter (the puller has a schema storage, the job is
    neither stale nor ignored upstream, its schema name is filled), with raw
    arguments that decode to five arrays.  When a length differs from the
    number of table infos, [handleRenameTables] fails with the
    invalid-DDL-job error, so does the handling of the entry, and nothing is
    sent.  When the lengths agree and every child is skipped by the rename
    rules, [handleRenameTables] returns skip with no error, the entry is
    handled without an error and nothing is sent.  When the lengths agree,
    no child is rejected by the rename rules and some child is kept,
    [handleRenameTables] hands on one job, not skipped, whose table infos
    are the kept children, in order, and whose raw arguments are the five
    arrays of the kept children, in the same order, each as long as the
    list of kept children; [handleJob] applies this job to the schema
    storage and checks its table; and the entry sends this job, once, when
    that ends without skip and without error and the final [select] takes
    the branch of the send, and sends nothing otherwise.  When the lengths
    agree and a child is rejected, the handling of the entry fails with
    SyncRenameTableFailed for the first such child and nothing is sent,
    whatever the other children are. *)
Theorem rename_tables_repacked ctxDone p0 p (s : St) raw job job1 args :
  unmarshalDDL IsLegacyFormatJob ParseDDLJob kvJobTableMeta p0 raw
  = (inr (Some job), p) ->
  schemaStorage p = Some s ->
  ~ staleOrIgnored (resolvedTs p) job ->
  FillSchemaName (GetLastSnapshot s) job = (job1, None) ->
  JobType job1 = ActionRenameTables ->
  DecodeArgs (RawArgs job1) = inr args ->
  let snap := GetLastSnapshot s in
  let n := length (MultipleTableInfos (BinlogInfo job1)) in
  let rule := fun verdict : F -> Snapshot -> ActionType -> Child -> bool =>
                verdict (filter p) snap (JobType job1) in
  let retained := List.filter (rule kept) (childrenOf job1 args) in
  let repacked :=
    mkRenameArgs (map c_oldSchemaID retained) (map c_newSchemaID retained)
                 (map c_newTableName retained) (map c_oldTableID retained)
                 (map c_oldSchemaName retained) in
  let handedOn := setRenameResult job1 (Marshal repacked)
                                  (map c_info retained) in
  let handled :=
    handleRawKVEntry IsSchemaDDL IsLegacyFormatJob ParseDDLJob kvJobTableMeta
                     ctxDone p0 (Some raw) in
  (lengthsMatch n args = false ->
   (handleRenameTables p job1).1
   = Return true (Some (ErrInvalidDDLJob (ID job1)))
   /\ handled.1 = Fail (ErrInvalidDDLJob (ID job1))
   /\ outputCh handled.2 = outputCh p0)
  /\ (lengthsMatch n args = true ->
      Forall (fun c => rule skipped c = true) (childrenOf job1 args) ->
      (handleRenameTables p job1).1 = Return true None
      /\ handled.1 = Ok
      /\ outputCh handled.2 = outputCh p0)
  /\ (lengthsMatch n args = true ->
      Forall (fun c => rule rejected c = false) (childrenOf job1 args) ->
      retained <> [] ->
      handleRenameTables p job1 = (Return false None, handedOn)
      /\ lengthsMatch (length (map c_info retained)) repacked = true
      /\ handleJob IsSchemaDDL p job = applyJob IsSchemaDDL p s snap handedOn
      /\ match (applyJob IsSchemaDDL p s snap handedOn).1.1, ctxDone with
         | Return false None, false =>
             handled.1 = Ok
             /\ outputCh handled.2
                = outputCh p0
                  ++ [mkEntry (Some handedOn) (rawOpType raw) (CRTs raw) None]
         | _, _ => outputCh handled.2 = outputCh p0
         end)
  /\ (lengthsMatch n args = true ->
      forall pre c post,
        childrenOf job1 args = pre ++ c :: post ->
        Forall (fun c => rule rejected c = false) pre ->
        rule rejected c = true ->
        handled.1
        = Fail (ErrSyncRenameTableFailed (tiID (c_info c)) (Query job1))
        /\ outputCh handled.2 = outputCh p0).
Proof.
  intros Hu Hs Hfresh Hfill Htp Hdec snap n rule retained repacked handedOn
         handled.
  subst rule. cbn beta in *.
  destruct (handleRawKVEntry_job ctxDone p0 p raw job Hu) as [Hout Hraw].
  fold handled in Hraw.
  pose proof (handleJob_filtered p s job job1 Hs Hfresh Hfill) as Hhead.
  unfold filterByType in Hhead. rewrite Htp in Hhead. fold snap in Hhead.
  destruct (handleRenameTables_repacked p s job1 args Hs Hdec)
    as (Hbad & Hskip & Hkept).
  cbv zeta in Hbad, Hskip, Hkept. fold n snap in Hbad, Hskip, Hkept.
  split; [|split; [|split]]; cycle 3.
  { intros Hlen pre c post Hcs Hpre Hc.
    rewrite (handleRenameTables_rejected p s job1 args pre c post Hs Hdec
               Hlen Hcs Hpre Hc) in Hhead.
    rewrite Hhead in Hraw. rewrite Hraw. by split. }
  - intros Hlen. rewrite (Hbad Hlen) in Hhead |- *.
    rewrite Hhead in Hraw. rewrite Hraw. by repeat split.
  - intros Hlen Hall. rewrite (Hskip Hlen Hall) in Hhead |- *.
    rewrite Hhead in Hraw. rewrite Hraw. by repeat split.
  - intros Hlen Hrej Hne.
    destruct (Hkept Hlen Hrej Hne) as [Hhanded Hlens].
    fold retained repacked handedOn in Hhanded, Hlens.
    rewrite Hhanded in Hhead. split; [exact Hhanded|].
    split; [exact Hlens|]. split; [exact Hhead|].
    rewrite Hhead in Hraw.
    destruct (applyJob_frame p s snap handedOn) as [Hjob Hch].
    destruct (applyJob IsSchemaDDL p s snap handedOn) as [[out job'] p3].
    simpl in Hjob, Hch. subst job'. rewrite Hraw.
    destruct out as [[|] [err|]|]; simpl; try congruence.
    destruct ctxDone; simpl; [congruence|].
    split; [reflexivity|]. by rewrite Hch, Hout.
Qed.

End Emission.

(** **** Eligibility after a DDL *)

(** C4, as the code has it.  A job that is not a schema DDL and that the
    schema storage applied without an error.  A CreateTables job is never
    skipped and raises no error.  For every other action type, with the
    table (the id of the job's table info) ineligible in the snapshot after
    the DDL: when the job's table was in the snapshot before and eligible
    there, handling fails with the eligible-became-ineligible error; when it
    was not in the snapshot before, or was ineligible there, the job is
    skipped without an error.  With the table eligible after the DDL the job
    is not skipped. *)
Theorem ineligible_table_check p (s s' : St) snapBefore job ti :
  HandleDDLJob s job = (s', None) ->
  IsSchemaDDL (JobType job) = false ->
  TableInfo_ (BinlogInfo job) = Some ti ->
  let ineligibleAfter := IsIneligibleTableID (GetLastSnapshot s') (tiID ti) in
  let existedBefore := PhysicalTableByID snapBefore (TableID job) in
  let ineligibleBefore := IsIneligibleTableID snapBefore (TableID job) in
  let out := (applyJob IsSchemaDDL p s snapBefore job).1.1 in
  (JobType job = ActionCreateTables -> out = Return false None)
  /\ (JobType job <> ActionCreateTables ->
      (ineligibleAfter = true -> existedBefore <> None ->
       ineligibleBefore = false ->
       out = Return false (Some (ErrEligibleBecameIneligible (Query job))))
      /\ (ineligibleAfter = true ->
          existedBefore = None \/ ineligibleBefore = true ->
          out = Return true None)
      /\ (ineligibleAfter = false -> out = Return false None)).
Proof.
  intros Happly Hschema Hti ineligibleAfter existedBefore ineligibleBefore out.
  subst out. unfold applyJob. rewrite Happly.
  cbn [fst]. unfold checkIneligibleTableDDL. rewrite Hschema, Hti.
  cbn [schemaStorage setResolvedTs setSchemaStorage].
  fold ineligibleAfter existedBefore ineligibleBefore.
  split.
  - intros Htp. rewrite Htp. cbn.
    by destruct ineligibleAfter.
  - intros Htp.
    rewrite (bool_decide_eq_false_2 (JobType job = ActionCreateTables))
      by exact Htp.
    assert (Htail :
      (if negb ineligibleAfter then Return false None
       else match existedBefore with
            | None => Return true None
            | Some _ =>
                if ineligibleBefore then Return true None
                else Return false
                       (Some (ErrEligibleBecameIneligible (Query job)))
            end)
      = match (if bool_decide (JobType job = ActionCreateTable)
               then if negb ineligibleAfter then Some (Return false None)
                    else None
               else None) with
        | Some out => out
        | None =>
            if negb ineligibleAfter then Return false None
            else match existedBefore with
                 | None => Return true None
                 | Some _ =>
                     if ineligibleBefore then Return true None
                     else Return false
                            (Some (ErrEligibleBecameIneligible (Query job)))
                 end
        end).
    { destruct (bool_decide _), ineligibleAfter; reflexivity. }
    rewrite <- Htail. clear Htail.
    split; [|split].
    + intros -> Hex ->. cbn [negb]. by destruct existedBefore.
    + intros -> [->| ->]; cbn [negb]; [reflexivity|].
      by destruct existedBefore.
    + by intros ->.
Qed.

End Facts.

(** **** The properties at work *)
(** A job finished at 5 reaches a puller resolved at 10: skipped. *)
Lemma stale_job_skipped_example :
  handleJob schemaActions (examplePuller 10)
            (exampleJob 7 (ActionOther 5) 1 "test" "t1" 5 None)
  = (Return true None, exampleJob 7 (ActionOther 5) 1 "test" "t1" 5 None,
     examplePuller 10).
Proof.
  refine (proj1 (stale_job_skipped schemaActions (fun _ => true)
                   (fun _ _ _ => inr None) (inl ErrDecodeArgs)
                   (examplePuller 10) exampleStorage
                   (exampleJob 7 (ActionOther 5) 1 "test" "t1" 5 None)
                   eq_refl (or_introl _))).
  change (5 <= 10). lia.
Defined.

(** The job 7 arrives three times, a resolved marker in between: one job is
    pending. *)
Lemma consecutive_duplicates_example :
  exists h',
    handleEntries (NewDDLPuller 0)
      [(0, jobEntryOf (exampleJob 7 (ActionOther 5) 1 "test" "t1" 20 None));
       (1, jobEntryOf (exampleJob 7 (ActionOther 5) 1 "test" "t1" 20 None));
       (2, resolvedEntry 50);
       (3, jobEntryOf (exampleJob 7 (ActionOther 5) 1 "test" "t1" 20 None))]
    = (None, h')
    /\ (pendingDDLJobs h' = pendingDDLJobs (NewDDLPuller 0)
        \/ exists job, ID job = 7
             /\ pendingDDLJobs h' = pendingDDLJobs (NewDDLPuller 0) ++ [job])
    /\ (lastDDLJobID (NewDDLPuller 0) = 7 ->
        pendingDDLJobs h' = pendingDDLJobs (NewDDLPuller 0)).
Proof.
  apply consecutive_duplicates_ignored.
  repeat first [apply List.Forall_nil | apply List.Forall_cons];
    first [ right; reflexivity
          | left; split; [discriminate|split; [reflexivity|]];
            eexists; split; reflexivity ].
Defined.

(** The table 2 of the discarded schema [ignore] is renamed into the schema
    [test]: the puller fails.  Three tables are renamed, the second one
    inside the discarded schema: the job is handed on with the first and the
    third. *)
Lemma rename_rules_example :
  handleJob schemaActions (examplePuller 10)
            (exampleJob 8 ActionRenameTable 2 "test" "t9" 20
                        (Some (mkTableInfo 2 "t9")))
  = (Return true (Some (ErrSyncRenameTableFailed 2 "ddl")),
     exampleJob 8 ActionRenameTable 2 "test" "t9" 20
                (Some (mkTableInfo 2 "t9")),
     examplePuller 10)
  /\ handleJob schemaActions (examplePuller 10)
       (renameTablesJob threeTables ["test"; "ignore"; "test"]%string
                        [10; 20; 10])
     = applyJob schemaActions (examplePuller 10) exampleStorage
         exampleSnapshot
         (setRenameResult
            (renameTablesJob threeTables ["test"; "ignore"; "test"]%string
                             [10; 20; 10])
            (RawRenameTables
               (mkRenameArgs [10; 10] [10; 10] ["n1"; "n3"]%string [1; 3]
                             ["test"; "test"]%string))
            [mkTableInfo 1 "n1"; mkTableInfo 3 "n3"]).
Proof.
  split.
  - refine (proj1 (proj1 (rename_rules schemaActions (examplePuller 10)
                            exampleStorage
                            (exampleJob 8 ActionRenameTable 2 "test" "t9" 20
                                        (Some (mkTableInfo 2 "t9")))
                            (exampleJob 8 ActionRenameTable 2 "test" "t9" 20
                                        (Some (mkTableInfo 2 "t9")))
                            eq_refl _ eq_refl)
                         eq_refl (mkTableInfo 2 "t9") eq_refl)
                  eq_refl eq_refl).
    change (~ (20 <= 10 \/ 1 = 0)). lia.
  - refine (proj2 (proj2 (proj2 (proj2
              (rename_rules schemaActions (examplePuller 10) exampleStorage
                 (renameTablesJob threeTables
                    ["test"; "ignore"; "test"]%string [10; 20; 10])
                 (renameTablesJob threeTables
                    ["test"; "ignore"; "test"]%string [10; 20; 10])
                 eq_refl _ eq_refl)
              eq_refl
              (mkRenameArgs [10; 10; 10] [10; 20; 10]
                            ["n1"; "n2"; "n3"]%string [1; 2; 3]
                            ["test"; "ignore"; "test"]%string)
              eq_refl eq_refl) _)) _).
    + change (~ (20 <= 10 \/ 1 = 0)). lia.
    + repeat constructor.
    + discriminate.
Defined.

(** Three tables are renamed, the second one inside the discarded schema,
    on a puller whose schema storage leaves every table eligible: the entry
    sends the job with the first and the third. *)
Lemma rename_tables_repacked_example :
  (handleRawKVEntry schemaActions (fun _ => true)
     (fun _ _ _ =>
        inr (Some (renameTablesJob threeTables
                     ["test"; "ignore"; "test"]%string [10; 20; 10])))
     (inl ErrDecodeArgs) false (pullerOver (storageLeaving []) 10)
     (Some (mkRawKV OpTypePut 20 ""))).1
  = Ok
  /\ outputCh
       (handleRawKVEntry schemaActions (fun _ => true)
          (fun _ _ _ =>
             inr (Some (renameTablesJob threeTables
                          ["test"; "ignore"; "test"]%string [10; 20; 10])))
          (inl ErrDecodeArgs) false (pullerOver (storageLeaving []) 10)
          (Some (mkRawKV OpTypePut 20 ""))).2
     = outputCh (pullerOver (storageLeaving []) 10)
       ++ [mkEntry
             (Some (setRenameResult
                      (renameTablesJob threeTables
                         ["test"; "ignore"; "test"]%string [10; 20; 10])
                      (RawRenameTables
                         (mkRenameArgs [10; 10] [10; 10] ["n1"; "n3"]%string
                                       [1; 3] ["test"; "test"]%string))
                      [mkTableInfo 1 "n1"; mkTableInfo 3 "n3"]))
             OpTypePut 20 None].
Proof.
  refine (proj2 (proj2 (proj2 (proj1 (proj2 (proj2
            (rename_tables_repacked schemaActions (fun _ => true)
               (fun _ _ _ =>
                  inr (Some (renameTablesJob threeTables
                               ["test"; "ignore"; "test"]%string
                               [10; 20; 10])))
               (inl ErrDecodeArgs) false (pullerOver (storageLeaving []) 10)
               (pullerOver (storageLeaving []) 10) (storageLeaving [])
               (mkRawKV OpTypePut 20 "")
               (renameTablesJob threeTables
                  ["test"; "ignore"; "test"]%string [10; 20; 10])
               (renameTablesJob threeTables
                  ["test"; "ignore"; "test"]%string [10; 20; 10])
               (mkRenameArgs [10; 10; 10] [10; 20; 10]
                             ["n1"; "n2"; "n3"]%string [1; 2; 3]
                             ["test"; "ignore"; "test"]%string)
               eq_refl eq_refl _ eq_refl eq_refl eq_refl)))
            eq_refl _ _)))).
  - change (~ (20 <= 10 \/ 1 = 0)). lia.
  - repeat constructor.
  - discriminate.
Defined.

(** C2 as stated fails.  Two tables are renamed; the first is kept by the
    rules, the second leaves the discarded schema [ignore] for the schema
    [test].  The claim has one job emitted with the kept child; the code
    fails with SyncRenameTableFailed and emits nothing. *)
Lemma rename_tables_kept_child_not_emitted :
  lengthsMatch 2 (mkRenameArgs [10; 10] [10; 10] ["n1"; "n2"]%string [1; 2]
                               ["test"; "ignore"]%string) = true
  /\ List.filter (kept ["ignore"%string] exampleSnapshot ActionRenameTables)
       (childrenOf
          (renameTablesJob (take 2 threeTables) ["test"; "ignore"]%string
                           [10; 10])
          (mkRenameArgs [10; 10] [10; 10] ["n1"; "n2"]%string [1; 2]
                        ["test"; "ignore"]%string))
     = [mkChild (mkTableInfo 1 "n1") 10 10 "n1" 1 "test"]
  /\ handleRenameTables (examplePuller 10)
       (renameTablesJob (take 2 threeTables) ["test"; "ignore"]%string
                        [10; 10])
     = (Return true (Some (ErrSyncRenameTableFailed 2 "ddl")),
        renameTablesJob (take 2 threeTables) ["test"; "ignore"]%string
                        [10; 10]).
Proof. repeat split. Qed.

(** The table 1 has a unique key before the DDL and none after it: handling
    fails. *)
Lemma ineligible_table_check_example :
  (applyJob schemaActions (pullerOver (storageLeaving [1; 3]) 10)
            (storageLeaving [1; 3]) exampleSnapshot
            (exampleJob 11 (ActionOther 12) 1 "test" "t1" 20
                        (Some (mkTableInfo 1 "t1")))).1.1
  = Return false (Some (ErrEligibleBecameIneligible "ddl")).
Proof.
  refine (proj1 (proj2 (ineligible_table_check schemaActions
                          (pullerOver (storageLeaving [1; 3]) 10)
                          (storageLeaving [1; 3])
                          (mkScripted (snapshotWith [1; 3])
                                      (script (storageLeaving [1; 3])))
                          exampleSnapshot
                          (exampleJob 11 (ActionOther 12) 1 "test" "t1" 20
                                      (Some (mkTableInfo 1 "t1")))
                          (mkTableInfo 1 "t1") eq_refl eq_refl eq_refl) _)
                eq_refl _ eq_refl); discriminate.
Defined.

(** C4 as stated fails.  A CreateTables job creates the table 4, which was
    not in the snapshot before and has no unique key after: the claim has
    the job skipped, the code returns it not skipped, to be sent
    downstream. *)
Lemma create_tables_not_skipped :
  schemaActions ActionCreateTables = false
  /\ PhysicalTableByID exampleSnapshot 4 = None
  /\ IsIneligibleTableID (snapshotWith [3; 4]) 4 = true
  /\ (handleJob schemaActions (pullerOver (storageLeaving [3; 4]) 10)
                (exampleJob 12 ActionCreateTables 4 "test" "t4" 20
                            (Some (mkTableInfo 4 "t4")))).1.1
     = Return false None.
Proof. repeat split. Qed.

End DDLPullerFacts.

Module SourceManagerFacts.
Import SourceManager.

Section Facts.

Variable IsUpdate : RawKVEntry -> bool.

(** C6.  [AddTable] subscribes the table with the closure
    [shouldSplitKVEntry], and the closure answers: no split for a nil entry
    and for an entry that is not an update, whatever the mode; for an update,
    no split in mode None, split in mode Always, and in mode AtStart split
    exactly when the commit timestamp of the entry is less than the
    replicating timestamp of the table. *)
Theorem split_predicate_of_AddTable (m : SourceManager) (span : Span)
    (tableName : string) (startTs : Z) (getReplicaTs : unit -> Z) :
  let split := shouldSplitKVEntry IsUpdate m getReplicaTs in
  last (subscriptions (AddTable IsUpdate m span tableName startTs getReplicaTs))
  = Some (mkSubscription span startTs tableName split)
  /\ split None = Some false
  /\ (forall raw, IsUpdate raw = false -> split (Some raw) = Some false)
  /\ (forall raw, IsUpdate raw = true ->
        (splitUpdateMode m = PullerSplitUpdateModeNone ->
         split (Some raw) = Some false)
        /\ (splitUpdateMode m = PullerSplitUpdateModeAlways ->
            split (Some raw) = Some true)
        /\ (splitUpdateMode m = PullerSplitUpdateModeAtStart ->
            exists b, split (Some raw) = Some b
                      /\ (b = true <-> CRTs raw < getReplicaTs tt))).
Proof.
  intros split. split; [|split; [|split]].
  - unfold AddTable. simpl. apply last_snoc.
  - reflexivity.
  - intros raw Hu. unfold split, shouldSplitKVEntry. by rewrite Hu.
  - intros raw Hu. unfold split, shouldSplitKVEntry, isOldUpdateKVEntry.
    rewrite Hu. cbn [negb andb].
    split; [|split]; intros ->; cbn; [reflexivity..|].
    exists (CRTs raw <? getReplicaTs tt). split; [reflexivity|].
    apply Z.ltb_lt.
Qed.

End Facts.

(** In mode AtStart, for a table replicated since 100, the update committed
    at 50 is split and the update committed at 150 is not. *)
Lemma split_at_start_example :
  shouldSplitKVEntry SourceManagerSpec.putWithOldValue
    (SourceManagerSpec.managerIn PullerSplitUpdateModeAtStart)
    (fun _ => 100) (Some (SourceManagerSpec.updateAt 50)) = Some true
  /\ shouldSplitKVEntry SourceManagerSpec.putWithOldValue
       (SourceManagerSpec.managerIn PullerSplitUpdateModeAtStart)
       (fun _ => 100) (Some (SourceManagerSpec.updateAt 150)) = Some false.
Proof.
  pose proof (split_predicate_of_AddTable SourceManagerSpec.putWithOldValue
                (SourceManagerSpec.managerIn PullerSplitUpdateModeAtStart)
                (mkSpan 1 "a" "z") "t" 90 (fun _ => 100)) as H.
  cbv zeta in H. destruct H as (_ & _ & _ & Hupd). split.
  - destruct (Hupd (SourceManagerSpec.updateAt 50) eq_refl)
      as (_ & _ & Hstart).
    destruct (Hstart eq_refl) as (b & Hb & Hiff). rewrite Hb. f_equal.
    apply Hiff. reflexivity.
  - destruct (Hupd (SourceManagerSpec.updateAt 150) eq_refl)
      as (_ & _ & Hstart).
    destruct (Hstart eq_refl) as (b & Hb & Hiff). rewrite Hb. f_equal.
    destruct b; [|reflexivity]. destruct Hiff as [Hiff _].
    specialize (Hiff eq_refl). vm_compute in Hiff. discriminate Hiff.
Defined.

End SourceManagerFacts.

Module MySQLBackendFacts.
Import MySQLBackend MySQLBackendSpec.

Lemma wrap64_small (z : Z) : - 2 ^ 63 <= z < 2 ^ 63 -> wrap64 z = z.
Proof. intros Hz. unfold wrap64. rewrite Z.mod_small; lia. Qed.

(** C8.  [OnTxnEvent] appends the event to the buffer, adds the number of
    its rows to the running total (a Go [int]: the sum is taken in its
    range), and asks for a flush exactly when the event carries the
    wait-flush hint or the new total is at least [MaxTxnRow]. *)
Theorem on_txn_event_accepts (s : mysqlBackend) (event : TxnCallbackableEvent) :
  - 2 ^ 63 <= rows s + len (Rows event) < 2 ^ 63 ->
  let needFlush := (OnTxnEvent s event).1 in
  let s' := (OnTxnEvent s event).2 in
  events s' = events s ++ [event]
  /\ rows s' = rows s + len (Rows event)
  /\ (needFlush = true
      <-> ToWaitFlush event = true \/ MaxTxnRow (cfg s) <= rows s').
Proof.
  intros Hrange. unfold OnTxnEvent. cbn [fst snd events rows].
  rewrite (wrap64_small _ Hrange). split; [reflexivity|split; [reflexivity|]].
  rewrite orb_true_iff, Z.leb_le. reflexivity.
Qed.

(** Two events of one row each reach a backend with [MaxTxnRow] 2. *)
Lemma on_txn_event_example :
  events (OnTxnEvent (mkBackend (mkConfig 16 2 40 1024 false 20 false false
                                          false true false true false 1)
                                8 [insertEventAt 20 1%nat] 1 4194304 0 [])
                     (insertEventAt 30 2%nat)).2
  = [insertEventAt 20 1%nat; insertEventAt 30 2%nat]
  /\ rows (OnTxnEvent (mkBackend (mkConfig 16 2 40 1024 false 20 false false
                                           false true false true false 1)
                                 8 [insertEventAt 20 1%nat] 1 4194304 0 [])
                      (insertEventAt 30 2%nat)).2
     = 1 + 1
  /\ ((OnTxnEvent (mkBackend (mkConfig 16 2 40 1024 false 20 false false
                                       false true false true false 1)
                             8 [insertEventAt 20 1%nat] 1 4194304 0 [])
                  (insertEventAt 30 2%nat)).1 = true
      <-> false = true \/ 2 <= 2).
Proof.
  refine (on_txn_event_accepts
            (mkBackend (mkConfig 16 2 40 1024 false 20 false false
                                 false true false true false 1)
                       8 [insertEventAt 20 1%nat] 1 4194304 0 [])
            (insertEventAt 30 2%nat) _).
  change (- 2 ^ 63 <= 2 < 2 ^ 63). lia.
Defined.

Section Facts.

Variable generate : Call -> string * list Value.
Variable reduceReplace :
  gmap string (list (list Value)) -> Z -> list string * list (list Value).
Variable QuoteString : TableName -> string.

#[local] Abbreviation flushCacheDMLs := (flushCacheDMLs reduceReplace).
#[local] Abbreviation callAndAppend := (callAndAppend generate).
#[local] Abbreviation prepareRow := (prepareRow generate reduceReplace).
#[local] Abbreviation prepareEventDMLs := (prepareEventDMLs generate reduceReplace QuoteString).
#[local] Abbreviation prepareEvent := (prepareEvent generate reduceReplace QuoteString).
#[local] Abbreviation prepareLoop := (prepareLoop generate reduceReplace QuoteString).

(** **** What one step of [prepareDMLs] does *)

Lemma steps_same st st' :
  translateToInsert st' = translateToInsert st ->
  psCallbacks st' = psCallbacks st ->
  calls st' = calls st ->
  steps st st' [].
Proof. intros Hf Hc Hk. repeat split; [exact Hf|exact Hc|]. by rewrite app_nil_r. Qed.

Lemma steps_refl st : steps st st [].
Proof. by apply steps_same. Qed.

Lemma steps_trans st1 st2 st3 new1 new2 new :
  steps st1 st2 new1 -> steps st2 st3 new2 -> new = new1 ++ new2 ->
  steps st1 st3 new.
Proof.
  intros (Hf1 & Hc1 & Hk1) (Hf2 & Hc2 & Hk2) ->.
  repeat split; [congruence..|]. rewrite Hk2, Hk1. by rewrite app_assoc.
Qed.

Lemma steps_quiet_r st1 st2 st3 new :
  steps st1 st2 new -> steps st2 st3 [] -> steps st1 st3 new.
Proof.
  intros H1 H2. eapply steps_trans; [exact H1|exact H2|].
  by rewrite app_nil_r.
Qed.

Lemma steps_quiet_l st1 st2 st3 new :
  steps st1 st2 [] -> steps st2 st3 new -> steps st1 st3 new.
Proof. intros H1 H2. eapply steps_trans; [exact H1|exact H2|reflexivity]. Qed.

Lemma steps_flushCacheDMLs c st : steps st (flushCacheDMLs c st) [].
Proof.
  unfold MySQLBackend.flushCacheDMLs. destruct (_ && _); [|apply steps_refl].
  destruct (reduceReplace _ _) as [qs vs]. by apply steps_same.
Qed.

Lemma steps_addApproximateSize st n : steps st (addApproximateSize st n) [].
Proof. by apply steps_same. Qed.

Lemma steps_recordCalls st cs : steps st (recordCalls st cs) cs.
Proof. repeat split. Qed.

Lemma steps_callAndAppend st call : steps st (callAndAppend st call).2 [call].
Proof.
  unfold MySQLBackend.callAndAppend.
  destruct (generate call) as [query args].
  destruct (negb _); cbn [snd]; [|apply steps_recordCalls].
  eapply steps_quiet_r; [apply steps_recordCalls|by apply steps_same].
Qed.

Lemma steps_prepareRow flag c quoteTable st row :
  steps st (prepareRow c quoteTable flag st row) (rowCalls c quoteTable flag row).
Proof.
  unfold MySQLBackend.prepareRow, rowCalls.
  destruct (negb (bool_decide (PreColumns row = []))) eqn:Hpre;
    destruct (negb (bool_decide (Columns row = []))) eqn:Hcol; cbn [andb].
  - pose proof (steps_callAndAppend (flushCacheDMLs c st)
                  (prepareUpdate quoteTable (PreColumns row) (Columns row)
                                 (ForceReplicate c))) as Hcall.
    destruct (callAndAppend _ _) as [query st2]. cbn [snd] in Hcall.
    eapply steps_quiet_l; [apply steps_flushCacheDMLs|].
    eapply steps_quiet_r; [exact Hcall|apply steps_addApproximateSize].
  - pose proof (steps_callAndAppend (flushCacheDMLs c st)
                  (prepareDelete quoteTable (PreColumns row)
                                 (ForceReplicate c))) as Hcall.
    destruct (callAndAppend _ _) as [query st2]. cbn [snd] in Hcall.
    eapply steps_quiet_l; [apply steps_flushCacheDMLs|].
    eapply steps_quiet_r; [exact Hcall|apply steps_addApproximateSize].
  - destruct (BatchReplaceEnabled c); cbn [negb app].
    + destruct (generate _) as [query args].
      eapply steps_quiet_r; [|apply steps_addApproximateSize].
      destruct (negb (String.eqb query "")); [|apply steps_recordCalls].
      eapply steps_quiet_r; [apply steps_recordCalls|by apply steps_same].
    + pose proof (steps_callAndAppend st
                    (prepareReplace quoteTable (Columns row) true flag))
        as Hcall.
      destruct (callAndAppend _ _) as [query st2]. cbn [snd] in Hcall.
      eapply steps_quiet_r; [exact Hcall|apply steps_addApproximateSize].
  - apply steps_addApproximateSize.
Qed.

Lemma steps_fold {A} (f : PrepState -> A -> PrepState) (g : A -> list Call)
    (l : list A) :
  (forall st a, steps st (f st a) (g a)) ->
  forall st, steps st (fold_left f l st) (concat (map g l)).
Proof.
  intros Hf. induction l as [|a l IH]; intros st; simpl.
  - apply steps_refl.
  - eapply steps_trans; [apply Hf|apply IH|reflexivity].
Qed.

Lemma steps_fold_quiet {A} (f : PrepState -> A -> PrepState) (l : list A) :
  (forall st a, steps st (f st a) []) ->
  forall st, steps st (fold_left f l st) [].
Proof.
  intros Hf. induction l as [|a l IH]; intros st; simpl.
  - apply steps_refl.
  - eapply steps_quiet_l; [apply Hf|apply IH].
Qed.

Lemma steps_prepareEventDMLs c flag event firstRow st :
  let st' := prepareEventDMLs c flag event firstRow st in
  translateToInsert st' = translateToInsert st
  /\ psCallbacks st'
     = psCallbacks st ++ match Callback event with
                         | Some cb => [cb]
                         | None => []
                         end
  /\ calls st' = calls st ++ eventCalls QuoteString c flag event firstRow.
Proof.
  unfold MySQLBackend.prepareEventDMLs, eventCalls.
  set (st1 := match Callback event with Some cb => _ | None => st end).
  assert (H1 : translateToInsert st1 = translateToInsert st
               /\ psCallbacks st1
                  = psCallbacks st ++ match Callback event with
                                      | Some cb => [cb]
                                      | None => []
                                      end
               /\ calls st1 = calls st).
  { subst st1. destruct (Callback event); simpl; by rewrite ?app_nil_r. }
  destruct H1 as (Hf1 & Hc1 & Hk1). clearbody st1.
  rewrite <- Hf1, <- Hc1, <- Hk1.
  destruct (_ && _).
  - eapply steps_quiet_r;
      [|apply steps_fold_quiet; intros; apply steps_addApproximateSize].
    eapply steps_quiet_l; [apply steps_flushCacheDMLs|].
    eapply steps_quiet_r; [|apply steps_addApproximateSize].
    eapply steps_quiet_r; [apply steps_recordCalls|by apply steps_same].
  - apply steps_fold. intros. apply steps_prepareRow.
Qed.

Lemma steps_prepareEvent c st event firstRow rest :
  Rows event = firstRow :: rest ->
  let flag :=
    translateToInsert st && (ReplicatingTs firstRow <? CommitTs firstRow) in
  let st' := prepareEvent c st event in
  translateToInsert st' = flag
  /\ psCallbacks st'
     = psCallbacks st ++ match Callback event with
                         | Some cb => [cb]
                         | None => []
                         end
  /\ calls st' = calls st ++ eventCalls QuoteString c flag event firstRow.
Proof.
  intros Hrows flag. unfold MySQLBackend.prepareEvent. rewrite Hrows.
  fold flag. rewrite <- Hrows.
  exact (steps_prepareEventDMLs c flag event firstRow
           (mkPrep (if bool_decide (last (psStartTs st)
                                    = Some (StartTs firstRow))
                    then psStartTs st else psStartTs st ++ [StartTs firstRow])
                   (psSqls st) (psValues st) (psCallbacks st) (replaces st)
                   flag (wrap64 (psRowCount st + len (Rows event)))
                   (psApproximateSize st) (calls st))).
Qed.

Lemma prepareEvent_flag c st event :
  translateToInsert (prepareEvent c st event)
  = translateToInsert st && committedAfterReplicating event.
Proof.
  unfold committedAfterReplicating.
  destruct (Rows event) as [|firstRow rest] eqn:Hrows.
  - unfold MySQLBackend.prepareEvent. rewrite Hrows. by rewrite andb_true_r.
  - apply (steps_prepareEvent c st event firstRow rest Hrows).
Qed.

Lemma prepareEvent_callbacks c st event :
  psCallbacks (prepareEvent c st event)
  = psCallbacks st ++ acceptedCallbacks [event].
Proof.
  simpl. destruct (Rows event) as [|firstRow rest] eqn:Hrows.
  - unfold MySQLBackend.prepareEvent. rewrite Hrows. by rewrite app_nil_r.
  - destruct (steps_prepareEvent c st event firstRow rest Hrows)
      as (_ & -> & _).
    by destruct (Callback event).
Qed.

Lemma fold_prepareEvent_flag c evs :
  forall st,
    translateToInsert (fold_left (prepareEvent c) evs st)
    = translateToInsert st && forallb committedAfterReplicating evs.
Proof.
  induction evs as [|event evs IH]; intros st; simpl.
  - by rewrite andb_true_r.
  - rewrite IH, prepareEvent_flag. by rewrite andb_assoc.
Qed.

Lemma acceptedCallbacks_cons event evs :
  acceptedCallbacks (event :: evs)
  = acceptedCallbacks [event] ++ acceptedCallbacks evs.
Proof. simpl. destruct (Rows event), (Callback event); reflexivity. Qed.

Lemma fold_prepareEvent_callbacks c evs :
  forall st,
    psCallbacks (fold_left (prepareEvent c) evs st)
    = psCallbacks st ++ acceptedCallbacks evs.
Proof.
  induction evs as [|event evs IH]; intros st.
  - simpl. by rewrite app_nil_r.
  - cbn [fold_left]. rewrite IH, prepareEvent_callbacks.
    rewrite (acceptedCallbacks_cons event evs). by rewrite app_assoc.
Qed.

Lemma rowCalls_insertsAs c quoteTable flag row :
  Forall (insertsAs flag) (rowCalls c quoteTable flag row).
Proof.
  unfold rowCalls.
  destruct (negb (bool_decide (PreColumns row = [])));
    destruct (negb (bool_decide (Columns row = []))); cbn [andb app];
    repeat constructor.
Qed.

Lemma batchSingleTxnDmls_insertsAs c event tableInfo flag :
  Forall (insertsAs flag) (batchSingleTxnDmls c event tableInfo flag).
Proof.
  unfold batchSingleTxnDmls.
  destruct (groupRowsByType c event tableInfo) as [[ins upd] del].
  rewrite !Forall_app. split; [|split].
  - apply List.Forall_map, Forall_forall. intros; exact I.
  - destruct (IsTiDB c); apply Forall_concat, List.Forall_map, Forall_forall;
      intros rows_ _.
    + unfold genUpdateSQL. destruct (_ <? _); [repeat constructor|].
      apply List.Forall_map, Forall_forall. intros; exact I.
    + apply List.Forall_map, Forall_forall. intros; exact I.
  - apply List.Forall_map, Forall_forall. intros rows_ _.
    destruct flag; reflexivity.
Qed.

Lemma eventCalls_insertsAs c flag event firstRow :
  Forall (insertsAs flag) (eventCalls QuoteString c flag event firstRow).
Proof.
  unfold eventCalls. destruct (_ && _).
  - apply batchSingleTxnDmls_insertsAs.
  - apply Forall_concat, List.Forall_map, Forall_forall. intros row _.
    apply rowCalls_insertsAs.
Qed.

(** C1, as the code has it.  [prepareDMLs] keeps one decision across the
    events of the buffer: for an event with rows, the decision is what the
    specification computes for the event alone, AND every earlier event of
    the buffer that has rows was committed after its table began to be
    replicated.  The generators are called for the event with exactly this
    decision: each call that generates the statement of insert rows
    generates INSERT when it is true and REPLACE when it is false. *)
Theorem translate_to_insert_latched (c : Config)
    (pre : list TxnCallbackableEvent) (event : TxnCallbackableEvent)
    (firstRow : RowChangedEvent) (rest : list RowChangedEvent) :
  Rows event = firstRow :: rest ->
  let flag :=
    translateAlone c event && forallb committedAfterReplicating pre in
  translateToInsert (prepareLoop c (pre ++ [event])) = flag
  /\ calls (prepareLoop c (pre ++ [event]))
     = calls (prepareLoop c pre) ++ eventCalls QuoteString c flag event firstRow
  /\ Forall (insertsAs flag) (eventCalls QuoteString c flag event firstRow).
Proof.
  intros Hrows flag.
  assert (Hflag : flag = translateToInsert (prepareLoop c pre)
                         && (ReplicatingTs firstRow <? CommitTs firstRow)).
  { subst flag. unfold MySQLBackend.prepareLoop.
    rewrite fold_prepareEvent_flag. unfold translateAlone,
      committedAfterReplicating at 1. rewrite Hrows. cbn [translateToInsert
      prepareInit].
    destruct (EnableOldValue c), (SafeMode c),
      (forallb committedAfterReplicating pre),
      (ReplicatingTs firstRow <? CommitTs firstRow); reflexivity. }
  unfold MySQLBackend.prepareLoop at 1 2. rewrite !fold_left_app.
  cbn [fold_left]. fold (prepareLoop c pre).
  destruct (steps_prepareEvent c (prepareLoop c pre) event firstRow rest Hrows)
    as (Hf & _ & Hk).
  rewrite <- Hflag in Hf, Hk.
  split; [exact Hf|]. split; [exact Hk|]. apply eventCalls_insertsAs.
Qed.

(** **** Retries *)

Section RetryFacts.

Variable op : nat -> bool -> option Err * bool.
Variable isRetryable : Err -> bool.

Lemma errAt_succ (start : nat) fallback (j : nat) :
  errAt op start fallback (S j) = errAt op (S start) (op start fallback).2 j.
Proof. unfold errAt. cbn [fallbackAt]. by rewrite Nat.add_succ_r. Qed.

Lemma retryDo_outcome (k : nat) :
  forall (more start : nat) fallback,
    (k <= more)%nat ->
    (forall j, (j < k)%nat ->
       exists e, errAt op start fallback j = Some e /\ isRetryable e = true) ->
    (forall e, errAt op start fallback k = Some e -> isRetryable e = false ->
       retryDo op isRetryable more start fallback = (Some e, S (start + k)))
    /\ (errAt op start fallback k = None ->
        retryDo op isRetryable more start fallback = (None, S (start + k))).
Proof.
  induction k as [|k IH]; intros more start fallback Hle Hpre.
  - unfold errAt. cbn [fallbackAt]. rewrite Nat.add_0_r.
    destruct more; cbn [retryDo]; destruct (op start fallback) as [[e'|] fb'];
      cbn [fst]; (split; [intros e [= ->] ->; reflexivity|intros [=]; reflexivity]).
  - destruct more as [|more]; [lia|].
    destruct (Hpre 0%nat) as (e0 & He0 & Hr0); [lia|].
    unfold errAt in He0. cbn [fallbackAt] in He0. rewrite Nat.add_0_r in He0.
    rewrite !errAt_succ. cbn [retryDo].
    destruct (op start fallback) as [[e'|] fb'] eqn:Hop; cbn [fst snd] in *;
      [|discriminate].
    injection He0 as ->. rewrite Hr0. cbn [negb].
    rewrite Nat.add_succ_r. apply (IH more (S start) fb'); [lia|].
    intros j Hj. destruct (Hpre (S j)) as (e & He & Hr); [lia|].
    rewrite errAt_succ, Hop in He. eauto.
Qed.

End RetryFacts.

Variable IsRetryableError : Err -> bool.
Variables ErrDupEntry ErrNoSuchTable ErrBadDB ErrUnknownSystemVariable : Z.
Variable db : nat -> TxnAnswer.

#[local] Abbreviation isRetryableDMLError :=
  (isRetryableDMLError IsRetryableError ErrDupEntry ErrNoSuchTable ErrBadDB).
#[local] Abbreviation prepareDMLs :=
  (prepareDMLs generate reduceReplace QuoteString).
#[local] Abbreviation execOnce :=
  (execOnce ErrDupEntry ErrUnknownSystemVariable db).
#[local] Abbreviation execDMLWithMaxRetries :=
  (execDMLWithMaxRetries IsRetryableError ErrDupEntry ErrNoSuchTable ErrBadDB
                         ErrUnknownSystemVariable db).
#[local] Abbreviation Flush :=
  (Flush generate reduceReplace QuoteString IsRetryableError ErrDupEntry
         ErrNoSuchTable ErrBadDB ErrUnknownSystemVariable db).

Lemma isRetryableDMLError_false e code :
  getSQLErrCode e = Some code ->
  code = ErrDupEntry \/ code = ErrNoSuchTable \/ code = ErrBadDB ->
  isRetryableDMLError e = false.
Proof.
  intros Hcode Hin. unfold MySQLBackend.isRetryableDMLError. rewrite Hcode.
  destruct (negb (IsRetryableError e)); [reflexivity|].
  destruct Hin as [->|[->| ->]]; rewrite Z.eqb_refl, ?orb_true_r; reflexivity.
Qed.

Lemma prepareDMLs_callbacks s :
  callbacks (prepareDMLs s) = acceptedCallbacks (events s).
Proof.
  unfold MySQLBackend.prepareDMLs. cbn [callbacks].
  destruct (steps_flushCacheDMLs (cfg s) (prepareLoop (cfg s) (events s)))
    as (_ & -> & _).
  unfold MySQLBackend.prepareLoop. by rewrite fold_prepareEvent_callbacks.
Qed.

(** C7.  A flush of a buffer with rows, whose statements and arguments pair
    up, after [k] tries that failed with retryable errors ([k] within the
    retry bound).  If the next try fails with an SQL error whose number is
    duplicate entry, no such table or unknown database, then the error is
    not retryable, [execDMLWithMaxRetries] returns it after exactly that
    try, [Flush] returns it, the buffer is kept and no callback is called.
    If the next try commits, [Flush] succeeds and calls the callbacks of the
    buffered events that have rows, in the order the events were accepted.
    Whenever [Flush] does not succeed, no callback is called. *)
Theorem non_retryable_errors_surface (s : mysqlBackend) (k : nat) :
  rows s <> 0 ->
  length (sqls (prepareDMLs s)) = length (values (prepareDMLs s)) ->
  (k <= Z.to_nat (dmlMaxRetry s) - 1)%nat ->
  let op := execOnce s (prepareDMLs s) in
  let fallback :=
    maxAllowedPacket s <? wrap64 (approximateSize (prepareDMLs s) * 2) in
  (forall j, (j < k)%nat ->
     exists e, errAt op (attempts s) fallback j = Some e
               /\ isRetryableDMLError e = true) ->
  (forall e code,
     errAt op (attempts s) fallback k = Some e ->
     getSQLErrCode e = Some code ->
     code = ErrDupEntry \/ code = ErrNoSuchTable \/ code = ErrBadDB ->
     isRetryableDMLError e = false
     /\ execDMLWithMaxRetries s (prepareDMLs s)
        = Some (Some e, S (attempts s + k))
     /\ Flush s
        = (FlushErr (wrapWith Trace e),
           mkBackend (cfg s) (dmlMaxRetry s) (events s) (rows s)
                     (maxAllowedPacket s) (S (attempts s + k)) (invoked s)))
  /\ (errAt op (attempts s) fallback k = None ->
      Flush s
      = (FlushOk,
         mkBackend (cfg s) (dmlMaxRetry s) [] 0 (maxAllowedPacket s)
                   (S (attempts s + k))
                   (invoked s ++ acceptedCallbacks (events s))))
  /\ ((Flush s).1 <> FlushOk -> invoked (Flush s).2 = invoked s).
Proof.
  intros Hrows Hlen Hk op fallback Hpre.
  destruct (retryDo_outcome op isRetryableDMLError k
              (Z.to_nat (dmlMaxRetry s) - 1) (attempts s) fallback Hk Hpre)
    as [Hstop Hdone].
  assert (Hexec : execDMLWithMaxRetries s (prepareDMLs s)
                  = Some (retryDo op isRetryableDMLError
                            (Z.to_nat (dmlMaxRetry s) - 1) (attempts s)
                            fallback)).
  { unfold MySQLBackend.execDMLWithMaxRetries.
    by rewrite (bool_decide_eq_true_2 _ Hlen). }
  assert (Hflush : Flush s
                   = match execDMLWithMaxRetries s (prepareDMLs s) with
                     | None => (FlushPanic, s)
                     | Some (Some err, n) =>
                         (FlushErr (wrapWith Trace err),
                          mkBackend (cfg s) (dmlMaxRetry s) (events s) (rows s)
                                    (maxAllowedPacket s) n (invoked s))
                     | Some (None, n) =>
                         (FlushOk,
                          mkBackend (cfg s) (dmlMaxRetry s) [] 0
                                    (maxAllowedPacket s) n
                                    (invoked s ++ callbacks (prepareDMLs s)))
                     end).
  { unfold MySQLBackend.Flush. apply Z.eqb_neq in Hrows. by rewrite Hrows. }
  split; [|split].
  - intros e code He Hcode Hin.
    pose proof (isRetryableDMLError_false e code Hcode Hin) as Hnr.
    split; [exact Hnr|]. rewrite Hflush, Hexec, (Hstop e He Hnr). by split.
  - intros Hnone. rewrite Hflush, Hexec, (Hdone Hnone).
    by rewrite prepareDMLs_callbacks.
  - rewrite Hflush.
    destruct (execDMLWithMaxRetries s (prepareDMLs s)) as [[[err|] n]|];
      cbn [fst snd invoked]; congruence.
Qed.

End Facts.

(** **** The properties at work *)

(** Two inserts wait in the buffer; the first was committed before its table
    began to be replicated.  Both are generated as REPLACE. *)
Lemma translate_to_insert_example :
  translateToInsert
    (prepareLoop exampleGenerate exampleReduceReplace exampleQuoteString
                 exampleConfig ([insertEventAt 5 1%nat] ++ [insertEventAt 20 2%nat]))
  = translateAlone exampleConfig (insertEventAt 20 2%nat)
    && forallb committedAfterReplicating [insertEventAt 5 1%nat]
  /\ calls
       (prepareLoop exampleGenerate exampleReduceReplace exampleQuoteString
                    exampleConfig
                    ([insertEventAt 5 1%nat] ++ [insertEventAt 20 2%nat]))
     = calls
         (prepareLoop exampleGenerate exampleReduceReplace exampleQuoteString
                      exampleConfig [insertEventAt 5 1%nat])
       ++ eventCalls exampleQuoteString exampleConfig
            (translateAlone exampleConfig (insertEventAt 20 2%nat)
             && forallb committedAfterReplicating [insertEventAt 5 1%nat])
            (insertEventAt 20 2%nat) (insertRowAt 20)
  /\ Forall
       (insertsAs
          (translateAlone exampleConfig (insertEventAt 20 2%nat)
           && forallb committedAfterReplicating [insertEventAt 5 1%nat]))
       (eventCalls exampleQuoteString exampleConfig
          (translateAlone exampleConfig (insertEventAt 20 2%nat)
           && forallb committedAfterReplicating [insertEventAt 5 1%nat])
          (insertEventAt 20 2%nat) (insertRowAt 20)).
Proof.
  exact (translate_to_insert_latched exampleGenerate exampleReduceReplace
           exampleQuoteString exampleConfig [insertEventAt 5 1%nat]
           (insertEventAt 20 2%nat) (insertRowAt 20) [] eq_refl).
Defined.

(** C1 as stated fails.  Old values are enabled, safe mode is off, and the
    second event of the buffer was committed at 20, after its table began to
    be replicated at 10: computed for the event alone, the decision is
    INSERT.  The first event was committed at 5, so the code generates the
    insert row of the second event with the decision false, as REPLACE. *)
Lemma translate_to_insert_depends_on_batch :
  translateAlone exampleConfig (insertEventAt 20 2%nat) = true
  /\ calls
       (prepareLoop exampleGenerate exampleReduceReplace exampleQuoteString
                    exampleConfig [insertEventAt 5 1%nat; insertEventAt 20 2%nat])
     = [prepareReplace "test.t" (Columns (insertRowAt 5)) true false;
        prepareReplace "test.t" (Columns (insertRowAt 20)) true false]
  /\ sqls
       (prepareDMLs exampleGenerate exampleReduceReplace exampleQuoteString
                    (exampleBackend
                       [insertEventAt 5 1%nat; insertEventAt 20 2%nat]))
     = ["REPLACE"; "REPLACE"]%string.
Proof. repeat split. Qed.

(** The first try loses its connection, the second meets a duplicate entry:
    [Flush] returns the duplicate-entry error after two tries and calls no
    callback. *)
Lemma non_retryable_errors_example :
  Flush exampleGenerate exampleReduceReplace exampleQuoteString
        exampleIsRetryableError exampleErrDupEntry exampleErrNoSuchTable
        exampleErrBadDB exampleErrUnknownSystemVariable failingDB
        (exampleBackend [insertEventAt 20 1%nat])
  = (FlushErr
       (mkErr (CauseMySQL 1062)
              [Trace; Trace; WithMessage "Failed query info: INSERT; ";
               WrapMySQLDuplicateEntry]),
     mkBackend exampleConfig 8 [insertEventAt 20 1%nat] 1 4194304 2 []).
Proof.
  refine (proj2 (proj2 (proj1
            (non_retryable_errors_surface exampleGenerate exampleReduceReplace
               exampleQuoteString exampleIsRetryableError exampleErrDupEntry
               exampleErrNoSuchTable exampleErrBadDB
               exampleErrUnknownSystemVariable failingDB
               (exampleBackend [insertEventAt 20 1%nat]) 1 _ eq_refl _ _)
            (mkErr (CauseMySQL 1062)
                   [Trace; WithMessage "Failed query info: INSERT; ";
                    WrapMySQLDuplicateEntry])
            1062 eq_refl eq_refl (or_introl eq_refl)))).
  - apply Z.eqb_neq. reflexivity.
  - apply Nat.leb_le. reflexivity.
  - intros j Hj. assert (j = 0%nat) as -> by lia.
    eexists. split; reflexivity.
Defined.

End MySQLBackendFacts.

(** ** Further properties of the DDL puller *)

Module DDLPullerMetaFacts.
Import DDLPuller DDLPullerSpec DDLPullerMeta.

(** X1.  The finders [findDBByName], [findTableByName] and
    [findColumnByName], which are the loop [findByName] over databases,
    tables and columns: when one returns an element, that element is in the
    list, has the name asked for, and no element before it has that name;
    when one returns an error, no element of the list has the name. *)
Theorem findByName_first_match {A : Type} (nameL : A -> string)
    (what : string) (xs : list A) (name : string) :
  match findByName nameL what xs name with
  | inr x =>
      exists pre post,
        xs = pre ++ x :: post /\ nameL x = name
        /\ Forall (fun y => nameL y <> name) pre
  | inl _ => Forall (fun y => nameL y <> name) xs
  end.
Proof.
  induction xs as [|x rest IH]; simpl.
  - constructor.
  - destruct (String.eqb (nameL x) name) eqn:Heq.
    + apply String.eqb_eq in Heq. exists [], rest. auto.
    + apply String.eqb_neq in Heq.
      destruct (findByName nameL what rest name) as [err|y].
      * by constructor.
      * destruct IH as (pre & post & -> & Hy & Hpre).
        exists (x :: pre), post. split; [reflexivity|].
        split; [exact Hy|]. by constructor.
Qed.

Lemma findByName_found {A : Type} (nameL : A -> string) what xs name x :
  findByName nameL what xs name = inr x -> x ∈ xs /\ nameL x = name.
Proof.
  induction xs as [|y rest IH]; simpl; [discriminate|].
  destruct (String.eqb (nameL y) name) eqn:Heq.
  - intros [= ->]. apply String.eqb_eq in Heq. split; [|exact Heq].
    apply elem_of_cons. by left.
  - intros Hf. destruct (IH Hf) as [Hin Hn]. split; [|exact Hn].
    apply elem_of_cons. by right.
Qed.

(** X2.  When [initJobTableMeta] reads the job table from the KV store
    without an error, what it stores is the table named [tidb_ddl_job] of
    the database named [SystemDB], both found in the meta snapshot at the
    current version, wrapped with the schema name [SystemDB] and its
    original table name, together with the id of that table's column named
    [job_meta]. *)
Theorem readJobTableMeta_sound (SystemDB : string) (kvStorage : KVStorage)
    (t : WrappedTableInfo) (colID : Z) :
  readJobTableMeta SystemDB kvStorage = inr (t, colID) ->
  exists version dbInfos db tbls tableInfo col,
    CurrentVersion kvStorage = inr version
    /\ ListDatabases (GetSnapshotMeta kvStorage version) = inr dbInfos
    /\ db ∈ dbInfos /\ mdNameL db = SystemDB
    /\ ListTables (GetSnapshotMeta kvStorage version) (mdID db) = inr tbls
    /\ tableInfo ∈ tbls /\ mtNameL tableInfo = "tidb_ddl_job"
    /\ col ∈ mtColumns tableInfo /\ ciNameL col = "job_meta"
    /\ t = mkWrapped SystemDB (mtNameO tableInfo) (mtNameO tableInfo)
    /\ colID = ciID col.
Proof.
  unfold readJobTableMeta, findDBByName, findTableByName, findColumnByName.
  destruct (CurrentVersion kvStorage) as [e|version]; [discriminate|].
  destruct (ListDatabases _) as [e|dbInfos] eqn:Hdbs; [discriminate|].
  destruct (findByName mdNameL _ dbInfos SystemDB) as [e|db] eqn:Hdb;
    [discriminate|].
  destruct (ListTables _ _) as [e|tbls] eqn:Htbls; [discriminate|].
  destruct (findByName mtNameL _ tbls _) as [e|tableInfo] eqn:Htbl;
    [discriminate|].
  destruct (findByName ciNameL _ _ _) as [e|col] eqn:Hcol; [discriminate|].
  intros [= <- <-].
  apply findByName_found in Hdb as [Hdb1 Hdb2].
  apply findByName_found in Htbl as [Htbl1 Htbl2].
  apply findByName_found in Hcol as [Hcol1 Hcol2].
  exists version, dbInfos, db, tbls, tableInfo, col.
  unfold WrapTableInfo. rewrite Hdb2. repeat split; done.
Qed.

(** In the example store the job table is found with the column id 2. *)
Lemma readJobTableMeta_example :
  readJobTableMeta "mysql" exampleKVStorage
  = inr (mkWrapped "mysql" "tidb_ddl_job" "tidb_ddl_job", 2)
  /\ exists version dbInfos db tbls tableInfo col,
       CurrentVersion exampleKVStorage = inr version
       /\ ListDatabases (GetSnapshotMeta exampleKVStorage version)
          = inr dbInfos
       /\ db ∈ dbInfos /\ mdNameL db = "mysql"
       /\ ListTables (GetSnapshotMeta exampleKVStorage version) (mdID db)
          = inr tbls
       /\ tableInfo ∈ tbls /\ mtNameL tableInfo = "tidb_ddl_job"
       /\ col ∈ mtColumns tableInfo /\ ciNameL col = "job_meta"
       /\ mkWrapped "mysql" "tidb_ddl_job" "tidb_ddl_job"
          = mkWrapped "mysql" (mtNameO tableInfo) (mtNameO tableInfo)
       /\ 2 = ciID col.
Proof.
  split; [reflexivity|].
  apply (readJobTableMeta_sound "mysql" exampleKVStorage). reflexivity.
Defined.

End DDLPullerMetaFacts.

Module DDLPullerRunFacts.
Import DDLPuller DDLPullerSpec DDLPullerMeta.

Section Facts.

Context {St F : Type} `{!SchemaStorage St} `{!Filter F}.
Variable IsSchemaDDL : ActionType -> bool.

#[local] Abbreviation Puller := (@ddlJobPullerImpl St F).

(** What [handleJob] does to a puller with a schema storage: nothing; or
    the storage has handled the job and failed; or the storage has handled
    the job and the resolved timestamp is the job's [FinishedTS], which
    exceeds the one held before.  Only in the last case can the job be
    handed on. *)
Lemma handleJob_cases (p : Puller) (s : St) job :
  schemaStorage p = Some s ->
  let r := handleJob IsSchemaDDL p job in
  FinishedTS (BinlogInfo r.1.2) = FinishedTS (BinlogInfo job)
  /\ ((r.2 = p /\ r.1.1 <> Return false None)
      \/ (exists s', r.2 = setSchemaStorage p (Some s')
                     /\ r.1.1 <> Return false None)
      \/ (exists s',
            r.2 = setResolvedTs (setSchemaStorage p (Some s'))
                                (FinishedTS (BinlogInfo job))
            /\ resolvedTs p < FinishedTS (BinlogInfo job))).
Proof.
  intros Hs. unfold handleJob, getResolvedTs. rewrite Hs.
  destruct (_ || _) eqn:Hguard.
  { simpl. split; [reflexivity|]. left. split; [reflexivity|discriminate]. }
  apply orb_false_iff in Hguard as [Hts _]. apply Z.leb_gt in Hts.
  pose proof (DDLPullerFacts.FillSchemaName_fields (GetLastSnapshot s) job)
    as Hfill.
  destruct (FillSchemaName (GetLastSnapshot s) job) as [job1 [err|]].
  - simpl in Hfill. destruct Hfill as (_ & _ & _ & _ & Hb & _).
    destruct (ShouldDiscardDDL _ _ _ _); simpl; rewrite Hb;
      (split; [reflexivity|]); left; (split; [reflexivity|discriminate]).
  - pose proof (DDLPullerFacts.filterByType_FinishedTS p (GetLastSnapshot s)
                  job1) as Hfin.
    simpl in Hfill. destruct Hfill as (_ & _ & _ & _ & Hb & _).
    destruct (filterByType p (GetLastSnapshot s) job1)
      as [[[|] [err|]|] job2]; simpl in Hfin; rewrite Hb in Hfin;
      try (simpl; split; [exact Hfin|]; left;
           split; [reflexivity|discriminate]).
    unfold applyJob. destruct (HandleDDLJob s job2) as [s' [e|]].
    + destruct (TableInfo_ (BinlogInfo job2)); simpl;
        (split; [exact Hfin|]); right; left; exists s';
        (split; [reflexivity|discriminate]).
    + simpl. split; [exact Hfin|]. right. right. exists s'.
      rewrite Hfin. split; [reflexivity|exact Hts].
Qed.

(** X3.  No DDL job is applied twice.  When [handleJob] on a puller with a
    schema storage has moved the resolved timestamp, the timestamp is the
    job's [FinishedTS] and exceeds the one held before; handling the same
    job again is then a skip without an error that leaves the job and the
    puller as they are, whatever the first call returned, an
    eligible-became-ineligible error included. *)
Theorem applied_job_is_stale (p : Puller) (s : St) job :
  schemaStorage p = Some s ->
  let p' := (handleJob IsSchemaDDL p job).2 in
  resolvedTs p' <> resolvedTs p ->
  resolvedTs p' = FinishedTS (BinlogInfo job)
  /\ resolvedTs p < resolvedTs p'
  /\ handleJob IsSchemaDDL p' job = (Return true None, job, p').
Proof.
  intros Hs p' Hmoved. subst p'.
  destruct (handleJob_cases p s job Hs) as [_ Hcases].
  cbv zeta in Hcases.
  destruct Hcases as [[Hp _]|[(s' & Hp & _)|(s' & Hp & Hlt)]];
    rewrite Hp in *.
  - congruence.
  - simpl in Hmoved. congruence.
  - simpl. split; [reflexivity|]. split; [exact Hlt|].
    unfold handleJob, getResolvedTs. simpl. by rewrite Z.leb_refl.
Qed.

(** What [handleJob] never touches. *)
Lemma handleJob_frame (p : Puller) job :
  let p' := (handleJob IsSchemaDDL p job).2 in
  outputCh p' = outputCh p /\ filter p' = filter p
  /\ ddlJobsTable p' = ddlJobsTable p
  /\ jobMetaColumnID p' = jobMetaColumnID p.
Proof.
  unfold handleJob. destruct (schemaStorage p) as [s|]; [|simpl; tauto].
  destruct (_ || _); [simpl; tauto|].
  destruct (FillSchemaName (GetLastSnapshot s) job) as [job1 [err|]].
  - destruct (ShouldDiscardDDL _ _ _ _); simpl; tauto.
  - destruct (filterByType p (GetLastSnapshot s) job1)
      as [[[|] [err|]|] job2]; try (simpl; tauto).
    unfold applyJob. destruct (HandleDDLJob s job2) as [s' [e|]].
    + destruct (TableInfo_ (BinlogInfo job2)); simpl; tauto.
    + simpl. tauto.
Qed.

(** **** [handleRenameTables] *)

Lemma loopOver_done (flt : F) snap tp query cs :
  forall acc r,
    loopOver flt snap tp query cs acc = LoopDone r ->
    Forall (fun c => rejected flt snap tp c = false) cs.
Proof.
  induction cs as [|c rest IH]; intros acc r Hloop; [constructor|].
  simpl in Hloop. destruct (skipped flt snap tp c) eqn:Hskip.
  - constructor; [by apply DDLPullerFacts.skipped_not_rejected|eauto].
  - destruct (rejected flt snap tp c) eqn:Hrej; [discriminate|].
    constructor; eauto.
Qed.

Lemma children_maps (cs : list Child) :
  children (map c_info cs) (map c_oldSchemaID cs) (map c_newSchemaID cs)
           (map c_newTableName cs) (map c_oldTableID cs)
           (map c_oldSchemaName cs)
  = cs.
Proof.
  induction cs as [|[i a b c d e] cs IH]; [reflexivity|].
  simpl. by rewrite IH.
Qed.

Lemma filter_kept_idem (flt : F) snap tp cs :
  List.filter (kept flt snap tp) (List.filter (kept flt snap tp) cs)
  = List.filter (kept flt snap tp) cs.
Proof.
  induction cs as [|c cs IH]; [reflexivity|]. simpl.
  destruct (kept flt snap tp c) eqn:Hk; [|exact IH].
  simpl. by rewrite Hk, IH.
Qed.

Lemma filter_kept_not_rejected (flt : F) snap tp cs :
  Forall (fun c => rejected flt snap tp c = false)
         (List.filter (kept flt snap tp) cs).
Proof.
  induction cs as [|c cs IH]; [constructor|]. simpl.
  destruct (kept flt snap tp c) eqn:Hk; [|exact IH].
  constructor; [|exact IH]. unfold kept, rejected in *.
  by destruct (oldDiscarded flt snap tp c).
Qed.

(** What a job that [handleRenameTables] hands on looks like. *)
Lemma handleRenameTables_handed_on (p : Puller) (s : St) job job' :
  schemaStorage p = Some s ->
  handleRenameTables p job = (Return false None, job') ->
  exists args,
    DecodeArgs (RawArgs job) = inr args
    /\ let cs := List.filter (kept (filter p) (GetLastSnapshot s)
                                   (JobType job))
                             (childrenOf job args) in
       cs <> []
       /\ job' = setRenameResult job
                   (Marshal (mkRenameArgs (map c_oldSchemaID cs)
                                          (map c_newSchemaID cs)
                                          (map c_newTableName cs)
                                          (map c_oldTableID cs)
                                          (map c_oldSchemaName cs)))
                   (map c_info cs).
Proof.
  intros Hs. unfold handleRenameTables.
  destruct (DecodeArgs (RawArgs job)) as [err|args] eqn:Hdec; [discriminate|].
  destruct (lengthsMatch _ args) eqn:Hlen; [|discriminate].
  simpl. rewrite Hs.
  rewrite (DDLPullerFacts.handleRenameTables_loopOver p s job args Hs Hdec
             Hlen).
  destruct (loopOver _ _ _ _ _ _) as [r|e|] eqn:Hloop; try discriminate.
  pose proof (loopOver_done _ _ _ _ _ _ _ Hloop) as Hnone.
  rewrite (DDLPullerFacts.loopOver_no_reject _ _ _ _ _ _ Hnone) in Hloop.
  injection Hloop as <-.
  destruct (bool_decide _) eqn:Hempty; [discriminate|].
  apply bool_decide_eq_false in Hempty.
  intros [= <-]. exists args. split; [reflexivity|]. simpl. split.
  - intros Hnil. apply Hempty. simpl. by rewrite Hnil.
  - reflexivity.
Qed.

(** X8.  [handleRenameTables] is idempotent on the job it hands on: when a
    RenameTables job comes back not skipped and without an error, handling
    the repacked job again, against the same schema storage and filter,
    returns it not skipped, without an error and unchanged.  The repacked
    arrays thus pass the length check, and every child retained is retained
    again. *)
Theorem handleRenameTables_idempotent (p : Puller) (s : St) job job' :
  schemaStorage p = Some s ->
  handleRenameTables p job = (Return false None, job') ->
  handleRenameTables p job' = (Return false None, job').
Proof.
  intros Hs Hfirst.
  destruct (handleRenameTables_handed_on p s job job' Hs Hfirst)
    as (args & Hdec & Hne & ->).
  set (cs := List.filter _ (childrenOf job args)) in *.
  set (args' := mkRenameArgs _ _ _ _ _).
  set (job' := setRenameResult job (Marshal args') (map c_info cs)).
  assert (Hlen : lengthsMatch (length (MultipleTableInfos (BinlogInfo job')))
                              args' = true).
  { unfold lengthsMatch. simpl. rewrite !length_map.
    by rewrite !bool_decide_eq_true_2. }
  assert (Hchildren : childrenOf job' args' = cs).
  { unfold childrenOf. simpl. apply children_maps. }
  unfold handleRenameTables.
  change (DecodeArgs (RawArgs job')) with (@inr Error _ args').
  cbv beta iota. rewrite Hlen. simpl negb. cbv iota. rewrite Hs.
  rewrite (DDLPullerFacts.handleRenameTables_loopOver p s job' args' Hs
             eq_refl Hlen).
  rewrite Hchildren.
  change (JobType job') with (JobType job).
  assert (Hloop : loopOver (filter p) (GetLastSnapshot s) (JobType job)
                    (Query job') cs emptyRemain
                  = LoopDone (retain emptyRemain cs)).
  { subst cs.
    rewrite (DDLPullerFacts.loopOver_no_reject _ _ _ _ _ _
               (filter_kept_not_rejected _ _ _ _)).
    by rewrite filter_kept_idem. }
  rewrite Hloop. simpl. rewrite bool_decide_eq_false_2.
  - reflexivity.
  - rewrite length_map. destruct cs; [done|simpl; lia].
Qed.

Section Run.

Variable IsLegacyFormatJob : RawKVEntry -> bool.
Variable ParseDDLJob :
  option WrappedTableInfo -> RawKVEntry -> Z -> Error + option Job.
Variable kvJobTableMeta : Error + (WrappedTableInfo * Z).

#[local] Abbreviation unmarshalDDL :=
  (unmarshalDDL IsLegacyFormatJob ParseDDLJob kvJobTableMeta).
#[local] Abbreviation handleRawKVEntry :=
  (handleRawKVEntry IsSchemaDDL IsLegacyFormatJob ParseDDLJob kvJobTableMeta).
#[local] Abbreviation runEntries :=
  (runEntries IsSchemaDDL IsLegacyFormatJob ParseDDLJob kvJobTableMeta).

Lemma afterResolved_frame (p : Puller) raw :
  let p1 := afterResolved p raw in
  outputCh p1 = outputCh p /\ ddlJobsTable p1 = ddlJobsTable p
  /\ jobMetaColumnID p1 = jobMetaColumnID p
  /\ resolvedTs p <= resolvedTs p1
  /\ (is_Some (schemaStorage p) -> is_Some (schemaStorage p1)).
Proof.
  unfold afterResolved, getResolvedTs. destruct (bool_decide _).
  - destruct (schemaStorage p) as [s|] eqn:Hs; simpl;
      (destruct (_ <? _) eqn:Hlt;
       [apply Z.ltb_lt in Hlt|apply Z.ltb_ge in Hlt]); simpl;
      rewrite ?Hs; repeat split; eauto; lia.
  - repeat split; auto. lia.
Qed.

(** One entry adds at most one entry to the output channel, and that one
    carries no error, the operation type and the commit timestamp of the raw
    entry; an entry that ends in an error or a panic adds nothing. *)
Lemma handleRawKVEntry_output ctxDone (p : Puller) raw :
  let r := handleRawKVEntry ctxDone p raw in
  outputCh r.2 = outputCh p
  \/ (r.1 = Ok /\ ctxDone = false
      /\ exists rawKV job,
           raw = Some rawKV
           /\ outputCh r.2
              = outputCh p
                ++ [mkEntry job (rawOpType rawKV) (CRTs rawKV) None]).
Proof.
  unfold DDLPuller.handleRawKVEntry. destruct raw as [raw|]; [|by left].
  fold (afterResolved p raw).
  pose proof (afterResolved_frame p raw) as (Ho1 & _). simpl in Ho1.
  pose proof (DDLPullerFacts.unmarshalDDL_frame IsLegacyFormatJob ParseDDLJob
                kvJobTableMeta (afterResolved p raw) raw) as Hu.
  simpl in Hu. destruct Hu as (_ & _ & _ & Ho2 & _).
  destruct (unmarshalDDL (afterResolved p raw) raw) as [[err|[job|]] p2];
    simpl in Ho2.
  - left. simpl. congruence.
  - pose proof (handleJob_frame p2 job) as (Ho3 & _). simpl in Ho3.
    destruct (handleJob IsSchemaDDL p2 job) as [[[[|] [err|]|] job'] p3];
      simpl in Ho3; try (left; simpl; congruence).
    destruct ctxDone; [left; simpl; congruence|].
    right. simpl. repeat split. exists raw, (Some job').
    split; [reflexivity|congruence].
  - destruct ctxDone; [left; simpl; congruence|].
    right. simpl. repeat split. exists raw, None.
    split; [reflexivity|congruence].
Qed.

Lemma runEntries_error_free (entries : list (bool * option RawKVEntry)) :
  forall p : Puller,
    Forall (fun e => entryErr e = None) (outputCh p) ->
    Forall (fun e => entryErr e = None) (outputCh (runEntries p entries).2).
Proof.
  induction entries as [|[ctxDone e] rest IH]; intros p Hp; [exact Hp|].
  simpl. pose proof (handleRawKVEntry_output ctxDone p e) as Hstep.
  cbv zeta in Hstep.
  assert (Hp1 : Forall (fun e => entryErr e = None)
                       (outputCh (handleRawKVEntry ctxDone p e).2)).
  { destruct Hstep as [->|(_ & _ & rawKV & job & _ & ->)]; [exact Hp|].
    apply Forall_app. split; [exact Hp|]. by repeat constructor. }
  destruct (handleRawKVEntry ctxDone p e) as [[|err|] p1];
    simpl in Hp1; [by apply IH|exact Hp1..].
Qed.

(** X4.  The job puller only appends to its output channel: after any run
    over raw entries the channel holds what it held, followed by at most one
    new entry per raw entry, and no new entry carries an error; an error
    ends the run instead of being sent. *)
Theorem run_appends_error_free_entries (p : Puller)
    (entries : list (bool * option RawKVEntry)) :
  exists new,
    outputCh (runEntries p entries).2 = outputCh p ++ new
    /\ Forall (fun e => entryErr e = None) new
    /\ (length new <= length entries)%nat.
Proof.
  revert p. induction entries as [|[ctxDone e] rest IH]; intros p.
  - exists []. simpl. rewrite app_nil_r. repeat split; [constructor|lia].
  - simpl. pose proof (handleRawKVEntry_output ctxDone p e) as Hstep.
    cbv zeta in Hstep.
    destruct (handleRawKVEntry ctxDone p e) as [res p1] eqn:Hh.
    simpl in Hstep.
    assert (Hone : exists one,
               outputCh p1 = outputCh p ++ one
               /\ Forall (fun e => entryErr e = None) one
               /\ (length one <= 1)%nat).
    { destruct Hstep as [Hsame|(_ & _ & rawKV & job & _ & Hout)].
      - exists []. rewrite app_nil_r. repeat split; [done|constructor|simpl; lia].
      - eexists. split; [exact Hout|]. split; [|simpl; lia].
        by repeat constructor. }
    destruct Hone as (one & Hout & Hone & Hlen).
    destruct res.
    + destruct (IH p1) as (new & Hnew & Hall & Hlen').
      exists (one ++ new). rewrite Hnew, Hout, app_assoc.
      split; [reflexivity|]. split; [by apply Forall_app|].
      rewrite length_app. simpl. lia.
    + exists one. simpl. repeat split; [done..|simpl; lia].
    + exists one. simpl. repeat split; [done..|simpl; lia].
Qed.

Lemma StronglySorted_snoc (l : list Z) (x : Z) :
  StronglySorted Z.lt l -> Forall (fun y => y < x) l ->
  StronglySorted Z.lt (l ++ [x]).
Proof.
  induction 1 as [|y l Hl IH Hy]; intros Hall; simpl.
  - repeat constructor.
  - inversion Hall as [|? ? Hyx Hrest]; subst. constructor.
    + by apply IH.
    + apply Forall_app. split; [exact Hy|]. by repeat constructor.
Qed.

Lemma emittedInOrder_frame ts0 (p p' : Puller) :
  emittedInOrder ts0 p ->
  outputCh p' = outputCh p -> resolvedTs p <= resolvedTs p' ->
  is_Some (schemaStorage p') ->
  emittedInOrder ts0 p'.
Proof.
  intros (_ & Hts & Hsorted & Hall) Hout Hle Hs. unfold emittedInOrder.
  rewrite Hout. repeat split; [exact Hs|lia|exact Hsorted|].
  eapply Forall_impl; [exact Hall|]. simpl. intros j Hj. lia.
Qed.

Lemma emittedInOrder_send_job ts0 (p : Puller) job op crts :
  emittedInOrder ts0 p ->
  FinishedTS (BinlogInfo job) = resolvedTs p ->
  Forall (fun j => FinishedTS (BinlogInfo j) < resolvedTs p)
         (emittedJobs (outputCh p)) ->
  ts0 < resolvedTs p ->
  emittedInOrder ts0 (send p (mkEntry (Some job) op crts None)).
Proof.
  intros (Hs & Hts & Hsorted & Hall) Hfin Hbelow Hlt.
  unfold emittedInOrder, emittedJobs, send. simpl.
  rewrite omap_app. simpl. repeat split; [exact Hs|exact Hts| |].
  - rewrite map_app. simpl. apply StronglySorted_snoc; [exact Hsorted|].
    apply Forall_map. rewrite Hfin. exact Hbelow.
  - apply Forall_app. split; [exact Hall|]. repeat constructor; lia.
Qed.

Lemma emittedInOrder_send_none ts0 (p : Puller) op crts :
  emittedInOrder ts0 p ->
  emittedInOrder ts0 (send p (mkEntry None op crts None)).
Proof.
  intros (Hs & Hts & Hsorted & Hall).
  unfold emittedInOrder, emittedJobs, send. simpl.
  rewrite omap_app. simpl. rewrite app_nil_r. by repeat split.
Qed.

Lemma handleRawKVEntry_emittedInOrder ts0 ctxDone (p : Puller) raw :
  emittedInOrder ts0 p ->
  emittedInOrder ts0 (handleRawKVEntry ctxDone p raw).2.
Proof.
  intros Hinv. unfold DDLPuller.handleRawKVEntry.
  destruct raw as [raw|]; [|exact Hinv].
  fold (afterResolved p raw).
  pose proof (afterResolved_frame p raw) as (Ho1 & _ & _ & Hle1 & Hs1).
  assert (Hinv1 : emittedInOrder ts0 (afterResolved p raw)).
  { eapply emittedInOrder_frame; [exact Hinv|exact Ho1|exact Hle1|].
    apply Hs1, Hinv. }
  clear Ho1 Hle1 Hs1 Hinv.
  pose proof (DDLPullerFacts.unmarshalDDL_frame IsLegacyFormatJob ParseDDLJob
                kvJobTableMeta (afterResolved p raw) raw) as Hu.
  simpl in Hu. destruct Hu as (Hs2 & Hts2 & _ & Ho2 & _).
  destruct (unmarshalDDL (afterResolved p raw) raw) as [res p2].
  simpl in Hs2, Hts2, Ho2.
  assert (Hinv2 : emittedInOrder ts0 p2).
  { eapply emittedInOrder_frame; [exact Hinv1|exact Ho2|lia|].
    rewrite Hs2. apply Hinv1. }
  clear Hinv1 Hs2 Hts2 Ho2. destruct res as [err|[job|]].
  - exact Hinv2.
  - destruct Hinv2 as (Hsome & Hinv2). pose proof Hsome as [s Hs].
    pose proof (handleJob_cases p2 s job Hs) as [Hfin Hcases].
    pose proof (handleJob_frame p2 job) as (Ho3 & _).
    cbv zeta in Hcases, Hfin, Ho3.
    destruct (handleJob IsSchemaDDL p2 job) as [[out job'] p3].
    simpl in Hfin, Hcases, Ho3.
    destruct Hcases as [[-> Hout]|[(s' & -> & Hout)|(s' & -> & Hlt)]].
    + destruct out as [[|] [err|]|]; try exact (conj Hsome Hinv2).
      congruence.
    + assert (emittedInOrder ts0 (setSchemaStorage p2 (Some s'))).
      { eapply emittedInOrder_frame; [exact (conj Hsome Hinv2)|done| |done].
        simpl. lia. }
      destruct out as [[|] [err|]|]; try assumption. congruence.
    + set (p3 := setResolvedTs _ _) in *.
      assert (Hinv3 : emittedInOrder ts0 p3).
      { eapply emittedInOrder_frame; [exact (conj Hsome Hinv2)|done| |done].
        simpl. lia. }
      destruct out as [[|] [err|]|]; try exact Hinv3.
      destruct ctxDone; [exact Hinv3|].
      destruct Hinv2 as (Hts & _ & Hall).
      apply emittedInOrder_send_job; [exact Hinv3|exact Hfin| |simpl; lia].
      simpl. eapply Forall_impl; [exact Hall|]. simpl. intros j Hj. lia.
  - destruct ctxDone; [exact Hinv2|].
    by apply emittedInOrder_send_none.
Qed.

(** X5.  A job puller that has a schema storage and has sent nothing yet
    sends the jobs in the order of their [FinishedTS], strictly increasing:
    after any run over raw entries, the jobs on the output channel have
    strictly increasing [FinishedTS], each greater than the resolved
    timestamp the run started with, and none greater than the resolved
    timestamp reached. *)
Theorem emitted_jobs_increase (p : Puller)
    (entries : list (bool * option RawKVEntry)) :
  is_Some (schemaStorage p) ->
  outputCh p = [] ->
  let p' := (runEntries p entries).2 in
  StronglySorted Z.lt
    (map (fun j => FinishedTS (BinlogInfo j)) (emittedJobs (outputCh p')))
  /\ Forall (fun j => resolvedTs p < FinishedTS (BinlogInfo j) <= resolvedTs p')
            (emittedJobs (outputCh p')).
Proof.
  intros Hs Hempty p'.
  assert (Hinv : emittedInOrder (resolvedTs p) p).
  { unfold emittedInOrder. rewrite Hempty. simpl.
    repeat split; [exact Hs|lia|constructor|constructor]. }
  assert (Hrun : forall entries q,
             emittedInOrder (resolvedTs p) q ->
             emittedInOrder (resolvedTs p) (runEntries q entries).2).
  { clear. induction entries as [|[ctxDone e] rest IH]; intros q Hq.
    - exact Hq.
    - simpl.
      pose proof (handleRawKVEntry_emittedInOrder (resolvedTs p) ctxDone q e
                    Hq) as Hstep.
      destruct (handleRawKVEntry ctxDone q e) as [[|err|] q1];
        simpl in Hstep; [by apply IH|exact Hstep..]. }
  destruct (Hrun entries p Hinv) as (_ & _ & Hsorted & Hall).
  split; assumption.
Qed.

(** X6.  A resolved marker is forwarded as it is.  For a raw entry of type
    Resolved, [handleRawKVEntry] advances the resolved timestamp of the
    schema storage, raises the puller's resolved timestamp to the entry's
    commit timestamp if that is greater, and parses no job.  Then, by the
    branch that the final [select] takes ([ctxDone]; with the context done
    and room in the channel the run time may take either): on the branch of
    the send, it returns no error and has sent one entry without a job, of
    type Resolved and with the entry's commit timestamp; on the branch of
    [ctx.Done()], it returns the context's error and has sent nothing, the
    timestamps being advanced all the same. *)
Theorem resolved_marker_forwarded ctxDone (p : Puller) (raw : RawKVEntry) :
  rawOpType raw = OpTypeResolved ->
  let r := handleRawKVEntry ctxDone p (Some raw) in
  resolvedTs r.2 = Z.max (resolvedTs p) (CRTs raw)
  /\ schemaStorage r.2
     = (fun s => AdvanceResolvedTs s (CRTs raw)) <$> schemaStorage p
  /\ (if ctxDone then r.1 = Fail ErrContextDone /\ outputCh r.2 = outputCh p
      else r.1 = Ok
           /\ outputCh r.2
              = outputCh p ++ [mkEntry None OpTypeResolved (CRTs raw) None]).
Proof.
  intros Hop. unfold DDLPuller.handleRawKVEntry, DDLPuller.unmarshalDDL.
  rewrite Hop. simpl. unfold getResolvedTs.
  destruct (schemaStorage p) as [s|] eqn:Hs; simpl;
    (destruct (_ <? _) eqn:Hlt;
     [apply Z.ltb_lt in Hlt|apply Z.ltb_ge in Hlt]);
    destruct ctxDone; simpl; rewrite ?Hs; repeat split; lia.
Qed.

(** X7.  The job table meta is read at most once.  Once the puller holds
    the job table, no run over raw entries replaces it or the id of its
    meta column: [initJobTableMeta] is not called again. *)
Theorem job_table_meta_kept (p : Puller) (t : WrappedTableInfo)
    (entries : list (bool * option RawKVEntry)) :
  ddlJobsTable p = Some t ->
  let p' := (runEntries p entries).2 in
  ddlJobsTable p' = Some t /\ jobMetaColumnID p' = jobMetaColumnID p.
Proof.
  revert p. induction entries as [|[ctxDone e] rest IH]; intros p Ht.
  - by split.
  - simpl.
    assert (Hstep : let p1 := (handleRawKVEntry ctxDone p e).2 in
              ddlJobsTable p1 = Some t
              /\ jobMetaColumnID p1 = jobMetaColumnID p).
    { unfold DDLPuller.handleRawKVEntry. destruct e as [raw|]; [|by split].
      fold (afterResolved p raw).
      pose proof (afterResolved_frame p raw) as (_ & Ht1 & Hc1 & _).
      simpl in Ht1, Hc1. rewrite Ht in Ht1.
      unfold DDLPuller.unmarshalDDL. rewrite Ht1.
      rewrite (bool_decide_eq_false_2 (Some t = None)) by discriminate.
      simpl.
      assert (Hemit : forall b job (q : Puller),
                 ddlJobsTable q = Some t ->
                 jobMetaColumnID q = jobMetaColumnID p ->
                 let r := (if b : bool then (Fail ErrContextDone, q)
                           else (Ok, send q (mkEntry job (rawOpType raw)
                                                     (CRTs raw) None))) in
                 ddlJobsTable r.2 = Some t
                 /\ jobMetaColumnID r.2 = jobMetaColumnID p).
      { intros [] job q Hq1 Hq2; by split. }
      destruct (negb _); [by apply Hemit|].
      destruct (ParseDDLJob _ _ _) as [err|[job|]]; [by split| |by apply Hemit].
      pose proof (handleJob_frame (afterResolved p raw) job)
        as (_ & _ & Ht3 & Hc3).
      simpl in Ht3, Hc3.
      destruct (handleJob IsSchemaDDL (afterResolved p raw) job)
        as [[[[|] [err|]|] job'] p3]; simpl in Ht3, Hc3;
        try (split; simpl; congruence).
      apply Hemit; congruence. }
    cbv zeta in Hstep.
    destruct (handleRawKVEntry ctxDone p e) as [[|err|] p1];
      simpl in Hstep; [|exact Hstep..].
    destruct Hstep as [Ht1 Hc1]. rewrite <- Hc1. by apply IH.
Qed.

(** X10.  The owner's consumer loop never fails on what the job puller
    sends: over the output channel of any run that started from a channel
    without error entries, [handleEntries] returns no error, whatever the
    clock readings. *)
Theorem owner_accepts_puller_output (p : Puller)
    (entries : list (bool * option RawKVEntry)) (h : ddlPullerImpl)
    (nows : list Z) :
  Forall (fun e => entryErr e = None) (outputCh p) ->
  (handleEntries h (zip nows (outputCh (runEntries p entries).2))).1 = None.
Proof.
  intros Hold. pose proof (runEntries_error_free entries p Hold) as Hall.
  clear Hold. revert h nows Hall.
  generalize (outputCh (runEntries p entries).2). clear.
  intros ch. induction ch as [|e ch IH]; intros h nows Hall.
  - by destruct nows.
  - destruct nows as [|now nows]; [reflexivity|].
    inversion Hall as [|? ? He Hrest]; subst. simpl.
    unfold handleDDLJobEntry. rewrite He.
    destruct (bool_decide _); [destruct (_ <? _); by apply IH|].
    destruct (entryJob e) as [job|]; [|by apply IH].
    destruct (_ =? _); by apply IH.
Qed.

End Run.

End Facts.

(** The job of table 1 finished at 20 reaches a puller resolved at 10 whose
    storage leaves the table without a unique key: the call fails, the job
    stays applied, and a second delivery is skipped. *)
Lemma applied_job_is_stale_example :
  (handleJob schemaActions (pullerOver (storageLeaving [1]) 10)
     (exampleJob 7 (ActionOther 5) 1 "test" "t1" 20
                 (Some (mkTableInfo 1 "t1")))).1.1
  = Return false (Some (ErrEligibleBecameIneligible "ddl"))
  /\ let p' := (handleJob schemaActions (pullerOver (storageLeaving [1]) 10)
                  (exampleJob 7 (ActionOther 5) 1 "test" "t1" 20
                              (Some (mkTableInfo 1 "t1")))).2 in
     resolvedTs p' = 20
     /\ resolvedTs (pullerOver (storageLeaving [1]) 10) < resolvedTs p'
     /\ handleJob schemaActions p'
          (exampleJob 7 (ActionOther 5) 1 "test" "t1" 20
                      (Some (mkTableInfo 1 "t1")))
        = (Return true None,
           exampleJob 7 (ActionOther 5) 1 "test" "t1" 20
                      (Some (mkTableInfo 1 "t1")), p').
Proof.
  split; [reflexivity|].
  refine (applied_job_is_stale schemaActions
            (pullerOver (storageLeaving [1]) 10) (storageLeaving [1])
            (exampleJob 7 (ActionOther 5) 1 "test" "t1" 20
                        (Some (mkTableInfo 1 "t1")))
            eq_refl _).
  change (20 <> 10). lia.
Defined.

(** **** The owner's queue *)

Lemma popFrontN_lastID (n : nat) :
  forall h : ddlPullerImpl,
    lastDDLJobID (popFrontN n h).2 = lastDDLJobID h.
Proof.
  induction n as [|n IH]; intros h; [reflexivity|].
  simpl. unfold PopFrontDDL. destruct (pendingDDLJobs h) as [|job rest].
  - specialize (IH h). by destruct (popFrontN n h).
  - specialize (IH (mkDDLPuller (resolvedTS h) rest (lastDDLJobID h)
                                (lastResolvedTsAdvancedTime h) (tsHistory h))).
    by destruct (popFrontN n _).
Qed.

(** X11.  The owner's queue is first in, first out.  [n] calls of
    [PopFrontDDL] return the first [n] pending jobs, oldest first, each with
    its [FinishedTS], and then, once the queue is empty, the resolved
    timestamp without a job; they remove what they return and touch neither
    the resolved timestamp nor the id of the last job accepted. *)
Theorem pop_front_is_fifo (n : nat) (h : ddlPullerImpl) :
  popFrontN n h
  = (map (fun job => (FinishedTS (BinlogInfo job), Some job))
         (take n (pendingDDLJobs h))
     ++ replicate (n - length (pendingDDLJobs h)) (resolvedTS h, None),
     mkDDLPuller (resolvedTS h) (drop n (pendingDDLJobs h)) (lastDDLJobID h)
                 (lastResolvedTsAdvancedTime h) (tsHistory h)).
Proof.
  revert h. induction n as [|n IH]; intros h.
  - by destruct h.
  - simpl. unfold PopFrontDDL.
    destruct h as [ts pending lastID lastTime hist]. simpl.
    destruct pending as [|job rest].
    + rewrite IH. simpl. by rewrite take_nil, drop_nil, Nat.sub_0_r.
    + rewrite IH. reflexivity.
Qed.

(** X12.  Popping does not reset the duplicate check: after any number of
    calls of [PopFrontDDL], an entry whose job has the id of the last job
    accepted is still ignored. *)
Theorem duplicate_after_pop_ignored (now : Z) (n : nat) (h : ddlPullerImpl)
    (e : DDLJobEntry) :
  carriesJob (lastDDLJobID h) e ->
  handleDDLJobEntry now (popFrontN n h).2 e = (None, (popFrontN n h).2).
Proof.
  intros He. apply DDLPullerFacts.handleDDLJobEntry_duplicate.
  by rewrite popFrontN_lastID.
Qed.

(** The job 7 is accepted, popped, and delivered again: it is ignored. *)
Lemma duplicate_after_pop_example :
  handleDDLJobEntry 3
    (popFrontN 1
       (handleDDLJobEntry 1 (NewDDLPuller 0)
          (jobEntryOf (exampleJob 7 (ActionOther 5) 1 "test" "t1" 20 None))).2).2
    (jobEntryOf (exampleJob 7 (ActionOther 5) 1 "test" "t1" 20 None))
  = (None,
     (popFrontN 1
        (handleDDLJobEntry 1 (NewDDLPuller 0)
           (jobEntryOf (exampleJob 7 (ActionOther 5) 1 "test" "t1" 20 None))).2).2).
Proof.
  apply (duplicate_after_pop_ignored 3 1).
  split; [discriminate|]. split; [reflexivity|].
  eexists. split; reflexivity.
Defined.

(** The run of the example puller over a job finished at 20, a resolved
    marker at 25 and a job finished at 30. *)
Lemma emitted_jobs_increase_example :
  let p' := (runEntries schemaActions (fun _ => true) exampleParse
               (inl ErrDecodeArgs) (examplePuller 10) exampleRun).2 in
  StronglySorted Z.lt
    (map (fun j => FinishedTS (BinlogInfo j)) (emittedJobs (outputCh p')))
  /\ Forall (fun j => resolvedTs (examplePuller 10)
                      < FinishedTS (BinlogInfo j) <= resolvedTs p')
            (emittedJobs (outputCh p')).
Proof.
  apply (emitted_jobs_increase schemaActions (fun _ => true) exampleParse
           (inl ErrDecodeArgs) (examplePuller 10) exampleRun).
  - eexists. reflexivity.
  - reflexivity.
Defined.

Lemma resolved_marker_forwarded_example :
  let r := handleRawKVEntry schemaActions (fun _ => true) exampleParse
             (inl ErrDecodeArgs) false (examplePuller 10)
             (Some (mkRawKV OpTypeResolved 25 "")) in
  resolvedTs r.2 = Z.max (resolvedTs (examplePuller 10)) 25
  /\ schemaStorage r.2
     = (fun s => AdvanceResolvedTs s 25) <$> schemaStorage (examplePuller 10)
  /\ r.1 = Ok
  /\ outputCh r.2
     = outputCh (examplePuller 10) ++ [mkEntry None OpTypeResolved 25 None].
Proof.
  apply (resolved_marker_forwarded schemaActions (fun _ => true) exampleParse
           (inl ErrDecodeArgs) false (examplePuller 10)
           (mkRawKV OpTypeResolved 25 "")).
  reflexivity.
Defined.

Lemma job_table_meta_kept_example :
  let p := setJobTableMeta (examplePuller 10)
             (mkWrapped "mysql" "tidb_ddl_job" "tidb_ddl_job") 2 in
  let p' := (runEntries schemaActions (fun _ => false) exampleParse
               (inl ErrDecodeArgs) p exampleRun).2 in
  ddlJobsTable p' = Some (mkWrapped "mysql" "tidb_ddl_job" "tidb_ddl_job")
  /\ jobMetaColumnID p' = jobMetaColumnID p.
Proof.
  apply (job_table_meta_kept schemaActions (fun _ => false) exampleParse
           (inl ErrDecodeArgs)
           (setJobTableMeta (examplePuller 10)
              (mkWrapped "mysql" "tidb_ddl_job" "tidb_ddl_job") 2)
           (mkWrapped "mysql" "tidb_ddl_job" "tidb_ddl_job") exampleRun).
  reflexivity.
Defined.

Lemma owner_accepts_puller_output_example :
  (handleEntries (NewDDLPuller 10)
     (zip [1; 2; 3]
          (outputCh (runEntries schemaActions (fun _ => true) exampleParse
                       (inl ErrDecodeArgs) (examplePuller 10)
                       exampleRun).2))).1
  = None.
Proof.
  apply (owner_accepts_puller_output schemaActions (fun _ => true)
           exampleParse (inl ErrDecodeArgs) (examplePuller 10) exampleRun
           (NewDDLPuller 10) [1; 2; 3]).
  constructor.
Defined.

(** The job of the example of C2, handled a second time. *)
Lemma handleRenameTables_idempotent_example :
  handleRenameTables (examplePuller 10)
    (setRenameResult
       (renameTablesJob threeTables ["test"; "ignore"; "test"]%string
                        [10; 20; 10])
       (RawRenameTables
          (mkRenameArgs [10; 10] [10; 10] ["n1"; "n3"]%string [1; 3]
                        ["test"; "test"]%string))
       [mkTableInfo 1 "n1"; mkTableInfo 3 "n3"])
  = (Return false None,
     setRenameResult
       (renameTablesJob threeTables ["test"; "ignore"; "test"]%string
                        [10; 20; 10])
       (RawRenameTables
          (mkRenameArgs [10; 10] [10; 10] ["n1"; "n3"]%string [1; 3]
                        ["test"; "test"]%string))
       [mkTableInfo 1 "n1"; mkTableInfo 3 "n3"]).
Proof.
  apply (handleRenameTables_idempotent (examplePuller 10) exampleStorage
           (renameTablesJob threeTables ["test"; "ignore"; "test"]%string
                            [10; 20; 10])).
  - reflexivity.
  - reflexivity.
Defined.

End DDLPullerRunFacts.

(** ** Further properties of the source manager *)

Module SourceManagerNewFacts.
Import SourceManager SourceManagerNew.

Section Facts.

Variable IsUpdate : RawKVEntry -> bool.

(** X13.  The split predicate panics on an update, and only on an update,
    when the split mode is none of the three constants: a nil entry and an
    entry that is not an update get an answer in every mode, and an update
    gets one in the modes None, AtStart and Always. *)
Theorem split_panics_on_unknown_mode (m : SourceManager)
    (getReplicaTs : unit -> Z) (raw : option RawKVEntry) :
  shouldSplitKVEntry IsUpdate m getReplicaTs raw = None
  <-> exists r, raw = Some r /\ IsUpdate r = true
                /\ splitUpdateMode m <> PullerSplitUpdateModeNone
                /\ splitUpdateMode m <> PullerSplitUpdateModeAtStart
                /\ splitUpdateMode m <> PullerSplitUpdateModeAlways.
Proof.
  unfold shouldSplitKVEntry, PullerSplitUpdateModeNone,
    PullerSplitUpdateModeAtStart, PullerSplitUpdateModeAlways.
  destruct raw as [r|].
  - destruct (IsUpdate r) eqn:Hu; simpl.
    + destruct (splitUpdateMode m =? 0) eqn:H0;
        [apply Z.eqb_eq in H0|apply Z.eqb_neq in H0].
      { split; [discriminate|]. intros (r' & _ & _ & Hn & _). lia. }
      destruct (splitUpdateMode m =? 2) eqn:H2;
        [apply Z.eqb_eq in H2|apply Z.eqb_neq in H2].
      { split; [discriminate|]. intros (r' & _ & _ & _ & _ & Hn). lia. }
      destruct (splitUpdateMode m =? 1) eqn:H1;
        [apply Z.eqb_eq in H1|apply Z.eqb_neq in H1].
      { split; [discriminate|]. intros (r' & _ & _ & _ & Hn & _). lia. }
      split; [|reflexivity]. intros _. exists r. by repeat split.
    + split; [discriminate|]. intros (r' & [= <-] & Hu' & _). congruence.
  - split; [discriminate|]. intros (r' & Hr & _). discriminate.
Qed.

Lemma addTables_snoc (m : SourceManager) tables t :
  addTables IsUpdate m (tables ++ [t])
  = AddTable IsUpdate (addTables IsUpdate m tables) (taSpan t)
             (taTableName t) (taStartTs t) (taGetReplicaTs t).
Proof. unfold addTables. by rewrite fold_left_app. Qed.

Lemma addTables_modes (m : SourceManager) tables :
  let m' := addTables IsUpdate m tables in
  splitUpdateMode m' = splitUpdateMode m /\ bdrMode m' = bdrMode m
  /\ multiplexing m' = multiplexing m.
Proof.
  induction tables as [|t tables IH] using rev_ind; [by repeat split|].
  rewrite addTables_snoc. simpl. exact IH.
Qed.

Lemma addTables_registered (m0 : SourceManager) tables :
  let m := addTables IsUpdate m0 tables in
  engineTables m
  = engineTables m0 ++ map (fun t => (taSpan t, taStartTs t)) tables
  /\ exists new,
       subscriptions m = subscriptions m0 ++ new
       /\ Forall2 (subscribedAs IsUpdate m0) new tables.
Proof.
  induction tables as [|t tables IH] using rev_ind.
  - simpl. rewrite app_nil_r. split; [reflexivity|].
    exists []. rewrite app_nil_r. split; [reflexivity|constructor].
  - rewrite addTables_snoc. cbv zeta in IH.
    destruct IH as (IHe & new & IHs & IHall).
    simpl. rewrite IHe, IHs, map_app, <- !app_assoc.
    split; [reflexivity|]. eexists. split; [reflexivity|].
    apply Forall2_app; [exact IHall|]. constructor; [|constructor].
    repeat split. intros raw. cbn [subShouldSplitKVEntry].
    destruct (addTables_modes m0 tables) as (Hm & _). cbv zeta in Hm.
    unfold shouldSplitKVEntry. by rewrite Hm.
Qed.

(** X14.  Tables are registered and subscribed in lockstep, and the split
    mode is fixed at construction.  After any sequence of [AddTable] on a
    manager that [newSourceManager] made without multiplexing (so the one
    of [NewForTest], and the one of [New] when multiplexing is off), the
    engine holds the tables it held, followed by the tables added, in
    order, each with its start timestamp; there is one table puller per
    table added, in the same order, with the table's span, start timestamp
    and name; and its split predicate answers as the split mode given at
    construction has it. *)
Theorem tables_registered_in_lockstep (engine : list (Span * Z))
    (mode : PullerSplitUpdateMode) (bdr : bool) (tables : list TableArgs) :
  let m0 := newSourceManager engine mode bdr false in
  let m := addTables IsUpdate m0 tables in
  splitUpdateMode m = mode
  /\ multiplexing m = false
  /\ engineTables m
     = engine ++ map (fun t => (taSpan t, taStartTs t)) tables
  /\ Forall2 (subscribedAs IsUpdate m0) (subscriptions m) tables.
Proof.
  intros m0 m. split; [apply (addTables_modes m0 tables)|].
  split; [apply (addTables_modes m0 tables)|].
  destruct (addTables_registered m0 tables) as (He & new & Hs & Hall).
  split; [exact He|]. subst m. rewrite Hs. exact Hall.
Qed.

(** X15.  A manager made by [NewForTest] never splits an update: every
    split predicate it subscribes a table with answers no split for every
    entry, and never panics. *)
Theorem NewForTest_never_splits (engine : list (Span * Z)) (bdr : bool)
    (tables : list TableArgs) (sub : Subscription)
    (raw : option RawKVEntry) :
  sub ∈ subscriptions (addTables IsUpdate (NewForTest engine bdr) tables) ->
  subShouldSplitKVEntry sub raw = Some false.
Proof.
  intros Hin.
  destruct (addTables_registered (NewForTest engine bdr) tables)
    as (_ & new & Hs & Hall).
  rewrite Hs in Hin. simpl in Hin.
  destruct (list_elem_of_lookup_1 _ _ Hin) as [i Hi].
  destruct (Forall2_lookup_l _ _ _ _ _ Hall Hi) as (t & _ & Ht).
  destruct Ht as (_ & _ & _ & ->). unfold shouldSplitKVEntry. simpl.
  destruct raw as [r|]; [|reflexivity]. by destruct (IsUpdate r).
Qed.

End Facts.

(** The table added to a test manager does not split the update committed
    before its replication began. *)
Lemma NewForTest_never_splits_example :
  subShouldSplitKVEntry
    (mkSubscription (mkSpan 1 "a" "z") 90 "t"
       (shouldSplitKVEntry SourceManagerSpec.putWithOldValue
          (NewForTest [] false) (fun _ => 100)))
    (Some (SourceManagerSpec.updateAt 50))
  = Some false.
Proof.
  apply (NewForTest_never_splits SourceManagerSpec.putWithOldValue [] false
           [mkTableArgs (mkSpan 1 "a" "z") "t" 90 (fun _ => 100)]).
  apply list_elem_of_singleton. reflexivity.
Defined.

End SourceManagerNewFacts.

(** ** Further properties of the MySQL backend *)

Module MySQLBackendMoreFacts.
Import MySQLBackend MySQLBackendSpec MySQLBackendMore.

(** **** Columns *)

(** X16.  [convertBinaryToString] is idempotent, and it changes values
    only: converting the columns a second time, as a retried flush does,
    changes nothing; the converted list has a column where the list had
    one, with the same name, character set and handle-key flag, so
    [hasHandleKey] answers the same before and after. *)
Theorem convertBinaryToString_idempotent (cols : list (option Column)) :
  convertBinaryToString (convertBinaryToString cols)
  = convertBinaryToString cols
  /\ map (option_map (fun c => (colName c, colCharset c, colIsHandleKey c)))
         (convertBinaryToString cols)
     = map (option_map (fun c => (colName c, colCharset c, colIsHandleKey c)))
           cols
  /\ hasHandleKey (convertBinaryToString cols) = hasHandleKey cols.
Proof.
  induction cols as [|[c|] cols (IH1 & IH2 & IH3)]; [done| |].
  - unfold convertBinaryToString in *. cbn [map].
    destruct (negb (String.eqb (colCharset c) "")
              && negb (String.eqb (colCharset c) "binary")) eqn:Hcs.
    + destruct (colValue c) eqn:Hv; cbn [colCharset colValue];
        rewrite ?Hcs, ?Hv, IH1; cbn [hasHandleKey option_map map];
        rewrite IH2, IH3; done.
    + rewrite Hcs, IH1. cbn [hasHandleKey option_map map].
      rewrite IH2, IH3. done.
  - unfold convertBinaryToString in *. cbn [map hasHandleKey option_map].
    by rewrite IH1, IH2, IH3.
Qed.

(** X17.  [hasHandleKey] answers true exactly when some column of the
    list, other than a nil one, is flagged as handle key. *)
Theorem hasHandleKey_iff (cols : list (option Column)) :
  hasHandleKey cols = true
  <-> exists col, Some col ∈ cols /\ colIsHandleKey col = true.
Proof.
  induction cols as [|[c|] cols IH]; simpl.
  - split; [discriminate|]. intros (col & Hin & _). by apply elem_of_nil in Hin.
  - destruct (colIsHandleKey c) eqn:Hc.
    + split; [|done]. intros _. exists c. split; [|exact Hc].
      apply elem_of_cons. by left.
    + rewrite IH. split; intros (col & Hin & Hk); exists col.
      * split; [|exact Hk]. apply elem_of_cons. by right.
      * split; [|exact Hk]. apply elem_of_cons in Hin as [[= <-]|Hin];
          [congruence|exact Hin].
  - rewrite IH. split; intros (col & Hin & Hk); exists col.
    + split; [|exact Hk]. apply elem_of_cons. by right.
    + split; [|exact Hk]. apply elem_of_cons in Hin as [Heq|Hin];
        [discriminate|exact Hin].
Qed.

(** **** Batches *)

Lemma len_app {A} (l k : list A) : len (l ++ k) = len l + len k.
Proof. unfold len. rewrite length_app. lia. Qed.

Lemma pushBatch_fold {A : Type} (cap : Z) (xs : list A) :
  forall st : list (list A) * list A,
    len st.2 < Z.max 1 cap ->
    Forall (fun b => 0 < len b <= Z.max 1 cap) st.1 ->
    let st' := fold_left (pushBatch cap) xs st in
    concat st'.1 ++ st'.2 = concat st.1 ++ st.2 ++ xs
    /\ len st'.2 < Z.max 1 cap
    /\ Forall (fun b => 0 < len b <= Z.max 1 cap) st'.1.
Proof.
  induction xs as [|x xs IH]; intros [full cur] Hcur Hfull; simpl in *.
  - by rewrite app_nil_r.
  - assert (Hlen : len (cur ++ [x]) = len cur + 1) by by rewrite len_app.
    assert (0 <= len cur) by (unfold len; lia).
    destruct (cap <=? len (cur ++ [x])) eqn:Hcap.
    + replace (pushBatch cap (full, cur) x)
        with (full ++ [cur ++ [x]], @nil A)
        by (unfold pushBatch; simpl; by rewrite Hcap).
      apply Z.leb_le in Hcap.
      destruct (IH (full ++ [cur ++ [x]], [])) as (Hc & Hl & Hf).
      * simpl. unfold len. simpl. lia.
      * simpl. apply Forall_app. split; [exact Hfull|].
        constructor; [cbv beta; lia|constructor].
      * simpl in *. split; [|split; assumption].
        rewrite Hc, concat_app. simpl.
        by rewrite !app_nil_r, <- !app_assoc.
    + replace (pushBatch cap (full, cur) x) with (full, cur ++ [x])
        by (unfold pushBatch; simpl; by rewrite Hcap).
      apply Z.leb_gt in Hcap.
      destruct (IH (full, cur ++ [x])) as (Hc & Hl & Hf).
      * simpl. lia.
      * exact Hfull.
      * simpl in *. split; [|split; assumption].
        by rewrite Hc, <- !app_assoc.
Qed.

Lemma closeBatches_fold {A : Type} (cap : Z) (xs : list A) :
  let batches := closeBatches (fold_left (pushBatch cap) xs ([], [])) in
  concat batches = xs
  /\ Forall (fun b => 0 < len b <= Z.max 1 cap) batches.
Proof.
  destruct (pushBatch_fold cap xs ([], [])) as (Hc & Hl & Hf).
  { simpl. unfold len. simpl. lia. }
  { constructor. }
  cbv zeta in *. simpl in Hc. unfold closeBatches.
  destruct (fold_left (pushBatch cap) xs ([], [])) as [full cur].
  simpl in *. destruct (0 <? len cur) eqn:Hpos;
    [apply Z.ltb_lt in Hpos|apply Z.ltb_ge in Hpos].
  - split.
    + rewrite concat_app. simpl. by rewrite app_nil_r.
    + apply Forall_app. split; [exact Hf|].
      constructor; [cbv beta; lia|constructor].
  - destruct cur as [|y cur]; [|unfold len in Hpos; simpl in Hpos; lia].
    rewrite app_nil_r in Hc. by split.
Qed.

Lemma groupRow_insert c ti g row0 :
  let g' := groupRow c ti g row0 in
  (insertRows g', insertRow g')
  = if IsInsert (convertRow row0) then
      pushBatch (MaxTxnRow c) (insertRows g, insertRow g)
                (convert2RowChanges (convertRow row0) ti RowChangeInsert)
    else (insertRows g, insertRow g).
Proof.
  unfold groupRow, pushBatch. fold (convertRow row0).
  set (row := convertRow row0). cbv zeta. cbn [fst snd].
  destruct (IsInsert row);
    [destruct (MaxTxnRow c <=? len (insertRow g ++ _))|];
    (destruct (IsDelete row); [destruct (MaxTxnRow c <=? len (_ ++ _))|]);
    (destruct (IsUpdate row);
     [destruct (MaxMultiUpdateRowCount c <=? len (_ ++ _))|]);
    reflexivity.
Qed.

Lemma groupRow_delete c ti g row0 :
  let g' := groupRow c ti g row0 in
  (deleteRows g', deleteRow g')
  = if IsDelete (convertRow row0) then
      pushBatch (MaxTxnRow c) (deleteRows g, deleteRow g)
                (convert2RowChanges (convertRow row0) ti RowChangeDelete)
    else (deleteRows g, deleteRow g).
Proof.
  unfold groupRow, pushBatch. fold (convertRow row0).
  set (row := convertRow row0). cbv zeta. cbn [fst snd].
  destruct (IsInsert row);
    [destruct (MaxTxnRow c <=? len (insertRow g ++ _))|];
    (destruct (IsDelete row); cbn [deleteRow deleteRows];
     [destruct (MaxTxnRow c <=? len (_ ++ _))|]);
    (destruct (IsUpdate row);
     [destruct (MaxMultiUpdateRowCount c <=? len (_ ++ _))|]);
    reflexivity.
Qed.

Lemma groupRow_update c ti g row0 :
  let g' := groupRow c ti g row0 in
  (updateRows g', updateRow g')
  = if IsUpdate (convertRow row0) then
      pushBatch (MaxMultiUpdateRowCount c) (updateRows g, updateRow g)
                (convert2RowChanges (convertRow row0) ti RowChangeUpdate)
    else (updateRows g, updateRow g).
Proof.
  unfold groupRow, pushBatch. fold (convertRow row0).
  set (row := convertRow row0). cbv zeta. cbn [fst snd].
  destruct (IsInsert row);
    [destruct (MaxTxnRow c <=? len (insertRow g ++ _))|];
    (destruct (IsDelete row); cbn [deleteRow deleteRows];
     [destruct (MaxTxnRow c <=? len (_ ++ _))|]);
    (destruct (IsUpdate row); cbn [updateRow updateRows];
     [destruct (MaxMultiUpdateRowCount c <=? len (_ ++ _))|]);
    reflexivity.
Qed.

Lemma fold_groupRow {A : Type} (proj : Groups -> list (list A) * list A)
    (kind : RowChangedEvent -> bool) (conv : RowChangedEvent -> A) (cap : Z)
    c ti :
  (forall g row0,
     proj (groupRow c ti g row0)
     = if kind (convertRow row0) then
         pushBatch cap (proj g) (conv (convertRow row0))
       else proj g) ->
  forall rows_ g,
    proj (fold_left (groupRow c ti) rows_ g)
    = fold_left (pushBatch cap)
                (map conv (List.filter kind (map convertRow rows_))) (proj g).
Proof.
  intros Hstep. induction rows_ as [|row0 rows_ IH]; intros g; [done|].
  simpl. rewrite IH, Hstep. by destruct (kind (convertRow row0)).
Qed.

(** The three results of [groupRowsByType] as batches of the rows of each
    kind. *)
Lemma groupRowsByType_batches c event ti :
  let g := groupRowsByType c event ti in
  g.1.1 = closeBatches
            (fold_left (pushBatch (MaxTxnRow c))
                       (rowChangesOf IsInsert RowChangeInsert ti event)
                       ([], []))
  /\ g.1.2 = closeBatches
               (fold_left (pushBatch (MaxMultiUpdateRowCount c))
                          (rowChangesOf IsUpdate RowChangeUpdate ti event)
                          ([], []))
  /\ g.2 = closeBatches
             (fold_left (pushBatch (MaxTxnRow c))
                        (rowChangesOf IsDelete RowChangeDelete ti event)
                        ([], [])).
Proof.
  unfold groupRowsByType, rowChangesOf. cbv zeta. cbn [fst snd].
  set (g0 := mkGroups [] [] [] [] [] []).
  pose proof (fold_groupRow (fun g => (insertRows g, insertRow g)) IsInsert
                (fun row => convert2RowChanges row ti RowChangeInsert)
                (MaxTxnRow c) c ti (groupRow_insert c ti) (Rows event) g0)
    as Hi.
  pose proof (fold_groupRow (fun g => (updateRows g, updateRow g)) IsUpdate
                (fun row => convert2RowChanges row ti RowChangeUpdate)
                (MaxMultiUpdateRowCount c) c ti (groupRow_update c ti)
                (Rows event) g0) as Hu.
  pose proof (fold_groupRow (fun g => (deleteRows g, deleteRow g)) IsDelete
                (fun row => convert2RowChanges row ti RowChangeDelete)
                (MaxTxnRow c) c ti (groupRow_delete c ti) (Rows event) g0)
    as Hd.
  cbv beta in Hi, Hu, Hd. subst g0.
  cbn [insertRows insertRow updateRows updateRow deleteRows deleteRow]
    in Hi, Hu, Hd.
  rewrite <- Hi, <- Hu, <- Hd.
  unfold closeBatches. by cbn [fst snd].
Qed.

Lemma groupRowsByTypeAllocating_some c event ti :
  0 <= MaxTxnRow c ->
  groupRowsByTypeAllocating c event ti = Some (groupRowsByType c event ti).
Proof.
  intros Hcap. unfold groupRowsByTypeAllocating, preAllocateSize.
  assert (0 <= len (Rows event)) by (unfold len; lia).
  destruct (MaxTxnRow c <? len (Rows event));
    by rewrite (proj2 (Z.ltb_ge _ _)).
Qed.

Lemma groupRowsByTypeAllocating_none c event ti :
  MaxTxnRow c < 0 -> groupRowsByTypeAllocating c event ti = None.
Proof.
  intros Hcap. unfold groupRowsByTypeAllocating, preAllocateSize.
  assert (0 <= len (Rows event)) by (unfold len; lia).
  rewrite (proj2 (Z.ltb_lt (MaxTxnRow c) (len (Rows event)))) by lia.
  by rewrite (proj2 (Z.ltb_lt _ _)).
Qed.

(** X18.  [groupRowsByType] loses no row and keeps the order.  With a
    negative [MaxTxnRow] it panics when it allocates its slices.  Otherwise
    it returns, and the insert batches, concatenated, are the insert rows of
    the event, in order, as row changes of the converted rows; so are the
    update batches for the update rows and the delete batches for the delete
    rows. *)
Theorem groupRowsByType_keeps_rows (c : Config) (event : TxnCallbackableEvent)
    (tableInfo : BuiltTableInfo) :
  (MaxTxnRow c < 0 -> groupRowsByTypeAllocating c event tableInfo = None)
  /\ (0 <= MaxTxnRow c ->
      exists g,
        groupRowsByTypeAllocating c event tableInfo = Some g
        /\ concat g.1.1 = rowChangesOf IsInsert RowChangeInsert tableInfo event
        /\ concat g.1.2 = rowChangesOf IsUpdate RowChangeUpdate tableInfo event
        /\ concat g.2 = rowChangesOf IsDelete RowChangeDelete tableInfo event).
Proof.
  split; [apply groupRowsByTypeAllocating_none|]. intros Hcap.
  exists (groupRowsByType c event tableInfo).
  split; [by apply groupRowsByTypeAllocating_some|].
  destruct (groupRowsByType_batches c event tableInfo) as (Hi & Hu & Hd).
  cbv zeta in *. rewrite Hi, Hu, Hd.
  repeat split; apply closeBatches_fold.
Qed.

(** X19.  No batch of [groupRowsByType] is empty, and none exceeds its cap.
    When [MaxTxnRow] is not negative, so that the function returns: an
    insert or delete batch has at most [MaxTxnRow] rows, and one row when
    [MaxTxnRow] is 0; an update batch has at most [MaxMultiUpdateRowCount]
    rows, and one row when that cap is below 1. *)
Theorem groupRowsByType_batch_sizes (c : Config)
    (event : TxnCallbackableEvent) (tableInfo : BuiltTableInfo) :
  0 <= MaxTxnRow c ->
  exists g,
    groupRowsByTypeAllocating c event tableInfo = Some g
    /\ Forall (fun b => 0 < len b <= Z.max 1 (MaxTxnRow c)) g.1.1
    /\ Forall (fun b => 0 < len b <= Z.max 1 (MaxMultiUpdateRowCount c)) g.1.2
    /\ Forall (fun b => 0 < len b <= Z.max 1 (MaxTxnRow c)) g.2.
Proof.
  intros Hcap. exists (groupRowsByType c event tableInfo).
  split; [by apply groupRowsByTypeAllocating_some|].
  destruct (groupRowsByType_batches c event tableInfo) as (Hi & Hu & Hd).
  cbv zeta in *. rewrite Hi, Hu, Hd.
  repeat split; apply closeBatches_fold.
Qed.

(** Three insert rows against a [MaxTxnRow] of 2: the batches hold the three
    rows. *)
Lemma groupRowsByType_keeps_rows_example :
  exists g,
    groupRowsByTypeAllocating batchConfig threeInserts (mkBuilt [] [])
    = Some g
    /\ concat g.1.1
       = rowChangesOf IsInsert RowChangeInsert (mkBuilt [] []) threeInserts
    /\ concat g.1.2
       = rowChangesOf IsUpdate RowChangeUpdate (mkBuilt [] []) threeInserts
    /\ concat g.2
       = rowChangesOf IsDelete RowChangeDelete (mkBuilt [] []) threeInserts.
Proof.
  apply (proj2 (groupRowsByType_keeps_rows batchConfig threeInserts
                  (mkBuilt [] []))).
  apply Z.leb_le. reflexivity.
Defined.

(** Three insert rows against a [MaxTxnRow] of 2: a batch of two rows and a
    batch of one. *)
Lemma groupRowsByType_batch_sizes_example :
  exists g,
    groupRowsByTypeAllocating batchConfig threeInserts (mkBuilt [] [])
    = Some g
    /\ Forall (fun b => 0 < len b <= Z.max 1 (MaxTxnRow batchConfig)) g.1.1
    /\ Forall (fun b => 0 < len b
                        <= Z.max 1 (MaxMultiUpdateRowCount batchConfig)) g.1.2
    /\ Forall (fun b => 0 < len b <= Z.max 1 (MaxTxnRow batchConfig)) g.2.
Proof.
  apply (groupRowsByType_batch_sizes batchConfig threeInserts (mkBuilt [] [])).
  apply Z.leb_le. reflexivity.
Defined.

(** **** Update statements *)

Lemma totalSize_nonneg (rows_ : list RowChange) :
  Forall (fun r => 0 <= rcApproximateDataSize r) rows_ -> 0 <= totalSize rows_.
Proof. induction 1 as [|r rows_ Hr _ IH]; simpl; lia. Qed.

Lemma sum_sizes (rows_ : list RowChange) :
  forall acc,
    Forall (fun r => 0 <= rcApproximateDataSize r) rows_ ->
    0 <= acc -> acc + totalSize rows_ < 2 ^ 63 ->
    fold_left (fun acc r => wrap64 (acc + rcApproximateDataSize r)) rows_ acc
    = acc + totalSize rows_.
Proof.
  induction rows_ as [|r rows_ IH]; intros acc Hall Hacc Hsum; simpl in *.
  - lia.
  - inversion Hall as [|? ? Hr Hrest]; subst.
    pose proof (totalSize_nonneg rows_ Hrest).
    rewrite MySQLBackendFacts.wrap64_small by lia. rewrite IH by (assumption || lia). lia.
Qed.

(** X20.  [genUpdateSQL] goes by the average row size.  When the sizes of
    the rows are not negative and neither their sum nor
    [MaxMultiUpdateRowSize] times their number overflows 64 bits, one
    multi-row UPDATE is generated if the sum of the sizes is below
    [MaxMultiUpdateRowSize] times the number of rows, and one UPDATE per
    row, in order, otherwise. *)
Theorem genUpdateSQL_by_average_size (c : Config) (rows_ : list RowChange) :
  Forall (fun r => 0 <= rcApproximateDataSize r) rows_ ->
  totalSize rows_ < 2 ^ 63 ->
  - 2 ^ 63 <= MaxMultiUpdateRowSize c * len rows_ < 2 ^ 63 ->
  genUpdateSQL c rows_
  = if totalSize rows_ <? MaxMultiUpdateRowSize c * len rows_
    then [GenUpdateSQLFast rows_]
    else map (fun row => GenSQL row DMLUpdate) rows_.
Proof.
  intros Hall Hsum Hcap. unfold genUpdateSQL.
  rewrite sum_sizes by (assumption || lia).
  by rewrite (MySQLBackendFacts.wrap64_small _ Hcap).
Qed.

(** Two rows of 100 and 300 bytes against a row size of 256: one
    statement. *)
Lemma genUpdateSQL_example :
  genUpdateSQL (mkConfig 16 256 40 256 false 20 true false false true false
                         true false 1)
    [mkRowChange (mkTableName "test" "t") None None (mkBuilt [] []) 100;
     mkRowChange (mkTableName "test" "t") None None (mkBuilt [] []) 300]
  = if totalSize
         [mkRowChange (mkTableName "test" "t") None None (mkBuilt [] []) 100;
          mkRowChange (mkTableName "test" "t") None None (mkBuilt [] []) 300]
       <? 256 * 2
    then
      [GenUpdateSQLFast
         [mkRowChange (mkTableName "test" "t") None None (mkBuilt [] []) 100;
          mkRowChange (mkTableName "test" "t") None None (mkBuilt [] [])
                      300]]
    else
      map (fun row => GenSQL row DMLUpdate)
        [mkRowChange (mkTableName "test" "t") None None (mkBuilt [] []) 100;
         mkRowChange (mkTableName "test" "t") None None (mkBuilt [] []) 300].
Proof.
  apply (genUpdateSQL_by_average_size
           (mkConfig 16 256 40 256 false 20 true false false true false
                     true false 1)).
  - repeat (apply List.Forall_cons; [simpl; lia|]). apply List.Forall_nil.
  - change (400 < 2 ^ 63). lia.
  - change (- 2 ^ 63 <= 512 < 2 ^ 63). lia.
Defined.

(** **** Execution *)

Section Exec.

Variable IsRetryableError : Err -> bool.
Variables ErrDupEntry ErrNoSuchTable ErrBadDB ErrUnknownSystemVariable : Z.
Variable db : nat -> TxnAnswer.

#[local] Abbreviation wrapMysqlTxnError := (wrapMysqlTxnError ErrDupEntry).
#[local] Abbreviation sequenceExecute := (sequenceExecute ErrDupEntry).
#[local] Abbreviation execOnce :=
  (execOnce ErrDupEntry ErrUnknownSystemVariable db).
#[local] Abbreviation isRetryableDMLError :=
  (isRetryableDMLError IsRetryableError ErrDupEntry ErrNoSuchTable ErrBadDB).
#[local] Abbreviation execDMLWithMaxRetries :=
  (execDMLWithMaxRetries IsRetryableError ErrDupEntry ErrNoSuchTable ErrBadDB
                         ErrUnknownSystemVariable db).

Lemma sequenceExecute_spec (answer : TxnAnswer) (qs : list string) :
  forall i : nat,
    match sequenceExecute answer i qs with
    | None =>
        forall k : nat, (k < length qs)%nat -> stmtErr answer (i + k) = None
    | Some e =>
        exists (k : nat) query raw,
          qs !! k = Some query
          /\ stmtErr answer (i + k) = Some raw
          /\ (forall k' : nat,
                (k' < k)%nat -> stmtErr answer (i + k') = None)
          /\ e = logDMLTxnErr (wrapMysqlTxnError raw) query
    end.
Proof.
  induction qs as [|query qs IH]; intros i; simpl.
  - intros k Hk. lia.
  - destruct (stmtErr answer i) as [raw|] eqn:Hi.
    + exists 0%nat, query, raw. rewrite Nat.add_0_r.
      repeat split; [exact Hi|]. intros k' Hk'. lia.
    + specialize (IH (S i)).
      destruct (sequenceExecute answer (S i) qs) as [e|].
      * destruct IH as (k & q & raw & Hq & Hraw & Hbefore & ->).
        exists (S k), q, raw. rewrite <- Nat.add_succ_comm.
        repeat split; [exact Hq|exact Hraw|].
        intros [|k'] Hk'; [by rewrite Nat.add_0_r|].
        rewrite <- Nat.add_succ_comm. apply Hbefore. lia.
      * intros [|k] Hk; [by rewrite Nat.add_0_r|].
        rewrite <- Nat.add_succ_comm. apply IH. lia.
Qed.

(** X21.  [sequenceExecute] stops at the first statement that fails.  It
    returns no error exactly when the database accepts every statement; and
    when it returns an error, the statements before the failing one were
    accepted, the failing one is the first the database refuses, and the
    error is what [logDMLTxnErr] makes of the database's error, wrapped by
    [wrapMysqlTxnError], and of that statement: its message is
    [Failed query info: ] followed by the statement, cut at 1024 bytes,
    and by a semicolon and a space. *)
Theorem sequenceExecute_first_failure (answer : TxnAnswer)
    (qs : list string) :
  match sequenceExecute answer 0 qs with
  | None => forall k : nat, (k < length qs)%nat -> stmtErr answer k = None
  | Some e =>
      exists (k : nat) query raw,
        qs !! k = Some query
        /\ stmtErr answer k = Some raw
        /\ (forall k' : nat, (k' < k)%nat -> stmtErr answer k' = None)
        /\ e = logDMLTxnErr (wrapMysqlTxnError raw) query
        /\ errWrappers e
           = WithMessage
               (String.append "Failed query info: "
                  (String.append
                     (if 1024 <? strlen query
                      then String.substring 0 1024 query else query)
                     "; "))
             :: errWrappers (wrapMysqlTxnError raw)
  end.
Proof.
  pose proof (sequenceExecute_spec answer qs 0) as H.
  destruct (sequenceExecute answer 0 qs) as [e|]; [|exact H].
  destruct H as (k & query & raw & Hq & Hraw & Hbefore & ->).
  exists k, query, raw. repeat split; assumption.
Qed.

Lemma retryDo_agree (op op' : nat -> bool -> option Err * bool)
    (isRetryable : Err -> bool) :
  (forall n, op n true = op' n true) ->
  (forall n, (op n true).2 = true) ->
  forall more n,
    retryDo op isRetryable more n true = retryDo op' isRetryable more n true.
Proof.
  intros Hsame Hsticky more.
  induction more as [|more IH]; intros n; simpl;
    rewrite <- (Hsame n); pose proof (Hsticky n) as Hfb;
    destruct (op n true) as [[err|] fb]; simpl in Hfb; subst; try reflexivity.
  destruct (negb (isRetryable err)); [reflexivity|apply IH].
Qed.

(** X23.  An oversize batch is executed statement by statement.  When twice
    the approximate size of the prepared batch exceeds the maximum packet
    size of the downstream, [execDMLWithMaxRetries] does, in every try,
    what it does with the multi-statement option off: the answer of the
    database to a multi-statement round trip is never asked for. *)
Theorem oversize_batch_runs_sequentially (s : mysqlBackend)
    (dmls : preparedDMLs) :
  maxAllowedPacket s < wrap64 (approximateSize dmls * 2) ->
  execDMLWithMaxRetries s dmls
  = execDMLWithMaxRetries (withMultiStmt false s) dmls.
Proof.
  intros Hsize. apply Z.ltb_lt in Hsize.
  unfold MySQLBackend.execDMLWithMaxRetries.
  destruct (negb _); [reflexivity|]. f_equal.
  cbn [maxAllowedPacket dmlMaxRetry attempts withMultiStmt]. rewrite Hsize.
  apply retryDo_agree.
  - intros n. unfold MySQLBackend.execOnce. cbn [cfg withMultiStmt].
    cbn [MultiStmtEnable IsWriteSourceExisted andb negb].
    rewrite andb_false_r. unfold setWriteSource.
    by cbn [IsWriteSourceExisted].
  - intros n. unfold MySQLBackend.execOnce. cbv zeta.
    destruct (beginErr (db n)); [reflexivity|].
    rewrite andb_false_r.
    destruct (sequenceExecute (db n) 0 (sqls dmls)); [reflexivity|].
    destruct (setWriteSource _ _ _); [reflexivity|].
    by destruct (commitErr (db n)).
Qed.

End Exec.

(** **** The prepared batch *)

Lemma wrap64_add_l (a b : Z) : wrap64 (wrap64 a + b) = wrap64 (a + b).
Proof.
  unfold wrap64. f_equal.
  replace ((a + 2 ^ 63) mod 2 ^ 64 - 2 ^ 63 + b + 2 ^ 63)
    with ((a + 2 ^ 63) mod 2 ^ 64 + b) by lia.
  rewrite Zplus_mod_idemp_l. f_equal. lia.
Qed.

Lemma totalRows_app (evs1 evs2 : list TxnCallbackableEvent) :
  totalRows (evs1 ++ evs2) = totalRows evs1 + totalRows evs2.
Proof. induction evs1 as [|e evs1 IH]; simpl; [lia|]. rewrite IH. lia. Qed.

Lemma totalRows_empty (evs : list TxnCallbackableEvent) :
  Forall (fun event => Rows event = []) evs -> totalRows evs = 0.
Proof.
  induction 1 as [|event evs He _ IH]; [reflexivity|].
  simpl. by rewrite He, IH.
Qed.

Section Prep.

Variable generate : Call -> string * list Value.
Variable reduceReplace :
  gmap string (list (list Value)) -> Z -> list string * list (list Value).
Variable QuoteString : TableName -> string.

#[local] Abbreviation quiet := (quiet reduceReplace).
#[local] Abbreviation flushCacheDMLs := (flushCacheDMLs reduceReplace).
#[local] Abbreviation callAndAppend := (callAndAppend generate).
#[local] Abbreviation prepareRow := (prepareRow generate reduceReplace).
#[local] Abbreviation prepareEventDMLs :=
  (prepareEventDMLs generate reduceReplace QuoteString).
#[local] Abbreviation prepareEvent :=
  (prepareEvent generate reduceReplace QuoteString).
#[local] Abbreviation prepareLoop :=
  (prepareLoop generate reduceReplace QuoteString).
#[local] Abbreviation prepareDMLs :=
  (prepareDMLs generate reduceReplace QuoteString).

Lemma quiet_same st st' :
  psRowCount st' = psRowCount st -> psSqls st' = psSqls st ->
  psValues st' = psValues st -> quiet st st'.
Proof.
  intros Hr Hs Hv. split; [exact Hr|]. unfold lockstep. by rewrite Hs, Hv.
Qed.

Lemma quiet_refl st : quiet st st.
Proof. by apply quiet_same. Qed.

Lemma quiet_trans st1 st2 st3 : quiet st1 st2 -> quiet st2 st3 -> quiet st1 st3.
Proof.
  intros [Hr1 Hl1] [Hr2 Hl2]. split; [congruence|]. auto.
Qed.

Lemma quiet_appendDMLs st qs vs :
  length qs = length vs -> quiet st (appendDMLs st qs vs).
Proof.
  intros Hlen. split; [reflexivity|]. unfold lockstep. simpl.
  intros _ Hl. rewrite !length_app. lia.
Qed.

Lemma quiet_flushCacheDMLs c st : quiet st (flushCacheDMLs c st).
Proof.
  unfold MySQLBackend.flushCacheDMLs. destruct (_ && _); [|apply quiet_refl].
  destruct (reduceReplace _ _) as [qs vs] eqn:Hred.
  split; [reflexivity|]. unfold lockstep. simpl. intros Hreduce Hl.
  specialize (Hreduce (replaces st) (BatchReplaceSize c)).
  rewrite Hred in Hreduce. simpl in Hreduce. rewrite !length_app. lia.
Qed.

Lemma quiet_addApproximateSize st n : quiet st (addApproximateSize st n).
Proof. by apply quiet_same. Qed.

Lemma quiet_callAndAppend st call : quiet st (callAndAppend st call).2.
Proof.
  unfold MySQLBackend.callAndAppend.
  destruct (generate call) as [query args].
  destruct (negb _); cbn [snd]; [|by apply quiet_same].
  eapply quiet_trans; [|by apply quiet_appendDMLs].
  by apply quiet_same.
Qed.

Lemma quiet_prepareRow flag c quoteTable st row :
  quiet st (prepareRow c quoteTable flag st row).
Proof.
  unfold MySQLBackend.prepareRow.
  destruct (negb (bool_decide (PreColumns row = []))) eqn:Hpre;
    destruct (negb (bool_decide (Columns row = []))) eqn:Hcol; cbn [andb].
  - pose proof (quiet_callAndAppend (flushCacheDMLs c st)
                  (prepareUpdate quoteTable (PreColumns row) (Columns row)
                                 (ForceReplicate c))) as Hcall.
    destruct (callAndAppend _ _) as [query st2]. cbn [snd] in Hcall.
    eapply quiet_trans; [apply quiet_flushCacheDMLs|].
    eapply quiet_trans; [exact Hcall|apply quiet_addApproximateSize].
  - pose proof (quiet_callAndAppend (flushCacheDMLs c st)
                  (prepareDelete quoteTable (PreColumns row)
                                 (ForceReplicate c))) as Hcall.
    destruct (callAndAppend _ _) as [query st2]. cbn [snd] in Hcall.
    eapply quiet_trans; [apply quiet_flushCacheDMLs|].
    eapply quiet_trans; [exact Hcall|apply quiet_addApproximateSize].
  - destruct (BatchReplaceEnabled c).
    + destruct (generate _) as [query args].
      eapply quiet_trans; [|apply quiet_addApproximateSize].
      destruct (negb (String.eqb query "")); by apply quiet_same.
    + pose proof (quiet_callAndAppend st
                    (prepareReplace quoteTable (Columns row) true flag))
        as Hcall.
      destruct (callAndAppend _ _) as [query st2]. cbn [snd] in Hcall.
      eapply quiet_trans; [exact Hcall|apply quiet_addApproximateSize].
  - apply quiet_addApproximateSize.
Qed.

Lemma quiet_fold {A} (f : PrepState -> A -> PrepState) (l : list A) :
  (forall st a, quiet st (f st a)) ->
  forall st, quiet st (fold_left f l st).
Proof.
  intros Hf. induction l as [|a l IH]; intros st; simpl.
  - apply quiet_refl.
  - eapply quiet_trans; [apply Hf|apply IH].
Qed.

Lemma quiet_prepareEventDMLs c flag event firstRow st :
  quiet st (prepareEventDMLs c flag event firstRow st).
Proof.
  unfold MySQLBackend.prepareEventDMLs. cbv zeta.
  set (st1 := match Callback event with Some _ => _ | None => st end).
  assert (H1 : quiet st st1).
  { subst st1. destruct (Callback event); by apply quiet_same. }
  eapply quiet_trans; [exact H1|]. clearbody st1.
  destruct (_ && _).
  - eapply quiet_trans; [|apply quiet_fold; intros; apply quiet_addApproximateSize].
    eapply quiet_trans; [|apply quiet_addApproximateSize].
    eapply quiet_trans; [apply quiet_flushCacheDMLs|].
    eapply quiet_trans; [|apply quiet_appendDMLs; by rewrite !length_map].
    by apply quiet_same.
  - apply quiet_fold. intros. apply quiet_prepareRow.
Qed.

Lemma prepareEvent_count c st event :
  let st' := prepareEvent c st event in
  psRowCount st' = wrap64 (psRowCount st + len (Rows event))
  \/ (Rows event = [] /\ st' = st).
Proof.
  unfold MySQLBackend.prepareEvent.
  destruct (Rows event) as [|firstRow rest] eqn:Hrows; [by right|].
  left. rewrite <- Hrows.
  by destruct (quiet_prepareEventDMLs c
                 (translateToInsert st
                  && (ReplicatingTs firstRow <? CommitTs firstRow))
                 event firstRow
                 (mkPrep
                    (if bool_decide (last (psStartTs st)
                                     = Some (StartTs firstRow))
                     then psStartTs st
                     else psStartTs st ++ [StartTs firstRow])
                    (psSqls st) (psValues st) (psCallbacks st) (replaces st)
                    (translateToInsert st
                     && (ReplicatingTs firstRow <? CommitTs firstRow))
                    (wrap64 (psRowCount st + len (Rows event)))
                    (psApproximateSize st) (calls st))) as [-> _].
Qed.

Lemma prepareEvent_lockstep c st event :
  reducesInLockstep reduceReplace -> lockstep st ->
  lockstep (prepareEvent c st event).
Proof.
  intros Hreduce Hl. unfold MySQLBackend.prepareEvent.
  destruct (Rows event) as [|firstRow rest] eqn:Hrows; [exact Hl|].
  eapply quiet_prepareEventDMLs; [exact Hreduce|exact Hl].
Qed.

Lemma fold_prepareEvent_count c evs :
  forall st total,
    psRowCount st = wrap64 total ->
    psRowCount (fold_left (prepareEvent c) evs st)
    = wrap64 (total + totalRows evs).
Proof.
  induction evs as [|event evs IH]; intros st total Hst; simpl.
  - by rewrite Z.add_0_r.
  - destruct (prepareEvent_count c st event) as [Hc|[Hrows Hsame]].
    + rewrite (IH _ (total + len (Rows event))).
      * f_equal. lia.
      * cbv zeta in Hc. by rewrite Hc, Hst, wrap64_add_l.
    + cbv zeta in Hsame. rewrite Hsame, Hrows.
      by rewrite (IH _ total Hst).
Qed.

Lemma fold_prepareEvent_lockstep c evs :
  reducesInLockstep reduceReplace ->
  forall st, lockstep st -> lockstep (fold_left (prepareEvent c) evs st).
Proof.
  intros Hreduce. induction evs as [|event evs IH]; intros st Hl; simpl.
  - exact Hl.
  - apply IH. by apply prepareEvent_lockstep.
Qed.

Lemma prepareDMLs_rowCount (s : mysqlBackend) :
  rowCount (prepareDMLs s) = wrap64 (totalRows (events s)).
Proof.
  unfold MySQLBackend.prepareDMLs. cbn [rowCount].
  destruct (quiet_flushCacheDMLs (cfg s) (prepareLoop (cfg s) (events s)))
    as [-> _].
  unfold MySQLBackend.prepareLoop.
  by rewrite (fold_prepareEvent_count (cfg s) (events s) _ 0).
Qed.

Lemma prepareDMLs_lockstep (s : mysqlBackend) :
  reducesInLockstep reduceReplace ->
  length (sqls (prepareDMLs s)) = length (values (prepareDMLs s)).
Proof.
  intros Hreduce. unfold MySQLBackend.prepareDMLs. cbn [sqls values].
  apply (quiet_flushCacheDMLs (cfg s) (prepareLoop (cfg s) (events s)));
    [exact Hreduce|].
  by apply fold_prepareEvent_lockstep.
Qed.

Section Flushing.

Variable IsRetryableError : Err -> bool.
Variables ErrDupEntry ErrNoSuchTable ErrBadDB ErrUnknownSystemVariable : Z.
Variable db : nat -> TxnAnswer.

#[local] Abbreviation execDMLWithMaxRetries :=
  (execDMLWithMaxRetries IsRetryableError ErrDupEntry ErrNoSuchTable ErrBadDB
                         ErrUnknownSystemVariable db).
#[local] Abbreviation Flush :=
  (Flush generate reduceReplace QuoteString IsRetryableError ErrDupEntry
         ErrNoSuchTable ErrBadDB ErrUnknownSystemVariable db).

(** X24.  The running total of rows follows the buffer.  If [rows] is the
    number of rows of the buffered events, as a 64-bit integer, it still is
    after [OnTxnEvent] and after [Flush], whatever [Flush] returns; and the
    row count that [prepareDMLs] computes for the batch is that total. *)
Theorem rows_follow_buffer (s : mysqlBackend)
    (event : TxnCallbackableEvent) :
  rowsConsistent s ->
  rowsConsistent (OnTxnEvent s event).2
  /\ rowsConsistent (Flush s).2
  /\ rowCount (prepareDMLs s) = rows s.
Proof.
  unfold rowsConsistent. intros Hs. split; [|split].
  - unfold OnTxnEvent. cbn [snd rows events].
    rewrite totalRows_app, Hs, wrap64_add_l. simpl. f_equal. lia.
  - unfold MySQLBackend.Flush. destruct (rows s =? 0); [exact Hs|].
    destruct (execDMLWithMaxRetries s _) as [[[err|] n]|]; try exact Hs.
    reflexivity.
  - by rewrite prepareDMLs_rowCount.
Qed.

(** X25.  Events without rows are not flushed.  While the running total
    follows the buffer and no buffered event has a row, [Flush] returns at
    once without an error and leaves the backend as it is: no transaction is
    begun, no callback is called, and the events stay in the buffer. *)
Theorem flush_without_rows_is_noop (s : mysqlBackend) :
  rowsConsistent s ->
  Forall (fun event => Rows event = []) (events s) ->
  Flush s = (FlushOk, s).
Proof.
  unfold rowsConsistent. intros Hs Hempty.
  unfold MySQLBackend.Flush. rewrite Hs, (totalRows_empty _ Hempty).
  change (wrap64 0 =? 0) with true. reflexivity.
Qed.

(** X26.  [Flush] does not panic over the lengths of [sqls] and [values].
    When [reduceReplace] returns as many argument lists as statements,
    [prepareDMLs] returns as many argument lists as statements, so the check
    at the head of [execDMLWithMaxRetries] passes and [Flush] ends without
    a panic. *)
Theorem flush_never_panics (s : mysqlBackend) :
  reducesInLockstep reduceReplace ->
  length (sqls (prepareDMLs s)) = length (values (prepareDMLs s))
  /\ execDMLWithMaxRetries s (prepareDMLs s) <> None
  /\ (Flush s).1 <> FlushPanic.
Proof.
  intros Hreduce. pose proof (prepareDMLs_lockstep s Hreduce) as Hlen.
  split; [exact Hlen|].
  assert (Hexec : execDMLWithMaxRetries s (prepareDMLs s) <> None).
  { unfold MySQLBackend.execDMLWithMaxRetries.
    by rewrite bool_decide_eq_true_2. }
  split; [exact Hexec|].
  unfold MySQLBackend.Flush. destruct (rows s =? 0); [discriminate|].
  destruct (execDMLWithMaxRetries s (prepareDMLs s)) as [[[err|] n]|];
    [discriminate..|done].
Qed.

End Flushing.

End Prep.

(** A batch of 8 bytes against a packet size of 10. *)
Lemma oversize_batch_example :
  execDMLWithMaxRetries exampleIsRetryableError exampleErrDupEntry
    exampleErrNoSuchTable exampleErrBadDB exampleErrUnknownSystemVariable
    failingDB (mkBackend exampleConfig 8 [] 1 10 0 [])
    exampleDMLs
  = execDMLWithMaxRetries exampleIsRetryableError exampleErrDupEntry
      exampleErrNoSuchTable exampleErrBadDB exampleErrUnknownSystemVariable
      failingDB (withMultiStmt false (mkBackend exampleConfig 8 [] 1 10 0 []))
      exampleDMLs.
Proof.
  apply (oversize_batch_runs_sequentially exampleIsRetryableError
           exampleErrDupEntry exampleErrNoSuchTable exampleErrBadDB
           exampleErrUnknownSystemVariable failingDB
           (mkBackend exampleConfig 8 [] 1 10 0 [])
           exampleDMLs).
  apply Z.ltb_lt. reflexivity.
Defined.

(** A backend that holds one event of one row accepts a second one. *)
Lemma rows_follow_buffer_example :
  rowsConsistent (OnTxnEvent (exampleBackend [insertEventAt 20 1%nat])
                             (insertEventAt 30 2%nat)).2
  /\ rowsConsistent
       (Flush exampleGenerate exampleReduceReplace exampleQuoteString
              exampleIsRetryableError exampleErrDupEntry exampleErrNoSuchTable
              exampleErrBadDB exampleErrUnknownSystemVariable failingDB
              (exampleBackend [insertEventAt 20 1%nat])).2
  /\ rowCount (prepareDMLs exampleGenerate exampleReduceReplace
                           exampleQuoteString
                           (exampleBackend [insertEventAt 20 1%nat]))
     = rows (exampleBackend [insertEventAt 20 1%nat]).
Proof.
  apply (rows_follow_buffer exampleGenerate exampleReduceReplace
           exampleQuoteString exampleIsRetryableError exampleErrDupEntry
           exampleErrNoSuchTable exampleErrBadDB
           exampleErrUnknownSystemVariable failingDB
           (exampleBackend [insertEventAt 20 1%nat])
           (insertEventAt 30 2%nat)).
  reflexivity.
Defined.

(** A backend that holds one event without rows. *)
Lemma flush_without_rows_example :
  Flush exampleGenerate exampleReduceReplace exampleQuoteString
        exampleIsRetryableError exampleErrDupEntry exampleErrNoSuchTable
        exampleErrBadDB exampleErrUnknownSystemVariable failingDB
        (mkBackend exampleConfig 8 [mkEvent [] true (Some 1%nat)] 0 4194304
                   0 [])
  = (FlushOk,
     mkBackend exampleConfig 8 [mkEvent [] true (Some 1%nat)] 0 4194304 0 []).
Proof.
  apply (flush_without_rows_is_noop exampleGenerate exampleReduceReplace
           exampleQuoteString exampleIsRetryableError exampleErrDupEntry
           exampleErrNoSuchTable exampleErrBadDB
           exampleErrUnknownSystemVariable failingDB
           (mkBackend exampleConfig 8 [mkEvent [] true (Some 1%nat)] 0
                      4194304 0 [])).
  - reflexivity.
  - apply List.Forall_cons; [reflexivity|apply List.Forall_nil].
Defined.

Lemma flush_never_panics_example :
  length (sqls (prepareDMLs exampleGenerate exampleReduceReplace
                            exampleQuoteString
                            (exampleBackend [insertEventAt 20 1%nat])))
  = length (values (prepareDMLs exampleGenerate exampleReduceReplace
                                exampleQuoteString
                                (exampleBackend [insertEventAt 20 1%nat])))
  /\ execDMLWithMaxRetries exampleIsRetryableError exampleErrDupEntry
       exampleErrNoSuchTable exampleErrBadDB exampleErrUnknownSystemVariable
       failingDB (exampleBackend [insertEventAt 20 1%nat])
       (prepareDMLs exampleGenerate exampleReduceReplace exampleQuoteString
                    (exampleBackend [insertEventAt 20 1%nat]))
     <> None
  /\ (Flush exampleGenerate exampleReduceReplace exampleQuoteString
            exampleIsRetryableError exampleErrDupEntry exampleErrNoSuchTable
            exampleErrBadDB exampleErrUnknownSystemVariable failingDB
            (exampleBackend [insertEventAt 20 1%nat])).1
     <> FlushPanic.
Proof.
  apply (flush_never_panics exampleGenerate exampleReduceReplace
           exampleQuoteString exampleIsRetryableError exampleErrDupEntry
           exampleErrNoSuchTable exampleErrBadDB
           exampleErrUnknownSystemVariable failingDB
           (exampleBackend [insertEventAt 20 1%nat])).
  intros r n. reflexivity.
Defined.

End MySQLBackendMoreFacts.

(** ** Properties of the Canal-JSON decoder *)

Module CanalFacts.
Import Canal.

(** X27.  [extractBasicMySQLType] cuts the type string at its first opening
    parenthesis or space: the result is a prefix of the string and holds
    neither byte, what follows it is empty or begins with one of them, and
    extracting again changes nothing. *)
Theorem extractBasicMySQLType_cuts (mysqlType : string) :
  let basic := extractBasicMySQLType mysqlType in
  hasDelimiter basic = false
  /\ (exists rest,
        mysqlType = String.append basic rest
        /\ match rest with
           | EmptyString => True
           | String ch _ => isDelimiter ch = true
           end)
  /\ extractBasicMySQLType basic = basic.
Proof.
  induction mysqlType as [|ch s (IH1 & (rest & IH2 & IH3) & IH4)]; simpl.
  - split; [reflexivity|]. split; [|reflexivity]. by exists EmptyString.
  - fold (isDelimiter ch). destruct (isDelimiter ch) eqn:Hch; simpl.
    + split; [reflexivity|]. split; [|reflexivity].
      exists (String ch s). by split.
    + fold (isDelimiter ch). rewrite Hch, IH1, IH4.
      split; [reflexivity|]. split; [|reflexivity].
      exists rest. split; [|exact IH3]. exact (f_equal (String ch) IH2).
Qed.

Section Message.

Context {V : Type}.

Lemma fillOldColumns_union (oldColumns d : gmap string V) :
  map_fold fillStep (Done (Some oldColumns)) d = Done (Some (oldColumns ∪ d)).
Proof.
  apply (map_fold_weak_ind
           (fun r m => r = Done (Some (oldColumns ∪ m)))).
  - by rewrite (right_id_L ∅ (∪)).
  - intros key value m r Hm ->. unfold fillStep.
    destruct ((oldColumns ∪ m) !! key) as [v|] eqn:Hl.
    + apply lookup_union_Some_raw in Hl as [Hl|[_ Hl]]; [|congruence].
      do 2 f_equal. apply map_eq. intros k. rewrite !lookup_union.
      destruct (decide (k = key)) as [->|Hne].
      * rewrite Hl, Hm, lookup_insert_eq. reflexivity.
      * by rewrite lookup_insert_ne.
    + apply lookup_union_None in Hl as [Hl _].
      do 2 f_equal. by rewrite insert_union_r.
Qed.

Lemma columnsTyped_iff (m : gmap string V) (mysqlType : gmap string string) :
  columnsTyped (Some m) mysqlType = true
  <-> forall key, is_Some (m !! key) -> is_Some (mysqlType !! key).
Proof.
  unfold columnsTyped.
  refine (map_fold_weak_ind
            (fun (r : bool) (m : gmap string V) =>
               r = true
               <-> forall key, is_Some (m !! key) -> is_Some (mysqlType !! key))
            (typedStep mysqlType) true _ _ m).
  - split; [|reflexivity]. intros _ key [v Hv]. by rewrite lookup_empty in Hv.
  - intros name value m0 r Hm0 IH. unfold typedStep.
    rewrite andb_true_iff, bool_decide_eq_true, IH. split.
    + intros [Hall Hname] key [v Hv].
      destruct (decide (key = name)) as [->|Hne]; [exact Hname|].
      apply Hall. rewrite lookup_insert_ne in Hv by done. by exists v.
    + intros Hall. split.
      * intros key [v Hv]. apply Hall.
        destruct (decide (key = name)) as [->|Hne]; [congruence|].
        rewrite lookup_insert_ne by done. by exists v.
      * apply Hall. rewrite lookup_insert_eq. by eexists.
Qed.

Lemma columnsTyped_false (m : gmap string V)
    (mysqlType : gmap string string) (key : string) :
  is_Some (m !! key) -> mysqlType !! key = None ->
  columnsTyped (Some m) mysqlType = false.
Proof.
  intros Hkey Hnone. apply not_true_is_false. intros Htyped.
  destruct (proj1 (columnsTyped_iff m mysqlType) Htyped key Hkey) as [t Ht].
  congruence.
Qed.

(** X28.  For an UPDATE whose message carries both maps, the pre-image has
    every column of the row.  When a column of [data] has no entry in
    [mysqlType], [canalJSONMessage2RowChange] returns the decode error
    before it looks at [old].  When every column of [data] and of [old] has
    one, it returns a row whose [Columns] come from [data] and whose
    [PreColumns] come from [old] filled up: the loop leaves in [old] what
    was there and adds each column of [data] that [old] lacks, whatever the
    order in which [data] is iterated, so that a column has its value from
    [old] if [old] has it, and its value from [data] otherwise. *)
Theorem update_pre_image_fills_unchanged_columns (msg : @JSONMessage V)
    (oldColumns data : gmap string V) :
  eventType msg = EventUpdate ->
  getOld msg = Done (Some oldColumns) ->
  getData msg = Done (Some data) ->
  ((exists key, is_Some (data !! key) /\ MySQLType msg !! key = None) ->
   canalJSONMessage2RowChange msg = Done DecodeFailed)
  /\ ((forall key, is_Some (data !! key) \/ is_Some (oldColumns !! key) ->
                   is_Some (MySQLType msg !! key)) ->
      exists pre,
        canalJSONMessage2RowChange msg
        = Done (Row (Some (Some pre)) (Some (Some data)))
        /\ forall key,
             pre !! key = match oldColumns !! key with
                          | Some v => Some v
                          | None => data !! key
                          end).
Proof.
  intros Htp Hold Hdata. unfold canalJSONMessage2RowChange.
  rewrite Hdata, Htp, Hold. cbv zeta. split.
  - intros (key & Hkey & Hnone).
    by rewrite (columnsTyped_false data (MySQLType msg) key Hkey Hnone).
  - intros Hall. exists (oldColumns ∪ data).
    assert (Hlookup : forall key,
               (oldColumns ∪ data) !! key
               = match oldColumns !! key with
                 | Some v => Some v
                 | None => data !! key
                 end).
    { intros key. rewrite lookup_union.
      destruct (oldColumns !! key), (data !! key); reflexivity. }
    split; [|exact Hlookup].
    rewrite (proj2 (columnsTyped_iff data (MySQLType msg)))
      by (intros key Hkey; apply Hall; by left).
    cbn [negb fillOldColumns]. rewrite fillOldColumns_union.
    rewrite (proj2 (columnsTyped_iff (oldColumns ∪ data) (MySQLType msg)));
      [reflexivity|].
    intros key [v Hv]. apply Hall. rewrite Hlookup in Hv.
    destruct (oldColumns !! key) as [w|]; [right; by eexists|left; by eexists].
Qed.

(** X29.  An UPDATE whose message has no [old].  When a column of [data]
    has no entry in [mysqlType], [canalJSONMessage2RowChange] returns the
    decode error.  When every column of [data] has one and [data] has a
    column, it panics: the nil map that [getOld] returns is assigned to.
    With an empty [data] nothing is assigned and the row has the nil map as
    the source of its pre-image. *)
Theorem update_without_old_panics (msg : @JSONMessage V)
    (data : gmap string V) :
  eventType msg = EventUpdate ->
  getOld msg = Done None ->
  getData msg = Done (Some data) ->
  ((exists key, is_Some (data !! key) /\ MySQLType msg !! key = None) ->
   canalJSONMessage2RowChange msg = Done DecodeFailed)
  /\ ((forall key, is_Some (data !! key) -> is_Some (MySQLType msg !! key)) ->
      data <> ∅ ->
      canalJSONMessage2RowChange msg = Panics)
  /\ (data = ∅ ->
      canalJSONMessage2RowChange msg = Done (Row (Some None) (Some (Some ∅)))).
Proof.
  intros Htp Hold Hdata. unfold canalJSONMessage2RowChange.
  rewrite Hdata, Htp, Hold. cbv zeta.
  assert (Hfill : (data <> ∅ -> fillOldColumns None (Some data) = Panics)
                  /\ (data = ∅ -> fillOldColumns None (Some data) = Done None)).
  { unfold fillOldColumns.
    refine (map_fold_weak_ind
              (fun r (m : gmap string V) =>
                 (m <> ∅ -> r = Panics) /\ (m = ∅ -> r = Done None))
              fillStep (Done None) _ _ data).
    - split; [congruence|reflexivity].
    - intros key value m r Hm [Hne He]. split.
      + intros _. destruct (decide (m = ∅)) as [Hempty|Hempty].
        * by rewrite (He Hempty).
        * by rewrite (Hne Hempty).
      + intros Hins. by apply insert_non_empty in Hins. }
  destruct Hfill as [Hpanic Hnil]. split; [|split].
  - intros (key & Hkey & Hnone).
    by rewrite (columnsTyped_false data (MySQLType msg) key Hkey Hnone).
  - intros Hall Hne.
    rewrite (proj2 (columnsTyped_iff data (MySQLType msg)) Hall).
    cbn [negb]. by rewrite (Hpanic Hne).
  - intros ->.
    rewrite (proj2 (columnsTyped_iff ∅ (MySQLType msg)))
      by (intros key [v Hv]; by rewrite lookup_empty in Hv).
    cbn [negb]. by rewrite (Hnil eq_refl).
Qed.

End Message.

(** A row whose column [b] changed from 1 to 2 and whose column [a] did
    not change. *)
Lemma update_pre_image_example :
  exists pre,
    canalJSONMessage2RowChange exampleUpdate
    = Done (Row (Some (Some pre)) (Some (Some exampleData)))
    /\ forall key,
         pre !! key = match exampleOld !! key with
                      | Some v => Some v
                      | None => exampleData !! key
                      end.
Proof.
  refine (proj2 (update_pre_image_fills_unchanged_columns exampleUpdate
                   exampleOld exampleData eq_refl eq_refl eq_refl) _).
  intros key Hkey. unfold exampleUpdate, exampleTypes. cbn [MySQLType].
  destruct (decide (key = "a"%string)) as [->|Ha]; [by eexists|].
  destruct (decide (key = "b"%string)) as [->|Hb]; [by eexists|].
  unfold exampleData, exampleOld in Hkey.
  rewrite ?lookup_insert_ne, ?lookup_singleton_ne in Hkey by done.
  by destruct Hkey as [[v Hv]|[v Hv]].
Defined.

(** The same row in a message without [old]. *)
Lemma update_without_old_example :
  canalJSONMessage2RowChange
    (mkJSONMessage EventUpdate exampleTypes (Some [Some exampleData]) None)
  = Panics.
Proof.
  refine (proj1 (proj2 (update_without_old_panics
                          (mkJSONMessage EventUpdate exampleTypes
                                         (Some [Some exampleData]) None)
                          exampleData eq_refl eq_refl eq_refl)) _ _).
  - intros key Hkey. unfold exampleTypes.
    destruct (decide (key = "a"%string)) as [->|Ha]; [by eexists|].
    destruct (decide (key = "b"%string)) as [->|Hb]; [by eexists|].
    unfold exampleData in Hkey.
    rewrite ?lookup_insert_ne, ?lookup_singleton_ne in Hkey by done.
    by destruct Hkey as [v Hv].
  - apply insert_non_empty.
Defined.

End CanalFacts.
